(** * lingo: the retry controller and the provider gateway

    A shallow embedding of [ratelimit.go], [types.go] and the gateway part
    of [gateway.go], followed by the properties of the specification that
    were checked against it.

    Conventions of the embedding.
    - Go [int], [int64] and [time.Duration] are [Z]; the places where the
      source can wrap around apply [wrap64] explicitly.
    - Go [float64] is [spec_float] at precision 53 and maximal exponent
      1024, with the IEEE 754 operations of the standard library's
      [SpecFloat] (round to nearest, ties to even).
    - Go strings are byte strings ([string]); an [error] is a value with an
      [Error] text, [nil] is [None].
    - A [*RateLimitConfig] is a location in a heap of configurations, so
      that writes through the pointer are visible to every holder.
    - The effects of [Execute] (invocations of the operation, log entries,
      waits) and of the gateway (constructor calls, log entries, adapter
      shutdowns) are recorded in a trace of events. *)

From Stdlib Require Import ZArith String Ascii List Bool Lia.
From Stdlib Require Import Floats.SpecFloat Sorting.Sorted.
From stdpp Require Import gmap strings list fin_maps.

Local Open Scope string_scope.
Local Open Scope Z_scope.

(* ===================================================================== *)
(** * Machine integers *)
(* ===================================================================== *)

Definition min_int64 : Z := - 2 ^ 63.
Definition max_int64 : Z := 2 ^ 63 - 1.

(** Two's complement wrap-around of a 64-bit signed result. *)
Definition wrap64 (z : Z) : Z := (z + 2 ^ 63) mod 2 ^ 64 - 2 ^ 63.

Definition in_int64 (z : Z) : bool := (min_int64 <=? z) && (z <=? max_int64).

(* ===================================================================== *)
(** * float64 *)
(* ===================================================================== *)

Module float64.

Definition t : Type := spec_float.

Definition prec : Z := 53.
Definition emax : Z := 1024.

Definition mul : t -> t -> t := SFmul prec emax.
Definition sub : t -> t -> t := SFsub prec emax.
Definition eqb : t -> t -> bool := SFeqb.
Definition ltb : t -> t -> bool := SFltb.
Definition leb : t -> t -> bool := SFleb.

(** The float nearest to [m * 2^e]. *)
Definition of_dyadic (m e : Z) : t := binary_normalize prec emax m e false.

Definition zero : t := S754_zero false.
Definition one : t := Eval vm_compute in of_dyadic 1 0.
Definition two : t := Eval vm_compute in of_dyadic 2 0.
Definition three : t := Eval vm_compute in of_dyadic 3 0.
Definition quarter : t := Eval vm_compute in of_dyadic 1 (-2).

(** Conversion [float64(x)] of an [int64]: the nearest float. *)
Definition of_int64 (z : Z) : t := of_dyadic z 0.

(** The integer part (rounding toward zero) of a finite float. *)
Definition trunc (f : t) : option Z :=
  match f with
  | S754_zero _ => Some 0
  | S754_finite s m e =>
      let a := if 0 <=? e then Z.pos m * 2 ^ e else Z.pos m / 2 ^ (- e) in
      Some (if s then - a else a)
  | S754_infinity _ | S754_nan => None
  end.

(** Whether the conversion to [int64] is defined by the language: the
    float is finite and its integer part fits. *)
Definition fits_int64 (f : t) : bool :=
  match trunc f with
  | Some z => in_int64 z
  | None => false
  end.

(** Conversion [int64(f)], as in [time.Duration(f)]. The fraction is
    discarded. When the value does not fit the Go specification leaves
    the result to the implementation; the amd64 result (the most negative
    integer) is taken here, and every property below that depends on it
    says so. *)
Definition to_int64 (f : t) : Z :=
  match trunc f with
  | Some z => if in_int64 z then z else min_int64
  | None => min_int64
  end.

End float64.

(* ===================================================================== *)
(** * Package strings *)
(* ===================================================================== *)

Module strings.

Definition byte_in (lo hi c : ascii) : bool :=
  (N.leb (N_of_ascii lo) (N_of_ascii c)) && (N.leb (N_of_ascii c) (N_of_ascii hi)).

Definition lower_byte (c : ascii) : ascii :=
  if byte_in "A" "Z" c then ascii_of_N (N_of_ascii c + 32) else c.

(** Whether every byte of a text is below [utf8.RuneSelf], the test that
    opens [strings.ToLower]. *)
Definition isASCII (s : string) : bool :=
  forallb (fun c => N.ltb (N_of_ascii c) 128) (list_ascii_of_string s).

(** [strings.ToLower] on ASCII text: the upper-case letters are mapped
    to lower case, every other byte is kept. For a text that satisfies
    [isASCII] this is what Go returns. Go maps the runes of any other text
    through the Unicode tables, which can change its bytes and its length;
    the tables are not part of this development, and the properties that
    depend on the lowered form of a text are stated for ASCII texts. *)
Fixpoint ToLower (s : string) : string :=
  match s with
  | EmptyString => EmptyString
  | String c s' => String (lower_byte c) (ToLower s')
  end.

Definition HasPrefix (s pre : string) : bool := String.prefix pre s.

Fixpoint index_from (i : Z) (s substr : string) : Z :=
  if HasPrefix s substr then i
  else match s with
       | EmptyString => -1
       | String _ s' => index_from (i + 1) s' substr
       end.

(** [strings.Index]: the byte index of the first occurrence, or -1. *)
Definition Index (s substr : string) : Z := index_from 0 s substr.

Definition Contains (s substr : string) : bool := 0 <=? Index s substr.

Definition len (s : string) : Z := Z.of_nat (String.length s).

(** [s[i]], for an index within bounds. *)
Definition at_ (s : string) (i : Z) : option ascii := String.get (Z.to_nat i) s.

(** [s[lo:hi]], for [0 <= lo <= hi <= len s]. *)
Definition slice (s : string) (lo hi : Z) : string :=
  String.substring (Z.to_nat lo) (Z.to_nat (hi - lo)) s.

End strings.

(* ===================================================================== *)
(** * Package strconv *)
(* ===================================================================== *)

Module strconv.

Definition is_digit (c : ascii) : bool := strings.byte_in "0" "9" c.
Definition is_dot (c : ascii) : bool := Ascii.eqb c ".".

Definition digit_val (c : ascii) : Z := Z.of_N (N_of_ascii c) - 48.

(** Reads an unsigned decimal made of digits and at most one point:
    the digits as one integer [n] and the number [k] of digits after the
    point, for the value [n / 10^k]. At least one digit is required and a
    second point is a syntax error. *)
Fixpoint readDecimal (s : string) (sawdot sawdigits : bool) (n k : Z) : option (Z * Z) :=
  match s with
  | EmptyString => if sawdigits then Some (n, k) else None
  | String c s' =>
      if is_dot c then
        if sawdot then None else readDecimal s' true sawdigits n k
      else if is_digit c then
        readDecimal s' sawdot true (10 * n + digit_val c) (if sawdot then k + 1 else k)
      else None
  end.

(** The float nearest to [n / 10^k], for [0 < n]. *)
Definition nearest_ratio (n d : Z) : float64.t :=
  let '(q, e, l) := SFdiv_core_binary float64.prec float64.emax n 0 d 0 in
  binary_round_aux float64.prec float64.emax false q e l.

(** [strconv.ParseFloat(s, 64)] on the texts [extractRetryAfter] passes
    to it, which consist of digits and points only: [Some f] is the
    correctly rounded value with a [nil] error, [None] is a syntax error
    or a value out of range. A text with any other byte is not in the
    domain of this model and is reported as an error. *)
Definition ParseFloat (s : string) : option float64.t :=
  match readDecimal s false false 0 0 with
  | None => None
  | Some (n, k) =>
      if n =? 0 then Some float64.zero
      else match nearest_ratio n (10 ^ k) with
           | S754_infinity _ | S754_nan => None
           | f => Some f
           end
  end.

End strconv.

(* ===================================================================== *)
(** * Package time *)
(* ===================================================================== *)

Module time.
(** A [time.Duration] is an [int64] count of nanoseconds. *)
Definition Duration : Type := Z.
Definition Nanosecond : Duration := 1.
Definition Millisecond : Duration := 1000000.
Definition Second : Duration := 1000000000.
End time.

(* ===================================================================== *)
(** * Errors, contexts and traces *)
(* ===================================================================== *)

(** The error values the core produces or passes on. [wrapError] is an
    error built by [fmt.Errorf] with a [%w] verb: it carries its formatted
    text and the error it wraps. *)
Inductive error : Type :=
  | errorString (s : string)
  | wrapError (msg : string) (err : error)
  | HTTPStatusError (StatusCode : Z) (Message : string)
  | Canceled
  | DeadlineExceeded.

(** The method [Error()]. *)
Definition Error (e : error) : string :=
  match e with
  | errorString s => s
  | wrapError msg _ => msg
  | HTTPStatusError _ Message => Message
  | Canceled => "context canceled"
  | DeadlineExceeded => "context deadline exceeded"
  end.

Module context.
(** A [context.Context] as the code observes it: [Done c i] tells whether
    the channel [ctx.Done()] is ready the [i]-th time it is polled, and
    [Err c] is what [ctx.Err()] then returns. *)
Record t : Type := { Done : Z -> bool; Err : error }.

(** A context that is never cancelled. *)
Definition Background : t := {| Done := fun _ => false; Err := Canceled |}.
End context.

Variant Logger : Type :=
  | NopLogger
  | ZerologAdapter (name : string).

(** What the code does to the outside, in order. *)
Variant event : Type :=
  (* Execute *)
  | EvCall (attempt : Z) (res : option error)
  | EvLogExhausted (attempts : Z) (err : error)
  | EvLogWaiting (attempt max_retries : Z) (wait : time.Duration)
  | EvWait (backoff wait : time.Duration) (elapsed : bool)
  (* gateway *)
  | EvFactory (provider : string)
  | EvLogRegistered (provider : string)
  | EvClose (provider : string).

(* ===================================================================== *)
(** * types.go: RateLimitConfig *)
(* ===================================================================== *)

Record RateLimitConfig : Type := {
  MaxRetries : Z;
  InitialBackoff : time.Duration;
  MaxBackoff : time.Duration;
  BackoffMultiplier : float64.t
}.

Definition DefaultRateLimitConfig : RateLimitConfig :=
  {| MaxRetries := 3;
     InitialBackoff := 1 * time.Second;
     MaxBackoff := 60 * time.Second;
     BackoffMultiplier := float64.two |}.

(** Locations of [RateLimitConfig] values, and the heap that holds them. *)
Definition loc : Type := positive.
Abbreviation heap := (gmap loc RateLimitConfig).

(* ===================================================================== *)
(** * ratelimit.go *)
(* ===================================================================== *)

(** The four assignments of [newRateLimiter], in order. *)
Definition applyDefaults (c : RateLimitConfig) : RateLimitConfig :=
  let c := if MaxRetries c =? 0
           then {| MaxRetries := 3; InitialBackoff := InitialBackoff c;
                   MaxBackoff := MaxBackoff c; BackoffMultiplier := BackoffMultiplier c |}
           else c in
  let c := if InitialBackoff c =? 0
           then {| MaxRetries := MaxRetries c; InitialBackoff := 1 * time.Second;
                   MaxBackoff := MaxBackoff c; BackoffMultiplier := BackoffMultiplier c |}
           else c in
  let c := if MaxBackoff c =? 0
           then {| MaxRetries := MaxRetries c; InitialBackoff := InitialBackoff c;
                   MaxBackoff := 60 * time.Second; BackoffMultiplier := BackoffMultiplier c |}
           else c in
  if float64.eqb (BackoffMultiplier c) float64.zero
  then {| MaxRetries := MaxRetries c; InitialBackoff := InitialBackoff c;
          MaxBackoff := MaxBackoff c; BackoffMultiplier := float64.two |}
  else c.

(** The retry-after hints, in the order they are tried. *)
Definition patterns : list string :=
  ["retry after "; "retry-after: "; "retry_after="; "retry_after_ms="].

Definition rateLimitIndicators : list string :=
  ["rate limit"; "rate_limit"; "ratelimit"; "too many requests"; "429";
   "quota exceeded"; "quota_exceeded"; "overloaded"; "capacity"; "throttl"].

Definition isRateLimitError (err : option error) : bool :=
  match err with
  | None => false
  | Some e =>
      let errStr := strings.ToLower (Error e) in
      existsb (fun indicator => strings.Contains errStr indicator) rateLimitIndicators
  end.

(** The inner loop of [extractRetryAfter]: the end of the run of digits
    and points that starts at [end_]. *)
Fixpoint scanNumber (fuel : nat) (errStr : string) (end_ : Z) : Z :=
  match fuel with
  | O => end_
  | S fuel' =>
      if end_ <? strings.len errStr then
        match strings.at_ errStr end_ with
        | Some c =>
            if strconv.is_digit c || strconv.is_dot c
            then scanNumber fuel' errStr (end_ + 1)
            else end_
        | None => end_
        end
      else end_
  end.

(** One iteration of the loop over [patterns]: [Some d] when the
    iteration returns [d], [None] when it goes on to the next pattern. *)
Definition tryPattern (errStr pattern : string) : option time.Duration :=
  let idx := strings.Index (strings.ToLower errStr) pattern in
  if idx =? -1 then None
  else
    let start := idx + strings.len pattern in
    let end_ := scanNumber (String.length errStr) errStr start in
    if end_ >? start then
      match strconv.ParseFloat (strings.slice errStr start end_) with
      | Some val =>
          if strings.Contains pattern "ms"
          then Some (wrap64 (float64.to_int64 val * time.Millisecond))
          else Some (wrap64 (float64.to_int64 val * time.Second))
      | None => None
      end
    else None.

Fixpoint extractLoop (errStr : string) (ps : list string) : time.Duration :=
  match ps with
  | [] => 0
  | pattern :: ps' =>
      match tryPattern errStr pattern with
      | Some d => d
      | None => extractLoop errStr ps'
      end
  end.

Definition extractRetryAfter (err : option error) : time.Duration :=
  match err with
  | None => 0
  | Some e => extractLoop (Error e) patterns
  end.

(** A retried operation: the result of the invocation made at attempt
    number [attempt] ([None] is a [nil] error). *)
Definition RetryFunc : Type := Z -> option error.

Module rateLimiter.

Record t : Type := { config : loc; logger : Logger }.

(** [calculateBackoff]; [u] is the value [rand.Float64()] returns if it
    is called, a float in the interval from 0 to 1. *)
Definition calculateBackoff (baseBackoff : time.Duration) (err : error)
    (u : float64.t) : time.Duration :=
  let retryAfter := extractRetryAfter (Some err) in
  if retryAfter >? 0 then retryAfter
  else
    let jitter :=
      float64.mul (float64.mul (float64.of_int64 baseBackoff) float64.quarter)
                  (float64.sub (float64.mul u float64.two) float64.one) in
    wrap64 (baseBackoff + float64.to_int64 jitter).

(** The statement that grows the backoff at the end of an iteration. *)
Definition nextBackoff (cfg : RateLimitConfig) (backoff : time.Duration) : time.Duration :=
  let backoff :=
    float64.to_int64 (float64.mul (float64.of_int64 backoff) (BackoffMultiplier cfg)) in
  if backoff >? MaxBackoff cfg then MaxBackoff cfg else backoff.

Definition emit {A} (ev : event) (r : option (A * list event)) : option (A * list event) :=
  match r with
  | Some (a, tr) => Some (a, ev :: tr)
  | None => None
  end.

(** The [for] loop of [Execute], from the test of its condition. The
    context is polled twice per iteration: poll [2 * attempt] before the
    attempt and poll [2 * attempt + 1] during the wait that follows it.
    [None] means the fuel ran out before the loop ended. *)
Fixpoint loop (fuel : nat) (cfg : RateLimitConfig) (ctx : context.t) (fn : RetryFunc)
    (rnd : Z -> float64.t) (attempt : Z) (backoff : time.Duration)
    (lastErr : option error) : option (option error * list event) :=
  match fuel with
  | O => None
  | S fuel' =>
      if attempt <=? MaxRetries cfg then
        if context.Done ctx (2 * attempt) then Some (Some (context.Err ctx), [])
        else
          match fn attempt with
          | None => Some (None, [EvCall attempt None])
          | Some err =>
              emit (EvCall attempt (Some err))
                (if negb (isRateLimitError (Some err)) then Some (Some err, [])
                 else if attempt >=? MaxRetries cfg
                 then Some (Some err, [EvLogExhausted (attempt + 1) err])
                 else
                   let waitDuration := calculateBackoff backoff err (rnd attempt) in
                   emit (EvLogWaiting (attempt + 1) (MaxRetries cfg) waitDuration)
                     (if context.Done ctx (2 * attempt + 1)
                      then Some (Some (context.Err ctx), [EvWait backoff waitDuration false])
                      else
                        emit (EvWait backoff waitDuration true)
                          (loop fuel' cfg ctx fn rnd (attempt + 1)
                             (nextBackoff cfg backoff) (Some err))))
          end
      else Some (lastErr, [])
  end.

(** [Execute] on the configuration [cfg] the limiter points to. *)
Definition run (cfg : RateLimitConfig) (ctx : context.t) (fn : RetryFunc)
    (rnd : Z -> float64.t) : option (option error * list event) :=
  loop (S (Z.to_nat (MaxRetries cfg + 1))) cfg ctx fn rnd 0 (InitialBackoff cfg) None.

(** [Execute]: the returned error and the trace. [None] if the limiter's
    configuration pointer is dangling, which Go excludes. *)
Definition Execute (h : heap) (r : t) (ctx : context.t) (fn : RetryFunc)
    (rnd : Z -> float64.t) : option (option error * list event) :=
  match h !! config r with
  | Some cfg => run cfg ctx fn rnd
  | None => None
  end.

End rateLimiter.

(** [newRateLimiter]: the limiter and the heap after the call. A [nil]
    configuration is replaced by a freshly allocated default one; the
    defaults are then written through the pointer. *)
Definition newRateLimiter (config : option loc) (logger : Logger) (h : heap)
    : option (rateLimiter.t * heap) :=
  let '(l, h) :=
    match config with
    | None => let l := fresh (dom h) in (l, <[l := DefaultRateLimitConfig]> h)
    | Some l => (l, h)
    end in
  match h !! l with
  | Some c =>
      Some ({| rateLimiter.config := l; rateLimiter.logger := logger |},
            <[l := applyDefaults c]> h)
  | None => None
  end.

(** The invocations of the operation in a trace, the waits, and the
    nominal backoffs the waits were computed from. *)
Definition calls (tr : list event) : list (option error) :=
  omap (fun ev => match ev with EvCall _ res => Some res | _ => None end) tr.

Definition waits (tr : list event) : list time.Duration :=
  omap (fun ev => match ev with EvWait _ w _ => Some w | _ => None end) tr.

Definition nominalBackoffs (tr : list event) : list time.Duration :=
  omap (fun ev => match ev with EvWait b _ _ => Some b | _ => None end) tr.

(* ===================================================================== *)
(** * types.go: the interfaces of the gateway *)
(* ===================================================================== *)

Definition ProviderType : Type := string.

Definition ProviderOpenAI : ProviderType := "openai".
Definition ProviderAnthropic : ProviderType := "anthropic".
Definition ProviderGoogle : ProviderType := "google".
Definition ProviderPerplexity : ProviderType := "perplexity".
Definition ProviderOllama : ProviderType := "ollama".
Definition ProviderBedrock : ProviderType := "bedrock".

(** The interface [ProviderConfig], as the values of its four methods. *)
Record ProviderConfig : Type := {
  providerType : ProviderType;
  apiKey : string;
  timeout : time.Duration;
  rateLimitConfig : option loc
}.

Module Model.
(** The interface [Model], as the values of its three methods. *)
Record t : Type := {
  ModelName : string;
  Provider : ProviderType;
  SystemPrompt : string
}.
End Model.

Record TokenUsage : Type := {
  PromptTokens : Z;
  CompletionTokens : Z;
  TotalTokens : Z
}.

Module GenerationResponse.
Record t : Type := {
  Text : string;
  Provider : ProviderType;
  Model : string;
  Usage : TokenUsage;
  FinishReason : string;
  Metadata : gmap string string
}.

(** The assignment [resp.Provider = p]. *)
Definition set_Provider (resp : t) (p : ProviderType) : t :=
  {| Text := Text resp; Provider := p; Model := Model resp; Usage := Usage resp;
     FinishReason := FinishReason resp; Metadata := Metadata resp |}.
End GenerationResponse.

Module Provider.
(** The interface [Provider] of an adapter. [Generate] returns a pointer
    to a response ([None] is [nil]) and an error. *)
Record t : Type := {
  Generate : context.t -> Model.t -> string ->
             option GenerationResponse.t * option error;
  Health : context.t -> option error;
  Close : option error
}.
End Provider.

(** What a call returns, or the run-time panic that ends it. *)
Variant result (A : Type) : Type :=
  | Returns (a : A)
  | Panics (msg : string).
Arguments Returns {A} a.
Arguments Panics {A} msg.

Definition nilDereference : string :=
  "runtime error: invalid memory address or nil pointer dereference".

(** A constructor of adapters; the interface value it returns may be
    [nil] ([None]). *)
Definition ProviderFactory : Type :=
  ProviderConfig -> Logger -> option Provider.t * option error.

(** The process-wide table [providerFactories]. *)
Abbreviation registry := (gmap ProviderType ProviderFactory).

Definition RegisterProvider (providerType : ProviderType) (factory : ProviderFactory)
    (providerFactories : registry) : registry :=
  <[providerType := factory]> providerFactories.

(* ===================================================================== *)
(** * gateway.go *)
(* ===================================================================== *)

Module LLMGateway.

Record t : Type := {
  providers : gmap ProviderType (option Provider.t);
  logger : Logger
}.

Definition Generate (g : t) (ctx : context.t) (model : Model.t) (prompt : string)
    : result (option GenerationResponse.t * option error) :=
  let provider := Model.Provider model in
  match providers g !! provider with
  | None =>
      Returns (None, Some (errorString ("provider " ++ provider ++ " is not registered")))
  | Some None => Panics nilDereference
  | Some (Some client) =>
      match Provider.Generate client ctx model prompt with
      | (_, Some err) => Returns (None, Some err)
      | (None, None) => Panics nilDereference
      | (Some resp, None) =>
          Returns (Some (GenerationResponse.set_Provider resp provider), None)
      end
  end.

Definition IsRegistered (g : t) (provider : ProviderType) : bool :=
  match providers g !! provider with
  | Some _ => true
  | None => false
  end.

(** The keys of the map; Go does not fix their order. *)
Definition ListRegisteredProviders (g : t) : list ProviderType :=
  (map_to_list (providers g)).*1.

Definition Health (g : t) (ctx : context.t) (provider : ProviderType)
    : result (option error) :=
  match providers g !! provider with
  | None => Returns (Some (errorString ("provider " ++ provider ++ " is not registered")))
  | Some None => Panics nilDereference
  | Some (Some client) => Returns (Provider.Health client ctx)
  end.

(** The loop of [Close] over the entries of the map: the errors
    collected so far and the trace. *)
Fixpoint closeAll (entries : list (ProviderType * option Provider.t))
    (errors : list error) : result (list error) * list event :=
  match entries with
  | [] => (Returns errors, [])
  | (name, None) :: _ => (Panics nilDereference, [])
  | (name, Some provider) :: rest =>
      let errors :=
        match Provider.Close provider with
        | Some err =>
            (errors ++ [wrapError ("provider " ++ name ++ ": " ++ Error err) err])%list
        | None => errors
        end in
      let '(r, tr) := closeAll rest errors in
      (r, EvClose name :: tr)
  end.

(** How [%v] prints a slice of errors. *)
Definition formatErrors (errors : list error) : string :=
  "[" ++ String.concat " " (map Error errors) ++ "]".

(** [Close]: the gateway after the call, the returned error, and the
    trace. The entries are visited in the order of [map_to_list]; Go does
    not fix the order. *)
Definition Close (g : t) : result (t * option error) * list event :=
  match closeAll (map_to_list (providers g)) [] with
  | (Panics msg, tr) => (Panics msg, tr)
  | (Returns errors, tr) =>
      if 0 <? Z.of_nat (length errors)
      then (Returns (g, Some (errorString
              ("failed to close providers: " ++ formatErrors errors))), tr)
      else (Returns (g, None), tr)
  end.

End LLMGateway.

(** A functional option. *)
Definition Option : Type := LLMGateway.t -> LLMGateway.t.

Definition WithLogger (logger : Logger) : Option :=
  fun g => {| LLMGateway.providers := LLMGateway.providers g;
              LLMGateway.logger := logger |}.

(** The loop of [New] over the configurations: the gateway when every
    configuration was registered, or the error that ended the loop. *)
Fixpoint registerConfigs (providerFactories : registry)
    (configs : list (option ProviderConfig)) (g : LLMGateway.t)
    : (LLMGateway.t + error) * list event :=
  match configs with
  | [] => (inl g, [])
  | None :: rest => registerConfigs providerFactories rest g
  | Some config :: rest =>
      let providerType := providerType config in
      match providerFactories !! providerType with
      | None => (inr (errorString ("unknown provider type: " ++ providerType)), [])
      | Some factory =>
          match factory config (LLMGateway.logger g) with
          | (_, Some err) =>
              (inr (wrapError ("failed to initialize " ++ providerType ++ ": " ++ Error err) err),
               [EvFactory providerType])
          | (client, None) =>
              let g := {| LLMGateway.providers :=
                            <[providerType := client]> (LLMGateway.providers g);
                          LLMGateway.logger := LLMGateway.logger g |} in
              let '(r, tr) := registerConfigs providerFactories rest g in
              (r, EvFactory providerType :: EvLogRegistered providerType :: tr)
          end
      end
  end.

(** [New]: the pair the function returns ([None] is a [nil] gateway, a
    [nil] error) and the trace. *)
Definition New (providerFactories : registry) (configs : list (option ProviderConfig))
    (opts : list Option) : (option LLMGateway.t * option error) * list event :=
  let g := {| LLMGateway.providers := ∅; LLMGateway.logger := NopLogger |} in
  let g := foldl (fun g opt => opt g) g opts in
  match registerConfigs providerFactories configs g with
  | (inr err, tr) => ((None, Some err), tr)
  | (inl g, tr) =>
      if Z.of_nat (size (LLMGateway.providers g)) =? 0
      then ((None, Some (errorString "at least one provider must be configured")), tr)
      else ((Some g, None), tr)
  end.

(** The adapters whose [Close] a trace records. *)
Definition closed (tr : list event) : list ProviderType :=
  omap (fun ev => match ev with EvClose p => Some p | _ => None end) tr.

(* ===================================================================== *)
(** * Auxiliary notions and example values *)
(* ===================================================================== *)

Definition err429 : error := errorString "429 Too Many Requests".
Definition err401 : error := errorString "401 unauthorized: invalid API key".

Definition cfgTriple (n : Z) : RateLimitConfig :=
  {| MaxRetries := n;
     InitialBackoff := 1 * time.Second;
     MaxBackoff := 10 * time.Second;
     BackoffMultiplier := float64.three |}.

(** A limiter whose configuration is the only one in the heap. *)
Definition limiterAt1 : rateLimiter.t :=
  {| rateLimiter.config := 1%positive; rateLimiter.logger := NopLogger |}.

Definition heapOf (cfg : RateLimitConfig) : heap := {[ 1%positive := cfg ]}.

Definition noJitter : Z -> float64.t := fun _ => float64.of_dyadic 1 (-1).

Definition noUsage : TokenUsage :=
  {| PromptTokens := 0; CompletionTokens := 0; TotalTokens := 0 |}.

(** A response in which the adapter itself has filled in a provider. *)
Definition stubResponse : GenerationResponse.t :=
  {| GenerationResponse.Text := "hello";
     GenerationResponse.Provider := "someone-else";
     GenerationResponse.Model := "stub-1";
     GenerationResponse.Usage := noUsage;
     GenerationResponse.FinishReason := "stop";
     GenerationResponse.Metadata := ∅ |}.

Definition stubModel : Model.t :=
  {| Model.ModelName := "stub-1"; Model.Provider := "stub"; Model.SystemPrompt := "" |}.

Definition stubAdapter : Provider.t :=
  {| Provider.Generate := fun _ _ _ => (Some stubResponse, None);
     Provider.Health := fun _ => None;
     Provider.Close := None |}.

(** An adapter that breaks the contract: no response and no error. *)
Definition nilAdapter : Provider.t :=
  {| Provider.Generate := fun _ _ _ => (None, None);
     Provider.Health := fun _ => None;
     Provider.Close := None |}.

Definition gatewayOf (client : Provider.t) : LLMGateway.t :=
  {| LLMGateway.providers := {[ "stub" := Some client ]};
     LLMGateway.logger := NopLogger |}.

Definition stubConfig (name : ProviderType) : ProviderConfig :=
  {| providerType := name; apiKey := "key"; timeout := 60 * time.Second;
     rateLimitConfig := None |}.

Definition failingFactory : ProviderFactory :=
  fun _ _ => (None, Some (errorString "API key is required")).

Definition stubFactory : ProviderFactory :=
  fun _ _ => (Some stubAdapter, None).

(** A configuration with two fields left at their zero value. *)
Definition cfgPartial : RateLimitConfig :=
  {| MaxRetries := 0;
     InitialBackoff := 5 * time.Second;
     MaxBackoff := 0;
     BackoffMultiplier := float64.three |}.

Definition errRetryAfterMs : error :=
  errorString "429 too many requests: retry_after_ms=1500; slow down".

Definition errTwoHints : error :=
  errorString "429 too many requests: retry after 7 seconds (retry_after_ms=1500)".

Definition errFractional : error :=
  errorString "rate limit exceeded: retry after 2.5 seconds".

(** Whether the product that grows the backoff [b] fits an [int64], so
    that its conversion back to a [time.Duration] is defined. *)
Definition productFits (cfg : RateLimitConfig) (b : time.Duration) : bool :=
  float64.fits_int64 (float64.mul (float64.of_int64 b) (BackoffMultiplier cfg)).

(** The backoffs of [len] successive retries, starting from [b]. *)
Fixpoint backoffSchedule (cfg : RateLimitConfig) (b : time.Duration) (len : nat)
    : list time.Duration :=
  match len with
  | O => []
  | S len' => b :: backoffSchedule cfg (rateLimiter.nextBackoff cfg b) len'
  end.

(** A configuration whose initial backoff is above its cap. *)
Definition cfgInverted : RateLimitConfig :=
  {| MaxRetries := 2;
     InitialBackoff := 100 * time.Second;
     MaxBackoff := 10 * time.Second;
     BackoffMultiplier := float64.two |}.

(** A configuration whose constructor is registered and succeeds. *)
Definition constructs (providerFactories : registry) (config : option ProviderConfig) : Prop :=
  match config with
  | None => True
  | Some c =>
      exists factory,
        providerFactories !! providerType c = Some factory
        /\ forall logger, (factory c logger).2 = None
  end.

(** Texts made of digits and points, and texts that end such a run. *)
Fixpoint allNumeric (s : string) : bool :=
  match s with
  | EmptyString => true
  | String c s' => (strconv.is_digit c || strconv.is_dot c) && allNumeric s'
  end.

Definition endsNumber (s : string) : bool :=
  match s with
  | EmptyString => true
  | String c _ => negb (strconv.is_digit c || strconv.is_dot c)
  end.

(* ===================================================================== *)
(** * Further example values *)
(* ===================================================================== *)

(** An operation that fails twice with a transient error, then succeeds. *)
Definition fnFailsTwice : RetryFunc :=
  fun attempt => if attempt <? 2 then Some err429 else None.

(** A context that is cancelled from its [p]-th poll on. *)
Definition ctxCancelledAt (p : Z) : context.t :=
  {| context.Done := fun i => p <=? i; context.Err := Canceled |}.

(** [http.StatusTooManyRequests]. *)
Definition StatusTooManyRequests : Z := 429.

(** The method [IsRateLimited] of an [HTTPStatusError] with the given
    status code. *)
Definition IsRateLimited (StatusCode : Z) : bool := StatusCode =? StatusTooManyRequests.

Definition errOverloaded : error :=
  errorString "HTTP 529: Service OVERLOADED, try again later".

(** The provider identifiers of the non-null configurations, in order. *)
Definition configuredProviders (configs : list (option ProviderConfig)) : list ProviderType :=
  omap (fun config => providerType <$> config) configs.

(** The providers whose constructor a trace records as called. *)
Definition factoryCalls (tr : list event) : list ProviderType :=
  omap (fun ev => match ev with EvFactory p => Some p | _ => None end) tr.

(** The errors [Close] collects from the entries of the map. *)
Definition closeFailures (entries : list (ProviderType * option Provider.t)) : list error :=
  omap (fun entry =>
          match entry with
          | (name, Some provider) =>
              match Provider.Close provider with
              | Some err => Some (wrapError ("provider " ++ name ++ ": " ++ Error err) err)
              | None => None
              end
          | (_, None) => None
          end) entries.

(** An adapter whose [Close] fails. *)
Definition stuckAdapter : Provider.t :=
  {| Provider.Generate := fun _ _ _ => (None, Some (errorString "connection lost"));
     Provider.Health := fun _ => Some (errorString "connection lost");
     Provider.Close := Some (errorString "socket busy") |}.

(** [truncateString] of gateway.go. The slice expression [s[:maxLen]]
    panics when [maxLen] is negative. *)
Definition truncateString (s : string) (maxLen : Z) : result string :=
  if strings.len s <=? maxLen then Returns s
  else if maxLen <? 0 then Panics "runtime error: slice bounds out of range"
       else Returns (strings.slice s 0 maxLen ++ "...").

(** [defaultTimeout] of gateway.go. *)
Definition defaultTimeout : time.Duration := 60 * time.Second.


(** Texts made of decimal digits only, and the number such a text
    denotes. *)
Fixpoint allDigits (s : string) : bool :=
  match s with
  | EmptyString => true
  | String c s' => strconv.is_digit c && allDigits s'
  end.

Definition decimalValue (s : string) : Z :=
  fold_left (fun acc c => 10 * acc + strconv.digit_val c) (list_ascii_of_string s) 0.

(** The unit [extractRetryAfter] applies to the number found after
    [pattern]. *)
Definition hintUnit (pattern : string) : time.Duration :=
  if strings.Contains pattern "ms" then time.Millisecond else time.Second.

(* ===================================================================== *)
(** * The OpenAI adapter (gateway.go) *)
(* ===================================================================== *)

From stdpp Require pretty.

Module openai.
(** The parts of the SDK's types the adapter writes and reads. An
    optional request parameter that is left unset is [None]. *)

Variant role : Type := system | developer | user.

Record ChatCompletionMessageParamUnion : Type := { Role : role; Content : string }.

Definition SystemMessage (content : string) : ChatCompletionMessageParamUnion :=
  {| Role := system; Content := content |}.
Definition DeveloperMessage (content : string) : ChatCompletionMessageParamUnion :=
  {| Role := developer; Content := content |}.
Definition UserMessage (content : string) : ChatCompletionMessageParamUnion :=
  {| Role := user; Content := content |}.

Record ChatCompletionNewParams : Type := {
  Model : string;
  Messages : list ChatCompletionMessageParamUnion;
  MaxTokens : option Z;
  Temperature : option float64.t;
  TopP : option float64.t;
  MaxCompletionTokens : option Z;
  ReasoningEffort : option string
}.

Definition set_MaxTokens (p : ChatCompletionNewParams) (v : Z) : ChatCompletionNewParams :=
  {| Model := Model p; Messages := Messages p; MaxTokens := Some v;
     Temperature := Temperature p; TopP := TopP p;
     MaxCompletionTokens := MaxCompletionTokens p; ReasoningEffort := ReasoningEffort p |}.
Definition set_Temperature (p : ChatCompletionNewParams) (v : float64.t)
    : ChatCompletionNewParams :=
  {| Model := Model p; Messages := Messages p; MaxTokens := MaxTokens p;
     Temperature := Some v; TopP := TopP p;
     MaxCompletionTokens := MaxCompletionTokens p; ReasoningEffort := ReasoningEffort p |}.
Definition set_TopP (p : ChatCompletionNewParams) (v : float64.t) : ChatCompletionNewParams :=
  {| Model := Model p; Messages := Messages p; MaxTokens := MaxTokens p;
     Temperature := Temperature p; TopP := Some v;
     MaxCompletionTokens := MaxCompletionTokens p; ReasoningEffort := ReasoningEffort p |}.
Definition set_MaxCompletionTokens (p : ChatCompletionNewParams) (v : Z)
    : ChatCompletionNewParams :=
  {| Model := Model p; Messages := Messages p; MaxTokens := MaxTokens p;
     Temperature := Temperature p; TopP := TopP p;
     MaxCompletionTokens := Some v; ReasoningEffort := ReasoningEffort p |}.
Definition set_ReasoningEffort (p : ChatCompletionNewParams) (v : string)
    : ChatCompletionNewParams :=
  {| Model := Model p; Messages := Messages p; MaxTokens := MaxTokens p;
     Temperature := Temperature p; TopP := TopP p;
     MaxCompletionTokens := MaxCompletionTokens p; ReasoningEffort := Some v |}.

(** A choice of a completion: [Message.Content] and [FinishReason]. *)
Record ChatCompletionChoice : Type := { MessageContent : string; FinishReason : string }.

(** [ReasoningTokens] is [Usage.CompletionTokensDetails.ReasoningTokens]. *)
Record CompletionUsage : Type := {
  PromptTokens : Z;
  CompletionTokens : Z;
  TotalTokens : Z;
  ReasoningTokens : Z
}.

Record ChatCompletion : Type := {
  ResponseModel : string;
  Choices : list ChatCompletionChoice;
  Usage : CompletionUsage
}.

(** The options a client is made with; the client is known by them. *)
Variant RequestOption : Type :=
  | WithAPIKey (key : string)
  | WithBaseURL (url : string).

Definition Client : Type := list RequestOption.
Definition NewClient (opts : list RequestOption) : Client := opts.

End openai.

Module OpenAIConfig.
Record t : Type := {
  APIKey : string;
  Timeout : time.Duration;
  RateLimiter : option loc;
  BaseURL : string
}.
End OpenAIConfig.

Module openAIStandardOptions.
Record t : Type := {
  modelVersion : string;
  maxTokens : Z;
  temperature : float64.t;
  topP : float64.t;
  systemPrompt : string
}.
End openAIStandardOptions.

Module openAIReasoningOptions.
Record t : Type := {
  modelVersion : string;
  maxCompletionTokens : Z;
  reasoningEffort : string;
  systemPrompt : string
}.
End openAIReasoningOptions.

(** The model types of the adapter: the eight types that embed
    [openAIStandardOptions] and the eighteen that embed
    [openAIReasoningOptions]. *)
Variant openAIStandardType : Type :=
  | GPT4o | GPT4oMini | GPT4Turbo | GPT4 | GPT41 | GPT41Mini | GPT41Nano | GPT35Turbo.

Variant openAIReasoningType : Type :=
  | O1 | O1Mini | O1Pro | O3 | O3Mini | O4Mini
  | GPT5 | GPT5Mini | GPT5Nano | GPT5Pro | GPT5Turbo
  | GPT51 | GPT51Mini | GPT51Nano | GPT51Codex | GPT51CodexMini
  | O3Pro | O1Preview.

(** A value of the interface [Model] as the adapter sees it, with its
    dynamic type: one of the adapter's own model types, or a value of any
    other type, known by its three methods. *)
Variant openAIModelValue : Type :=
  | standardModel (ty : openAIStandardType) (m : openAIStandardOptions.t)
  | reasoningModel (ty : openAIReasoningType) (m : openAIReasoningOptions.t)
  | otherModel (m : Model.t).

Module OpenAIModel.

(** The name each [ModelName] method returns when no version is set,
    and whether the method looks at [modelVersion] at all. *)
Definition standardName (ty : openAIStandardType) : string :=
  match ty with
  | GPT4o => "gpt-4o" | GPT4oMini => "gpt-4o-mini" | GPT4Turbo => "gpt-4-turbo"
  | GPT4 => "gpt-4" | GPT41 => "gpt-4.1" | GPT41Mini => "gpt-4.1-mini"
  | GPT41Nano => "gpt-4.1-nano" | GPT35Turbo => "gpt-3.5-turbo"
  end.

Definition standardVersioned (ty : openAIStandardType) : bool :=
  match ty with
  | GPT41Mini | GPT41Nano => false
  | _ => true
  end.

Definition reasoningName (ty : openAIReasoningType) : string :=
  match ty with
  | O1 => "o1" | O1Mini => "o1-mini" | O1Pro => "o1-pro" | O3 => "o3"
  | O3Mini => "o3-mini" | O4Mini => "o4-mini"
  | GPT5 => "gpt-5" | GPT5Mini => "gpt-5-mini" | GPT5Nano => "gpt-5-nano"
  | GPT5Pro => "gpt-5-pro" | GPT5Turbo => "gpt-5-turbo"
  | GPT51 => "gpt-5.1" | GPT51Mini => "gpt-5.1-mini" | GPT51Nano => "gpt-5.1-nano"
  | GPT51Codex => "gpt-5.1-codex" | GPT51CodexMini => "gpt-5.1-codex-mini"
  | O3Pro => "o3-pro" | O1Preview => "o1-preview"
  end.

Definition reasoningVersioned (ty : openAIReasoningType) : bool :=
  match ty with
  | O1 | O1Mini | O1Pro | O3 | O3Mini | O4Mini | O1Preview => true
  | _ => false
  end.

Definition ModelName (model : openAIModelValue) : string :=
  match model with
  | standardModel ty m =>
      if standardVersioned ty && negb (String.eqb (openAIStandardOptions.modelVersion m) "")
      then openAIStandardOptions.modelVersion m
      else standardName ty
  | reasoningModel ty m =>
      if reasoningVersioned ty && negb (String.eqb (openAIReasoningOptions.modelVersion m) "")
      then openAIReasoningOptions.modelVersion m
      else reasoningName ty
  | otherModel m => Model.ModelName m
  end.

Definition Provider (model : openAIModelValue) : ProviderType :=
  match model with
  | standardModel _ _ | reasoningModel _ _ => ProviderOpenAI
  | otherModel m => Model.Provider m
  end.

Definition SystemPrompt (model : openAIModelValue) : string :=
  match model with
  | standardModel _ m => openAIStandardOptions.systemPrompt m
  | reasoningModel _ m => openAIReasoningOptions.systemPrompt m
  | otherModel m => Model.SystemPrompt m
  end.

(** The type assertion [model.(openAIReasoningModel)]: the method
    [isReasoning] is not exported and only the reasoning types have it. *)
Definition isReasoning (model : openAIModelValue) : bool :=
  match model with
  | reasoningModel _ _ => true
  | _ => false
  end.

(** The constructors [NewGPT4o], ..., [NewO1Preview]. *)
Definition NewStandard (ty : openAIStandardType) : openAIModelValue :=
  standardModel ty
    {| openAIStandardOptions.modelVersion := "";
       openAIStandardOptions.maxTokens := 4096;
       openAIStandardOptions.temperature := float64.one;
       openAIStandardOptions.topP := float64.zero;
       openAIStandardOptions.systemPrompt := "" |}.

Definition NewReasoning (ty : openAIReasoningType) : openAIModelValue :=
  reasoningModel ty
    {| openAIReasoningOptions.modelVersion := "";
       openAIReasoningOptions.maxCompletionTokens :=
         match ty with
         | O1Pro | O3 | GPT5 | GPT5Pro | GPT5Turbo | GPT51 | GPT51Codex | O3Pro | O1Preview => 8192
         | _ => 4096
         end;
       openAIReasoningOptions.reasoningEffort :=
         match ty with
         | O1Pro | GPT5Pro | O3Pro => "high"
         | _ => "medium"
         end;
       openAIReasoningOptions.systemPrompt := "" |}.

End OpenAIModel.

(** What the adapter does not decide: the answer of
    [c.client.Chat.Completions.New] to the call made at a given attempt,
    the context [context.WithTimeout] derives, and the draws of the
    jitter. *)
Record openAIWorld : Type := {
  CompletionsNew : Z -> context.t -> openai.ChatCompletionNewParams ->
                   option openai.ChatCompletion * option error;
  WithTimeout : context.t -> time.Duration -> context.t;
  Float64 : Z -> float64.t
}.

Module openAIClient.

Record t : Type := {
  client : openai.Client;
  timeout : time.Duration;
  logger : Logger;
  rateLimiter : rateLimiter.t
}.

(** The messages [Generate] builds. *)
Definition messages (model : openAIModelValue) (prompt : string)
    : list openai.ChatCompletionMessageParamUnion :=
  let messages := [] in
  let messages :=
    if negb (String.eqb (OpenAIModel.SystemPrompt model) "") then
      if OpenAIModel.isReasoning model
      then (messages ++ [openai.DeveloperMessage (OpenAIModel.SystemPrompt model)])%list
      else (messages ++ [openai.SystemMessage (OpenAIModel.SystemPrompt model)])%list
    else messages in
  (messages ++ [openai.UserMessage prompt])%list.

(** The request parameters [Generate] builds: the struct literal and
    then the type switch, whose cases are alike for the standard types
    and alike for the reasoning types. *)
Definition requestParams (model : openAIModelValue) (prompt : string)
    : openai.ChatCompletionNewParams :=
  let params :=
    {| openai.Model := OpenAIModel.ModelName model;
       openai.Messages := messages model prompt;
       openai.MaxTokens := None; openai.Temperature := None; openai.TopP := None;
       openai.MaxCompletionTokens := None; openai.ReasoningEffort := None |} in
  match model with
  | standardModel _ m =>
      let params :=
        if openAIStandardOptions.maxTokens m >? 0
        then openai.set_MaxTokens params (openAIStandardOptions.maxTokens m) else params in
      let params :=
        if float64.ltb float64.zero (openAIStandardOptions.temperature m)
        then openai.set_Temperature params (openAIStandardOptions.temperature m)
        else params in
      if float64.ltb float64.zero (openAIStandardOptions.topP m)
      then openai.set_TopP params (openAIStandardOptions.topP m) else params
  | reasoningModel _ m =>
      let params :=
        if openAIReasoningOptions.maxCompletionTokens m >? 0
        then openai.set_MaxCompletionTokens params (openAIReasoningOptions.maxCompletionTokens m)
        else params in
      if negb (String.eqb (openAIReasoningOptions.reasoningEffort m) "")
      then openai.set_ReasoningEffort params (openAIReasoningOptions.reasoningEffort m)
      else params
  | otherModel _ => params
  end.

(** The attempt of the last invocation in a trace of [Execute]. *)
Definition lastCall (tr : list event) : option Z :=
  last (omap (fun ev => match ev with EvCall attempt _ => Some attempt | _ => None end) tr).

(** The response [Generate] builds from a completion and its first
    choice. The field [Provider] is left at its zero value. *)
Definition response (model : openAIModelValue) (resp : openai.ChatCompletion)
    (choice : openai.ChatCompletionChoice) : GenerationResponse.t :=
  let metadata : gmap string string :=
    <["is_reasoning_model" := if OpenAIModel.isReasoning model then "true" else "false"]>
      (<["model" := openai.ResponseModel resp]> (<["provider" := "openai"]> ∅)) in
  let metadata :=
    if openai.ReasoningTokens (openai.Usage resp) >? 0
    then <["reasoning_tokens" := pretty.pretty_Z (openai.ReasoningTokens (openai.Usage resp))]>
           metadata
    else metadata in
  {| GenerationResponse.Text := openai.MessageContent choice;
     GenerationResponse.Provider := "";
     GenerationResponse.Model := openai.ResponseModel resp;
     GenerationResponse.Usage :=
       {| PromptTokens := openai.PromptTokens (openai.Usage resp);
          CompletionTokens := openai.CompletionTokens (openai.Usage resp);
          TotalTokens := openai.TotalTokens (openai.Usage resp) |};
     GenerationResponse.FinishReason := openai.FinishReason choice;
     GenerationResponse.Metadata := metadata |}.

(** [Generate] of the adapter: what it returns, or the panic that ends
    it, and the trace of [Execute]. The variable [resp] of the source
    holds what the last invocation of the closure assigned to it, and
    [nil] before the first one. The log lines of the adapter itself have
    no effect on the result and are left out. *)
Definition Generate (h : heap) (c : t) (w : openAIWorld) (ctx : context.t)
    (model : openAIModelValue) (prompt : string)
    : option (result (option GenerationResponse.t * option error) * list event) :=
  if negb (String.eqb (OpenAIModel.Provider model) ProviderOpenAI) then
    Some (Returns (None, Some (errorString ("model " ++ OpenAIModel.ModelName model
                                              ++ " is not an OpenAI model"))), [])
  else
    let ctx := WithTimeout w ctx (timeout c) in
    let params := requestParams model prompt in
    match rateLimiter.Execute h (rateLimiter c) ctx
            (fun attempt => snd (CompletionsNew w attempt ctx params)) (Float64 w) with
    | None => None
    | Some (Some err, tr) =>
        Some (Returns (None, Some (wrapError ("OpenAI generation failed: " ++ Error err) err)),
              tr)
    | Some (None, tr) =>
        let resp :=
          match lastCall tr with
          | Some attempt => fst (CompletionsNew w attempt ctx params)
          | None => None
          end in
        match resp with
        | None => Some (Panics nilDereference, tr)
        | Some resp =>
            match openai.Choices resp with
            | [] =>
                Some (Returns (None, Some (errorString
                                             "no response choices returned from OpenAI")), tr)
            | choice :: _ => Some (Returns (Some (response model resp choice), None), tr)
            end
        end
    end.

End openAIClient.

(** [newOpenAIClient]: the client or the error, and the heap after the
    call; [None] if the configuration pointer is dangling. *)
Definition newOpenAIClient (config : OpenAIConfig.t) (logger : Logger) (h : heap)
    : option (option openAIClient.t * option error * heap) :=
  if String.eqb (OpenAIConfig.APIKey config) "" then
    Some (None, Some (errorString "OpenAI API key is required"), h)
  else
    let opts := [openai.WithAPIKey (OpenAIConfig.APIKey config)] in
    let opts :=
      if negb (String.eqb (OpenAIConfig.BaseURL config) "")
      then (opts ++ [openai.WithBaseURL (OpenAIConfig.BaseURL config)])%list
      else opts in
    let client := openai.NewClient opts in
    let timeout := OpenAIConfig.Timeout config in
    let timeout := if timeout =? 0 then defaultTimeout else timeout in
    match newRateLimiter (OpenAIConfig.RateLimiter config) logger h with
    | Some (limiter, h') =>
        Some (Some {| openAIClient.client := client;
                      openAIClient.timeout := timeout;
                      openAIClient.logger := logger;
                      openAIClient.rateLimiter := limiter |}, None, h')
    | None => None
    end.

(** Examples. *)
Definition openAIKeyed : OpenAIConfig.t :=
  {| OpenAIConfig.APIKey := "sk-test"; OpenAIConfig.Timeout := 0;
     OpenAIConfig.RateLimiter := Some 1%positive; OpenAIConfig.BaseURL := "" |}.

Definition cfgNoRetry : RateLimitConfig :=
  {| MaxRetries := -1; InitialBackoff := 1 * time.Second;
     MaxBackoff := 10 * time.Second; BackoffMultiplier := float64.two |}.

Definition stubClient : openAIClient.t :=
  {| openAIClient.client := openai.NewClient [openai.WithAPIKey "sk-test"];
     openAIClient.timeout := defaultTimeout;
     openAIClient.logger := NopLogger;
     openAIClient.rateLimiter := limiterAt1 |}.

Definition stubCompletion : openai.ChatCompletion :=
  {| openai.ResponseModel := "gpt-4o-2024-08-06";
     openai.Choices := [{| openai.MessageContent := "hello";
                           openai.FinishReason := "stop" |}];
     openai.Usage := {| openai.PromptTokens := 3; openai.CompletionTokens := 1;
                        openai.TotalTokens := 4; openai.ReasoningTokens := 0 |} |}.

(** A world in which the API is rate limited twice and then answers,
    and one in which it rejects the key. *)
Definition worldBusyTwice : openAIWorld :=
  {| CompletionsNew := fun attempt _ _ =>
       if attempt <? 2 then (None, Some err429) else (Some stubCompletion, None);
     WithTimeout := fun ctx _ => ctx;
     Float64 := noJitter |}.

Definition worldUnauthorized : openAIWorld :=
  {| CompletionsNew := fun _ _ _ => (None, Some err401);
     WithTimeout := fun ctx _ => ctx;
     Float64 := noJitter |}.

Definition claudeModel : openAIModelValue :=
  otherModel {| Model.ModelName := "claude-sonnet-4"; Model.Provider := ProviderAnthropic;
                Model.SystemPrompt := "" |}.

(* ===================================================================== *)
(** * The jitter of calculateBackoff *)
(* ===================================================================== *)

(** The values [rand.Float64] returns, the quotients [float64(n) / 2^63]
    that are not one: zero, or a float from [2^-63] up to, but not
    including, one, which has a full mantissa and an exponent from -115
    to -53. *)
Definition unitDraw (u : float64.t) : bool :=
  match u with
  | S754_zero _ => true
  | S754_finite false m e => (Z.pos (digits2_pos m) =? 53) && (-115 <=? e) && (e <=? -53)
  | _ => false
  end.

(** A float of magnitude at most one that is zero or normal. *)
Definition atMostOne (x : float64.t) : Prop :=
  match x with
  | S754_zero _ => True
  | S754_finite _ mX eX =>
      Z.pos (digits2_pos mX) = 53 /\ -200 <= eX <= -52 /\ Z.pos mX <= 2 ^ (- eX)
  | _ => False
  end.
(* ===================================================================== *)
(** * The retry controller: Execute *)
(* ===================================================================== *)

Section Execute.

Import rateLimiter.

Variables (cfg : RateLimitConfig) (ctx : context.t) (fn : RetryFunc)
          (rnd : Z -> float64.t).

Lemma calls_emit_call (a : Z) (res : option error) (tr : list event) :
  calls (EvCall a res :: tr) = res :: calls tr.
Proof. reflexivity. Qed.

Lemma calls_emit_waiting (a m : Z) (w : time.Duration) (tr : list event) :
  calls (EvLogWaiting a m w :: tr) = calls tr.
Proof. reflexivity. Qed.

Lemma calls_emit_wait (b w : time.Duration) (el : bool) (tr : list event) :
  calls (EvWait b w el :: tr) = calls tr.
Proof. reflexivity. Qed.

Lemma emit_Some {A} (ev : event) (r : option (A * list event)) (a : A) (tr : list event) :
  emit ev r = Some (a, tr) -> exists tr', r = Some (a, tr') /\ tr = ev :: tr'.
Proof.
  destruct r as [[a' tr']|]; simpl; [|discriminate].
  intros [= -> <-]. eauto.
Qed.

Lemma loop_S (fuel : nat) (attempt : Z) (backoff : time.Duration)
    (lastErr : option error) :
  loop (S fuel) cfg ctx fn rnd attempt backoff lastErr =
    if attempt <=? MaxRetries cfg then
      if context.Done ctx (2 * attempt) then Some (Some (context.Err ctx), [])
      else
        match fn attempt with
        | None => Some (None, [EvCall attempt None])
        | Some err =>
            emit (EvCall attempt (Some err))
              (if negb (isRateLimitError (Some err)) then Some (Some err, [])
               else if attempt >=? MaxRetries cfg
               then Some (Some err, [EvLogExhausted (attempt + 1) err])
               else
                 let waitDuration := calculateBackoff backoff err (rnd attempt) in
                 emit (EvLogWaiting (attempt + 1) (MaxRetries cfg) waitDuration)
                   (if context.Done ctx (2 * attempt + 1)
                    then Some (Some (context.Err ctx), [EvWait backoff waitDuration false])
                    else
                      emit (EvWait backoff waitDuration true)
                        (loop fuel cfg ctx fn rnd (attempt + 1)
                           (nextBackoff cfg backoff) (Some err))))
        end
    else Some (lastErr, []).
Proof. reflexivity. Qed.

(** The loop ends within [MaxRetries - attempt + 1] iterations, so the
    fuel [Execute] starts it with is never used up. *)
Lemma loop_returns (fuel : nat) :
  forall attempt backoff lastErr,
    (Z.to_nat (MaxRetries cfg - attempt + 1) < fuel)%nat ->
    is_Some (loop fuel cfg ctx fn rnd attempt backoff lastErr).
Proof.
  induction fuel as [|fuel IH]; intros attempt backoff lastErr Hfuel; [lia|].
  rewrite loop_S. destruct (Z.leb_spec attempt (MaxRetries cfg)); [|eauto].
  destruct (context.Done ctx (2 * attempt)); [eauto|].
  destruct (fn attempt) as [err|]; [|eauto].
  destruct (isRateLimitError (Some err)); cbn [negb emit]; [|eauto].
  destruct (Z.geb_spec attempt (MaxRetries cfg)); cbn [emit]; [eauto|].
  destruct (context.Done ctx (2 * attempt + 1)); cbn [emit]; [eauto|].
  destruct (IH (attempt + 1) (nextBackoff cfg backoff) (Some err)) as [[ret tr] ->];
    [lia|]. cbn [emit]. eauto.
Qed.

Lemma run_returns : is_Some (run cfg ctx fn rnd).
Proof. apply loop_returns. lia. Qed.

(** When the operation keeps failing with transient errors and the
    context stays open, the loop runs every remaining attempt. *)
Lemma loop_all_transient (fuel : nat) :
  (forall k, exists e, fn k = Some e /\ isRateLimitError (Some e) = true) ->
  (forall i, context.Done ctx i = false) ->
  forall attempt backoff lastErr,
    attempt <= MaxRetries cfg ->
    (Z.to_nat (MaxRetries cfg - attempt + 1) < fuel)%nat ->
    exists tr,
      loop fuel cfg ctx fn rnd attempt backoff lastErr = Some (fn (MaxRetries cfg), tr)
      /\ calls tr = fn <$> seqZ attempt (MaxRetries cfg - attempt + 1).
Proof.
  intros Hfn Hctx.
  induction fuel as [|fuel IH]; intros attempt backoff lastErr Hle Hfuel; [lia|].
  rewrite loop_S. destruct (Z.leb_spec attempt (MaxRetries cfg)); [|lia].
  rewrite !Hctx. destruct (Hfn attempt) as [err [Herr Htr]].
  rewrite Herr, Htr. cbn [negb emit].
  destruct (Z.geb_spec attempt (MaxRetries cfg)); cbn [emit].
  - assert (attempt = MaxRetries cfg) as Heq by lia. rewrite <- Heq, Herr.
    eexists; split; [reflexivity|].
    replace (attempt - attempt + 1) with 1 by lia.
    rewrite calls_emit_call, seqZ_cons, seqZ_nil by lia. cbn. by rewrite Herr.
  - destruct (IH (attempt + 1) (nextBackoff cfg backoff) (Some err)) as [tr [-> Hcalls]];
      [lia|lia|].
    cbn [emit]. eexists; split; [reflexivity|].
    rewrite calls_emit_call, calls_emit_waiting, calls_emit_wait, Hcalls.
    rewrite (seqZ_cons attempt (MaxRetries cfg - attempt + 1)) by lia.
    rewrite fmap_cons, Herr. do 3 f_equal; lia.
Qed.

(** A run whose first invocation returns an error that is not transient
    consists of that invocation alone. *)
Lemma loop_permanent (fuel : nat) (attempt : Z) (backoff : time.Duration)
    (lastErr ret : option error) (tr : list event) (e : error) :
  loop fuel cfg ctx fn rnd attempt backoff lastErr = Some (ret, tr) ->
  head (calls tr) = Some (Some e) ->
  isRateLimitError (Some e) = false ->
  tr = [EvCall attempt (Some e)] /\ ret = Some e.
Proof.
  destruct fuel as [|fuel]; [discriminate|]. rewrite loop_S.
  destruct (attempt <=? MaxRetries cfg); [|by intros [= <- <-]].
  destruct (context.Done ctx (2 * attempt)); [by intros [= <- <-]|].
  destruct (fn attempt) as [err|]; [|by intros [= <- <-]].
  intros Hrun Hhd Hperm.
  apply emit_Some in Hrun as [tr' [Hrun ->]].
  rewrite calls_emit_call in Hhd. injection Hhd as ->.
  rewrite Hperm in Hrun. simpl in Hrun. by injection Hrun as <- <-.
Qed.

End Execute.

(** C1 (as amended). For a configuration whose effective [MaxRetries] is
    not negative, an operation whose every invocation returns an error
    classified as transient, and a context that is never cancelled,
    [Execute] invokes the operation exactly [MaxRetries + 1] times, at the
    attempts [0 .. MaxRetries], and returns the error of the last
    invocation. *)
Theorem Execute_transient_exhausts_retries (h : heap) (r : rateLimiter.t)
    (cfg : RateLimitConfig) (ctx : context.t) (fn : RetryFunc) (rnd : Z -> float64.t) :
  h !! rateLimiter.config r = Some cfg ->
  0 <= MaxRetries cfg ->
  (forall k, exists e, fn k = Some e /\ isRateLimitError (Some e) = true) ->
  (forall i, context.Done ctx i = false) ->
  exists tr,
    rateLimiter.Execute h r ctx fn rnd = Some (fn (MaxRetries cfg), tr)
    /\ Z.of_nat (length (calls tr)) = MaxRetries cfg + 1
    /\ calls tr = fn <$> seqZ 0 (MaxRetries cfg + 1)
    /\ last (calls tr) = Some (fn (MaxRetries cfg)).
Proof.
  intros Hcfg Hmax Hfn Hctx. unfold rateLimiter.Execute, rateLimiter.run. rewrite Hcfg.
  destruct (loop_all_transient cfg ctx fn rnd (S (Z.to_nat (MaxRetries cfg + 1)))
              Hfn Hctx 0 (InitialBackoff cfg) None) as [tr [Hrun Hcalls]]; [lia|lia|].
  replace (MaxRetries cfg - 0 + 1) with (MaxRetries cfg + 1) in Hcalls by lia.
  exists tr. rewrite Hrun, Hcalls. split; [reflexivity|].
  split; [rewrite length_fmap, length_seqZ; lia|]. split; [reflexivity|].
  rewrite seqZ_app by lia. rewrite (seqZ_cons _ 1), (seqZ_nil _ (Z.pred 1)) by lia.
  rewrite fmap_app, fmap_cons, fmap_nil, last_snoc. reflexivity.
Qed.

Lemma Execute_transient_exhausts_retries_witness :
  exists tr,
    rateLimiter.Execute (heapOf (cfgTriple 5)) limiterAt1 context.Background
      (fun _ => Some err429) noJitter = Some (Some err429, tr)
    /\ Z.of_nat (length (calls tr)) = 6
    /\ calls tr = (fun _ : Z => Some err429) <$> seqZ 0 6
    /\ last (calls tr) = Some (Some err429).
Proof.
  apply (Execute_transient_exhausts_retries (heapOf (cfgTriple 5)) limiterAt1
           (cfgTriple 5) context.Background (fun _ => Some err429) noJitter).
  - reflexivity.
  - simpl. lia.
  - intros k. exists err429. split; reflexivity.
  - intros i. reflexivity.
Defined.

(** C1 as stated does not hold for every configuration: with
    [MaxRetries = -2], which the defaulting leaves as it is, the loop body
    is never entered. The operation, although it would fail with a
    transient error, is invoked zero times where the claim demands
    [MaxRetries + 1], and [Execute] returns [nil] rather than an error. *)
Lemma Execute_negative_MaxRetries_never_invokes :
  applyDefaults (cfgTriple (-2)) = cfgTriple (-2)
  /\ isRateLimitError (Some err429) = true
  /\ rateLimiter.Execute (heapOf (cfgTriple (-2))) limiterAt1 context.Background
       (fun _ => Some err429) noJitter = Some (None, []).
Proof. split; [|split]; reflexivity. Qed.

(** C2 (as amended). When [MaxRetries] is not negative, the context is
    not cancelled at the check that precedes the first attempt, and the
    first invocation of the operation returns an error that does not
    classify as transient, [Execute] invokes the operation exactly once,
    performs no wait, and returns the very error the operation returned. *)
Theorem Execute_permanent_error_once (h : heap) (r : rateLimiter.t)
    (cfg : RateLimitConfig) (ctx : context.t) (fn : RetryFunc) (rnd : Z -> float64.t)
    (e : error) :
  h !! rateLimiter.config r = Some cfg ->
  0 <= MaxRetries cfg ->
  context.Done ctx 0 = false ->
  fn 0 = Some e ->
  isRateLimitError (Some e) = false ->
  exists tr,
    rateLimiter.Execute h r ctx fn rnd = Some (Some e, tr)
    /\ tr = [EvCall 0 (Some e)]
    /\ calls tr = [Some e]
    /\ waits tr = [].
Proof.
  intros Hcfg Hmax Hopen Hfn Hperm. exists [EvCall 0 (Some e)].
  split; [|repeat split].
  unfold rateLimiter.Execute, rateLimiter.run. rewrite Hcfg, loop_S.
  destruct (Z.leb_spec 0 (MaxRetries cfg)); [|lia].
  change (2 * 0) with 0. rewrite Hopen, Hfn, Hperm. reflexivity.
Qed.

Lemma Execute_permanent_error_once_witness :
  exists tr,
    rateLimiter.Execute (heapOf (cfgTriple 5)) limiterAt1 context.Background
      (fun _ => Some err401) noJitter = Some (Some err401, tr)
    /\ tr = [EvCall 0 (Some err401)]
    /\ calls tr = [Some err401]
    /\ waits tr = [].
Proof.
  apply (Execute_permanent_error_once (heapOf (cfgTriple 5)) limiterAt1 (cfgTriple 5)
           context.Background (fun _ => Some err401) noJitter err401).
  - reflexivity.
  - cbn. lia.
  - reflexivity.
  - reflexivity.
  - reflexivity.
Defined.

(** C2 as stated fails: the operation need not be invoked at all. Its
    first invocation would return an error that is not transient, but with
    [MaxRetries = -2] (which the defaulting leaves as it is) the loop is
    never entered and [Execute] returns [nil]; and with a context that is
    already cancelled [Execute] returns the error of the context. In both
    runs the operation is invoked zero times and its error is not
    returned. *)
Lemma Execute_permanent_error_never_invoked :
  isRateLimitError (Some err401) = false
  /\ applyDefaults (cfgTriple (-2)) = cfgTriple (-2)
  /\ rateLimiter.Execute (heapOf (cfgTriple (-2))) limiterAt1 context.Background
       (fun _ => Some err401) noJitter = Some (None, [])
  /\ rateLimiter.Execute (heapOf (cfgTriple 5)) limiterAt1 (ctxCancelledAt 0)
       (fun _ => Some err401) noJitter = Some (Some Canceled, []).
Proof. repeat split. Qed.

(** The run of the witness: its first invocation returns an error that is
    not transient, and it is the only event. *)
Example Execute_permanent_error_run :
  isRateLimitError (Some err401) = false
  /\ rateLimiter.Execute (heapOf (cfgTriple 5)) limiterAt1 context.Background
       (fun _ => Some err401) noJitter = Some (Some err401, [EvCall 0 (Some err401)]).
Proof. split; reflexivity. Qed.

(* ===================================================================== *)
(** * The gateway *)
(* ===================================================================== *)

Section Generate.

Import LLMGateway.

Variables (g : LLMGateway.t) (ctx : context.t) (model : Model.t) (prompt : string).

(** Whatever [Generate] returns next to a response, the response names
    the provider of the model and the error is [nil]. *)
Lemma Generate_response_provider (resp : GenerationResponse.t) (err : option error) :
  Generate g ctx model prompt = Returns (Some resp, err) ->
  GenerationResponse.Provider resp = Model.Provider model /\ err = None.
Proof.
  unfold Generate.
  destruct (providers g !! Model.Provider model) as [[client|]|]; try discriminate.
  destruct (Provider.Generate client ctx model prompt) as [[resp'|] [err'|]];
    try discriminate.
  intros [= <- <-]. split; reflexivity.
Qed.

End Generate.

(** C3. When the provider of the model is registered in the gateway and
    the adapter call succeeds with a response, [Generate] returns that
    response with a [nil] error, and its [Provider] field is
    [model.Provider()] whatever the adapter had put there; the other
    fields are the adapter's. *)
Theorem Generate_stamps_provider (g : LLMGateway.t) (ctx : context.t) (model : Model.t)
    (prompt : string) (client : Provider.t) (resp : GenerationResponse.t) :
  LLMGateway.providers g !! Model.Provider model = Some (Some client) ->
  Provider.Generate client ctx model prompt = (Some resp, None) ->
  exists resp',
    LLMGateway.Generate g ctx model prompt = Returns (Some resp', None)
    /\ GenerationResponse.Provider resp' = Model.Provider model
    /\ resp' = GenerationResponse.set_Provider resp (Model.Provider model).
Proof.
  intros Hreg Hgen. unfold LLMGateway.Generate. rewrite Hreg, Hgen.
  eexists. split; [reflexivity|]. split; reflexivity.
Qed.

Lemma Generate_stamps_provider_witness :
  exists resp',
    LLMGateway.Generate (gatewayOf stubAdapter) context.Background stubModel "hi"
      = Returns (Some resp', None)
    /\ GenerationResponse.Provider resp' = "stub"
    /\ resp' = GenerationResponse.set_Provider stubResponse "stub".
Proof.
  apply (Generate_stamps_provider (gatewayOf stubAdapter) context.Background stubModel
           "hi" stubAdapter stubResponse); reflexivity.
Defined.

(** C10. For a registered adapter, the assignment [resp.Provider = ...]
    is safe exactly when the adapter does not return a [nil] response
    together with a [nil] error: then [Generate] returns; an adapter that
    returns [(nil, nil)] makes [Generate] dereference a [nil] response. *)
Theorem Generate_nil_response (g : LLMGateway.t) (ctx : context.t) (model : Model.t)
    (prompt : string) (client : Provider.t) :
  LLMGateway.providers g !! Model.Provider model = Some (Some client) ->
  (Provider.Generate client ctx model prompt <> (None, None) ->
     exists out, LLMGateway.Generate g ctx model prompt = Returns out)
  /\ (Provider.Generate client ctx model prompt = (None, None) ->
        LLMGateway.Generate g ctx model prompt = Panics nilDereference).
Proof.
  intros Hreg. unfold LLMGateway.Generate. rewrite Hreg.
  destruct (Provider.Generate client ctx model prompt) as [[resp|] [err|]];
    split; intros H; try discriminate; try contradiction; eauto.
Qed.

Lemma Generate_nil_response_witness :
  (Provider.Generate nilAdapter context.Background stubModel "hi" <> (None, None) ->
     exists out,
       LLMGateway.Generate (gatewayOf nilAdapter) context.Background stubModel "hi"
         = Returns out)
  /\ (Provider.Generate nilAdapter context.Background stubModel "hi" = (None, None) ->
        LLMGateway.Generate (gatewayOf nilAdapter) context.Background stubModel "hi"
          = Panics nilDereference).
Proof.
  apply (Generate_nil_response (gatewayOf nilAdapter) context.Background stubModel "hi"
           nilAdapter).
  reflexivity.
Defined.

Section Close.

Import LLMGateway.

(** The loop of [Close] visits every entry, in order, when no entry
    holds a [nil] adapter. *)
Lemma closeAll_returns (entries : list (ProviderType * option Provider.t)) :
  Forall (fun e => is_Some e.2) entries ->
  forall errors,
    exists errors' tr,
      closeAll entries errors = (Returns errors', tr) /\ closed tr = entries.*1.
Proof.
  induction 1 as [|[name client] entries [provider Hsome] _ IH]; intros errors.
  - exists errors, []. split; reflexivity.
  - simpl in Hsome. subst client. cbn [closeAll].
    match goal with |- context [closeAll entries ?es] =>
      destruct (IH es) as [errors' [tr [-> Hcl]]] end.
    exists errors', (EvClose name :: tr). split; [reflexivity|].
    cbn. fold (closed tr). by rewrite Hcl.
Qed.

End Close.

(** C8 (as amended). [Close] does not drain the provider map: when no
    entry holds a [nil] adapter it returns, having called [Close] on the
    adapter of every entry, and leaves the gateway with the map it had, so
    that [IsRegistered] and [ListRegisteredProviders] answer after the
    call as they did before it. *)
Theorem Close_keeps_providers (g : LLMGateway.t) :
  (forall p client, LLMGateway.providers g !! p = Some client -> is_Some client) ->
  exists g' err tr,
    LLMGateway.Close g = (Returns (g', err), tr)
    /\ LLMGateway.providers g' = LLMGateway.providers g
    /\ (forall p, LLMGateway.IsRegistered g' p = LLMGateway.IsRegistered g p)
    /\ LLMGateway.ListRegisteredProviders g' = LLMGateway.ListRegisteredProviders g
    /\ closed tr = LLMGateway.ListRegisteredProviders g.
Proof.
  intros Hnonnil. unfold LLMGateway.Close.
  destruct (closeAll_returns (map_to_list (LLMGateway.providers g))) with (errors := @nil error)
    as [errors [tr [-> Hcl]]].
  { apply Forall_forall. intros [p client] Hin.
    apply elem_of_map_to_list in Hin. exact (Hnonnil p client Hin). }
  destruct (0 <? Z.of_nat (length errors)); eexists g, _, tr; repeat split; exact Hcl.
Qed.

Lemma Close_keeps_providers_witness :
  exists g' err tr,
    LLMGateway.Close (gatewayOf stubAdapter) = (Returns (g', err), tr)
    /\ LLMGateway.providers g' = LLMGateway.providers (gatewayOf stubAdapter)
    /\ (forall p, LLMGateway.IsRegistered g' p
                  = LLMGateway.IsRegistered (gatewayOf stubAdapter) p)
    /\ LLMGateway.ListRegisteredProviders g'
       = LLMGateway.ListRegisteredProviders (gatewayOf stubAdapter)
    /\ closed tr = LLMGateway.ListRegisteredProviders (gatewayOf stubAdapter).
Proof.
  apply (Close_keeps_providers (gatewayOf stubAdapter)).
  intros p client H. unfold gatewayOf in H. simpl in H.
  apply lookup_singleton_Some in H as [_ <-]. eexists. reflexivity.
Defined.

(** C8 as stated fails: after [Close] has returned without an error the
    adapter is still in the map, [IsRegistered] still answers [true] and
    the list of registered providers is not empty. *)
Lemma Close_leaves_adapter_registered :
  exists g',
    LLMGateway.Close (gatewayOf stubAdapter) = (Returns (g', None), [EvClose "stub"])
    /\ LLMGateway.IsRegistered g' "stub" = true
    /\ LLMGateway.ListRegisteredProviders g' = ["stub"].
Proof. exists (gatewayOf stubAdapter). repeat split. Qed.

Section New.

Variable providerFactories : registry.

Lemma registerConfigs_nil_config (rest : list (option ProviderConfig)) (g : LLMGateway.t) :
  registerConfigs providerFactories (None :: rest) g
  = registerConfigs providerFactories rest g.
Proof. reflexivity. Qed.

Lemma registerConfigs_config (config : ProviderConfig)
    (rest : list (option ProviderConfig)) (g : LLMGateway.t) :
  registerConfigs providerFactories (Some config :: rest) g
  = match providerFactories !! providerType config with
    | None => (inr (errorString ("unknown provider type: " ++ providerType config)), [])
    | Some factory =>
        match factory config (LLMGateway.logger g) with
        | (_, Some err) =>
            (inr (wrapError ("failed to initialize " ++ providerType config ++ ": "
                               ++ Error err) err),
             [EvFactory (providerType config)])
        | (client, None) =>
            let '(r, tr) :=
              registerConfigs providerFactories rest
                {| LLMGateway.providers :=
                     <[providerType config := client]> (LLMGateway.providers g);
                   LLMGateway.logger := LLMGateway.logger g |} in
            (r, EvFactory (providerType config) :: EvLogRegistered (providerType config) :: tr)
        end
    end.
Proof. reflexivity. Qed.

(** The loop of [New] has no statement that closes an adapter. *)
Lemma registerConfigs_never_closes (configs : list (option ProviderConfig)) :
  forall g, closed (registerConfigs providerFactories configs g).2 = [].
Proof.
  induction configs as [|[config|] configs IH]; intros g;
    [reflexivity|rewrite registerConfigs_config|rewrite registerConfigs_nil_config; apply IH].
  unfold ProviderFactory in *.
  destruct (providerFactories !! providerType config) as [factory|]; [|reflexivity].
  destruct (factory config (LLMGateway.logger g)) as [client [err|]]; [reflexivity|].
  match goal with |- context [registerConfigs _ configs ?g'] =>
    specialize (IH g'); destruct (registerConfigs providerFactories configs g') end.
  exact IH.
Qed.

(** A configuration with an unknown provider identifier ends the loop
    with an error, wherever it is in the list. *)
Lemma registerConfigs_unknown (pre rest : list (option ProviderConfig))
    (config : ProviderConfig) :
  providerFactories !! providerType config = None ->
  forall g,
    exists err,
      (registerConfigs providerFactories (pre ++ Some config :: rest) g).1 = inr err
      /\ (Forall (constructs providerFactories) pre ->
          err = errorString ("unknown provider type: " ++ providerType config)).
Proof.
  intros Hunknown.
  induction pre as [|[c|] pre IH]; intros g; cbn [app];
    rewrite ?registerConfigs_config, ?registerConfigs_nil_config;
    unfold constructs, ProviderFactory in *.
  - rewrite Hunknown. eexists. split; reflexivity.
  - destruct (providerFactories !! providerType c) as [factory|] eqn:Hc.
    + destruct (factory c (LLMGateway.logger g)) as [client [err|]] eqn:Hf.
      * eexists. split; [reflexivity|]. intros Hpre.
        apply Forall_cons in Hpre as [[factory' [Hc' Hok]] _].
        rewrite Hc in Hc'. injection Hc' as <-.
        specialize (Hok (LLMGateway.logger g)). rewrite Hf in Hok. discriminate.
      * match goal with |- context [registerConfigs _ _ ?g'] =>
          destruct (IH g') as [err [Herr Hpre]];
          destruct (registerConfigs providerFactories (pre ++ Some config :: rest) g')
        end.
        exists err. split; [exact Herr|]. intros H. apply Forall_cons in H as [_ H]. auto.
    + eexists. split; [reflexivity|]. intros Hpre.
      apply Forall_cons in Hpre as [[factory' [Hc' _]] _]. congruence.
  - destruct (IH g) as [err [Herr Hpre]]. exists err. split; [exact Herr|].
    intros H. apply Forall_cons in H as [_ H]. auto.
Qed.

End New.

(** C9 (as amended). For every list of configurations that contains a
    non-null configuration whose provider identifier has no registered
    constructor, [New] fails the whole construction: it returns a [nil]
    gateway and an error, and calls [Close] on no adapter. When moreover
    the constructors of all the configurations before that one are
    registered and succeed, the error is the unknown-provider error that
    names the identifier. *)
Theorem New_unknown_provider_fails (providerFactories : registry)
    (pre rest : list (option ProviderConfig)) (config : ProviderConfig)
    (opts : list Option) :
  providerFactories !! providerType config = None ->
  exists err tr,
    New providerFactories (pre ++ Some config :: rest) opts = ((None, Some err), tr)
    /\ closed tr = []
    /\ (Forall (constructs providerFactories) pre ->
        err = errorString ("unknown provider type: " ++ providerType config)).
Proof.
  intros Hunknown. unfold New.
  match goal with |- context [registerConfigs _ _ ?g] =>
    destruct (registerConfigs_unknown providerFactories pre rest config Hunknown g)
      as [err [Herr Hpre]];
    pose proof (registerConfigs_never_closes providerFactories
                  (pre ++ Some config :: rest) g) as Hcl;
    destruct (registerConfigs providerFactories (pre ++ Some config :: rest) g) as [res tr]
  end.
  simpl in Herr, Hcl. subst res. exists err, tr. auto.
Qed.

Lemma New_unknown_provider_fails_witness :
  exists err tr,
    New {[ "stub" := stubFactory ]} ([Some (stubConfig "stub")] ++ Some (stubConfig "mystery") :: [])
      [] = ((None, Some err), tr)
    /\ closed tr = []
    /\ (Forall (constructs {[ "stub" := stubFactory ]}) [Some (stubConfig "stub")] ->
        err = errorString ("unknown provider type: " ++ providerType (stubConfig "mystery"))).
Proof.
  apply (New_unknown_provider_fails {[ "stub" := stubFactory ]} [Some (stubConfig "stub")] []
           (stubConfig "mystery") []).
  reflexivity.
Defined.

(** C9 as stated fails: the list below contains a configuration for the
    unregistered identifier [mystery], but the constructor of the
    configuration before it fails first, and the error [New] returns is
    that failure, wrapped; it does not name [mystery]. *)
Lemma New_earlier_failure_hides_unknown_provider :
  ({[ "stub" := failingFactory ]} : registry) !! "mystery" = None
  /\ New {[ "stub" := failingFactory ]} [Some (stubConfig "stub"); Some (stubConfig "mystery")] []
     = ((None, Some (wrapError "failed to initialize stub: API key is required"
                       (errorString "API key is required"))),
        [EvFactory "stub"])
  /\ strings.Contains "failed to initialize stub: API key is required" "mystery" = false.
Proof. repeat split. Qed.

(* ===================================================================== *)
(** * newRateLimiter and the shared configuration *)
(* ===================================================================== *)

Section NewRateLimiter.

Variable c : RateLimitConfig.

(** Field by field, what the four assignments do. *)
Lemma applyDefaults_MaxRetries :
  MaxRetries (applyDefaults c) = if MaxRetries c =? 0 then 3 else MaxRetries c.
Proof.
  unfold applyDefaults.
  repeat match goal with |- context [if ?b then _ else _] => destruct b end; reflexivity.
Qed.

Lemma applyDefaults_InitialBackoff :
  InitialBackoff (applyDefaults c)
  = if InitialBackoff c =? 0 then 1 * time.Second else InitialBackoff c.
Proof.
  unfold applyDefaults.
  destruct (MaxRetries c =? 0); cbn [InitialBackoff MaxBackoff BackoffMultiplier];
    destruct (InitialBackoff c =? 0); cbn [InitialBackoff MaxBackoff BackoffMultiplier];
    repeat match goal with |- context [if ?b then _ else _] => destruct b end; reflexivity.
Qed.

Lemma applyDefaults_MaxBackoff :
  MaxBackoff (applyDefaults c)
  = if MaxBackoff c =? 0 then 60 * time.Second else MaxBackoff c.
Proof.
  unfold applyDefaults.
  destruct (MaxRetries c =? 0); cbn [InitialBackoff MaxBackoff BackoffMultiplier];
    destruct (InitialBackoff c =? 0); cbn [InitialBackoff MaxBackoff BackoffMultiplier];
    destruct (MaxBackoff c =? 0); cbn [InitialBackoff MaxBackoff BackoffMultiplier];
    repeat match goal with |- context [if ?b then _ else _] => destruct b end; reflexivity.
Qed.

Lemma applyDefaults_BackoffMultiplier :
  BackoffMultiplier (applyDefaults c)
  = if float64.eqb (BackoffMultiplier c) float64.zero
    then float64.two else BackoffMultiplier c.
Proof.
  unfold applyDefaults.
  destruct (MaxRetries c =? 0); cbn [InitialBackoff MaxBackoff BackoffMultiplier];
    destruct (InitialBackoff c =? 0); cbn [InitialBackoff MaxBackoff BackoffMultiplier];
    destruct (MaxBackoff c =? 0); cbn [InitialBackoff MaxBackoff BackoffMultiplier];
    destruct (float64.eqb (BackoffMultiplier c) float64.zero); reflexivity.
Qed.

(** A configuration without a zero field is not written to. *)
Lemma applyDefaults_nonzero :
  MaxRetries c <> 0 -> InitialBackoff c <> 0 -> MaxBackoff c <> 0 ->
  float64.eqb (BackoffMultiplier c) float64.zero = false ->
  applyDefaults c = c.
Proof.
  intros H1 H2 H3 H4. unfold applyDefaults.
  apply Z.eqb_neq in H1, H2, H3. rewrite H1, H2, H3, H4. reflexivity.
Qed.

End NewRateLimiter.

Lemma applyDefaults_idempotent (c : RateLimitConfig) :
  applyDefaults (applyDefaults c) = applyDefaults c.
Proof.
  apply applyDefaults_nonzero.
  - rewrite applyDefaults_MaxRetries. destruct (Z.eqb_spec (MaxRetries c) 0); lia.
  - rewrite applyDefaults_InitialBackoff.
    destruct (Z.eqb_spec (InitialBackoff c) 0); [discriminate|assumption].
  - rewrite applyDefaults_MaxBackoff.
    destruct (Z.eqb_spec (MaxBackoff c) 0); [discriminate|assumption].
  - rewrite applyDefaults_BackoffMultiplier.
    destruct (float64.eqb (BackoffMultiplier c) float64.zero) eqn:E; [reflexivity|exact E].
Qed.

(** C7 (as amended). [newRateLimiter] writes through the pointer it is
    given: every field of the supplied configuration that is at its zero
    value is overwritten with its default (3 retries, 1s, 60s, 2.0) and
    every other field, like every other configuration, is left unchanged.
    The configuration is stable from then on: a limiter built from it
    later, as by another adapter that shares it, leaves the heap as it
    is. *)
Theorem newRateLimiter_writes_defaults (h : heap) (l : loc) (c : RateLimitConfig)
    (logger logger' : Logger) :
  h !! l = Some c ->
  exists r h' c',
    newRateLimiter (Some l) logger h = Some (r, h')
    /\ rateLimiter.config r = l
    /\ h' !! l = Some c'
    /\ MaxRetries c' = (if MaxRetries c =? 0 then 3 else MaxRetries c)
    /\ InitialBackoff c' = (if InitialBackoff c =? 0 then 1 * time.Second else InitialBackoff c)
    /\ MaxBackoff c' = (if MaxBackoff c =? 0 then 60 * time.Second else MaxBackoff c)
    /\ BackoffMultiplier c' = (if float64.eqb (BackoffMultiplier c) float64.zero
                               then float64.two else BackoffMultiplier c)
    /\ (forall l', l' <> l -> h' !! l' = h !! l')
    /\ exists r', newRateLimiter (Some l) logger' h' = Some (r', h').
Proof.
  intros Hl. unfold newRateLimiter. rewrite Hl.
  eexists _, _, (applyDefaults c). split; [reflexivity|]. split; [reflexivity|].
  rewrite lookup_insert_eq. split; [reflexivity|].
  split; [apply applyDefaults_MaxRetries|].
  split; [apply applyDefaults_InitialBackoff|].
  split; [apply applyDefaults_MaxBackoff|].
  split; [apply applyDefaults_BackoffMultiplier|].
  split; [intros l' Hne; by rewrite lookup_insert_ne|].
  eexists. rewrite applyDefaults_idempotent, insert_insert_eq. reflexivity.
Qed.

Lemma newRateLimiter_writes_defaults_witness :
  exists r h' c',
    newRateLimiter (Some 1%positive) NopLogger (heapOf cfgPartial) = Some (r, h')
    /\ rateLimiter.config r = 1%positive
    /\ h' !! 1%positive = Some c'
    /\ MaxRetries c' = (if MaxRetries cfgPartial =? 0 then 3 else MaxRetries cfgPartial)
    /\ InitialBackoff c' = (if InitialBackoff cfgPartial =? 0 then 1 * time.Second
                            else InitialBackoff cfgPartial)
    /\ MaxBackoff c' = (if MaxBackoff cfgPartial =? 0 then 60 * time.Second
                        else MaxBackoff cfgPartial)
    /\ BackoffMultiplier c' = (if float64.eqb (BackoffMultiplier cfgPartial) float64.zero
                               then float64.two else BackoffMultiplier cfgPartial)
    /\ (forall l', l' <> 1%positive -> h' !! l' = heapOf cfgPartial !! l')
    /\ exists r', newRateLimiter (Some 1%positive) NopLogger h' = Some (r', h').
Proof.
  apply (newRateLimiter_writes_defaults (heapOf cfgPartial) 1%positive cfgPartial
           NopLogger NopLogger).
  reflexivity.
Defined.

(** C7 as stated fails: constructing a limiter from a configuration with
    [MaxRetries] and [MaxBackoff] at zero changes both fields of the
    configuration the caller holds. *)
Lemma newRateLimiter_mutates_supplied_config :
  exists r h',
    newRateLimiter (Some 1%positive) NopLogger (heapOf cfgPartial) = Some (r, h')
    /\ heapOf cfgPartial !! 1%positive = Some cfgPartial
    /\ MaxRetries cfgPartial = 0 /\ MaxBackoff cfgPartial = 0
    /\ h' !! 1%positive
       = Some {| MaxRetries := 3; InitialBackoff := 5 * time.Second;
                 MaxBackoff := 60 * time.Second; BackoffMultiplier := float64.three |}.
Proof. eexists _, _. split; [reflexivity|]. repeat split. Qed.

(* ===================================================================== *)
(** * Retry-after hints *)
(* ===================================================================== *)

Section ByteStrings.

Lemma append_nil (b : string) : EmptyString ++ b = b.
Proof. reflexivity. Qed.

Lemma append_cons (c : ascii) (a b : string) : String c a ++ b = String c (a ++ b).
Proof. reflexivity. Qed.

Lemma length_append (a b : string) :
  String.length (a ++ b) = (String.length a + String.length b)%nat.
Proof.
  induction a as [|c a IH]; [reflexivity|].
  rewrite append_cons. cbn [String.length]. by rewrite IH.
Qed.

Lemma len_append (a b : string) : strings.len (a ++ b) = strings.len a + strings.len b.
Proof. unfold strings.len. rewrite length_append. lia. Qed.

Lemma len_nonneg (a : string) : 0 <= strings.len a.
Proof. unfold strings.len. lia. Qed.

Lemma len_cons (c : ascii) (a : string) : strings.len (String c a) = 1 + strings.len a.
Proof. unfold strings.len. cbn [String.length]. lia. Qed.

Lemma append_snoc (a : string) (c : ascii) (b : string) :
  (a ++ String c EmptyString) ++ b = a ++ String c b.
Proof.
  induction a as [|d a IH]; [reflexivity|].
  rewrite !append_cons. by rewrite IH.
Qed.

Lemma append_assoc (a b c : string) : (a ++ b) ++ c = a ++ b ++ c.
Proof.
  induction a as [|d a IH]; [reflexivity|].
  rewrite !append_cons. by rewrite IH.
Qed.

Lemma get_append_r (a b : string) (i : nat) :
  String.get (String.length a + i) (a ++ b) = String.get i b.
Proof.
  induction a as [|c a IH]; [reflexivity|].
  rewrite append_cons. exact IH.
Qed.

Lemma at_append_r (a b : string) : strings.at_ (a ++ b) (strings.len a) = String.get 0 b.
Proof.
  unfold strings.at_, strings.len. rewrite Nat2Z.id.
  rewrite <- (get_append_r a b 0). f_equal. lia.
Qed.

Lemma substring_append_r (a b : string) (n : nat) :
  String.substring (String.length a) n (a ++ b) = String.substring 0 n b.
Proof.
  induction a as [|c a IH]; [reflexivity|].
  rewrite append_cons. exact IH.
Qed.

Lemma substring_append_l (a b : string) :
  String.substring 0 (String.length a) (a ++ b) = a.
Proof.
  induction a as [|c a IH]; [by destruct b|].
  rewrite append_cons. cbn [String.length String.substring]. by rewrite IH.
Qed.

Lemma slice_append_r (a b : string) (n : Z) :
  0 <= n ->
  strings.slice (a ++ b) (strings.len a) (strings.len a + n)
  = String.substring 0 (Z.to_nat n) b.
Proof.
  intros Hn. unfold strings.slice, strings.len. rewrite Nat2Z.id.
  replace (Z.of_nat (String.length a) + n - Z.of_nat (String.length a)) with n by lia.
  apply substring_append_r.
Qed.

End ByteStrings.

Section ExtractRetryAfter.

(** The scan stops exactly at the end of a run of digits and points. *)
Lemma scanNumber_run (num : string) :
  forall (fuel : nat) (pre post : string),
    allNumeric num = true -> endsNumber post = true ->
    (String.length num <= fuel)%nat ->
    scanNumber fuel (pre ++ num ++ post) (strings.len pre)
    = strings.len pre + strings.len num.
Proof.
  induction num as [|c num IH]; intros fuel pre post Hnum Hpost Hfuel.
  - change (strings.len EmptyString) with 0. rewrite Z.add_0_r, append_nil.
    destruct fuel as [|fuel]; [reflexivity|]. cbn [scanNumber].
    rewrite at_append_r, len_append.
    destruct post as [|d post]; cbn [String.get endsNumber] in *.
    + change (strings.len EmptyString) with 0.
      rewrite Z.add_0_r, Z.ltb_irrefl. reflexivity.
    + apply negb_true_iff in Hpost. rewrite Hpost.
      destruct (_ <? _); reflexivity.
  - destruct fuel as [|fuel]; [simpl in Hfuel; lia|]. cbn [scanNumber].
    cbn [allNumeric] in Hnum. apply andb_true_iff in Hnum as [Hc Hnum].
    rewrite at_append_r, append_cons. cbn [String.get]. rewrite Hc.
    pose proof (len_nonneg num) as Hn. pose proof (len_nonneg post) as Hp.
    pose proof (len_nonneg pre) as Hq.
    assert ((strings.len pre <? strings.len (pre ++ String c (num ++ post))) = true) as ->.
    { apply Z.ltb_lt. rewrite len_append, len_cons, len_append. lia. }
    rewrite <- append_snoc.
    replace (strings.len pre + 1) with (strings.len (pre ++ String c EmptyString))
      by (rewrite len_append; reflexivity).
    rewrite IH; [|assumption|assumption|simpl in Hfuel; lia].
    rewrite len_append, !len_cons. change (strings.len EmptyString) with 0. lia.
Qed.

Variables (pre post : string) (pattern num : string).

(** One iteration of the loop, on a text in which the first occurrence
    of the pattern is followed by a number. *)
Lemma tryPattern_number :
  strings.Index (strings.ToLower (pre ++ pattern ++ num ++ post)) pattern = strings.len pre ->
  allNumeric num = true -> num <> EmptyString -> endsNumber post = true ->
  tryPattern (pre ++ pattern ++ num ++ post) pattern
  = match strconv.ParseFloat num with
    | Some val =>
        if strings.Contains pattern "ms"
        then Some (wrap64 (float64.to_int64 val * time.Millisecond))
        else Some (wrap64 (float64.to_int64 val * time.Second))
    | None => None
    end.
Proof.
  intros Hidx Hnum Hne Hpost. unfold tryPattern. rewrite Hidx.
  pose proof (len_nonneg pre) as Hpre.
  destruct (Z.eqb_spec (strings.len pre) (-1)) as [Heq|_]; [lia|].
  assert (strings.len pre + strings.len pattern = strings.len (pre ++ pattern)) as Hstart
    by (by rewrite len_append).
  rewrite Hstart.
  assert (pre ++ pattern ++ num ++ post = (pre ++ pattern) ++ num ++ post) as Herr
    by (by rewrite append_assoc).
  rewrite Herr, scanNumber_run; [|assumption|assumption|].
  2:{ rewrite !length_append. lia. }
  assert (0 < strings.len num) as Hlen.
  { pose proof (len_nonneg num). destruct num; [contradiction|]. rewrite len_cons.
    unfold strings.len. lia. }
  destruct (Z.gtb_spec (strings.len (pre ++ pattern) + strings.len num)
              (strings.len (pre ++ pattern))) as [_|Hle]; [|lia].
  rewrite slice_append_r by lia.
  assert (String.substring 0 (Z.to_nat (strings.len num)) (num ++ post) = num) as ->
    by (unfold strings.len; rewrite Nat2Z.id; apply substring_append_l).
  reflexivity.
Qed.

End ExtractRetryAfter.

(** C5 (as amended). For every error whose text is ASCII, contains none
    of the earlier hint patterns [retry after ], [retry-after: ] and
    [retry_after=] (in any letter case) and in which the first occurrence
    of [retry_after_ms=] is followed by [1500] and then by the end of the
    text or by a byte that is neither a digit nor a point, the wait
    computed before the next attempt is exactly 1500 milliseconds,
    whatever the backoff and the random draw of the jitter. (The text has
    to be ASCII because the code looks for the pattern in the lowered text
    and reads the number at the same offset of the original one.) *)
Theorem calculateBackoff_retry_after_ms (pre post : string) (e : error)
    (baseBackoff : time.Duration) (u : float64.t) :
  strings.isASCII (Error e) = true ->
  Error e = pre ++ "retry_after_ms=" ++ "1500" ++ post ->
  strings.Index (strings.ToLower (Error e)) "retry after " = -1 ->
  strings.Index (strings.ToLower (Error e)) "retry-after: " = -1 ->
  strings.Index (strings.ToLower (Error e)) "retry_after=" = -1 ->
  strings.Index (strings.ToLower (Error e)) "retry_after_ms=" = strings.len pre ->
  endsNumber post = true ->
  extractRetryAfter (Some e) = 1500 * time.Millisecond
  /\ rateLimiter.calculateBackoff baseBackoff e u = 1500 * time.Millisecond.
Proof.
  intros _ Htext H1 H2 H3 H4 Hpost.
  assert (extractRetryAfter (Some e) = 1500 * time.Millisecond) as Hextract.
  { unfold extractRetryAfter, patterns. cbn [extractLoop].
    unfold tryPattern at 1. rewrite H1. cbn [Z.eqb].
    unfold tryPattern at 1. rewrite H2. cbn [Z.eqb].
    unfold tryPattern at 1. rewrite H3. cbn [Z.eqb].
    rewrite Htext in *.
    rewrite (tryPattern_number pre post "retry_after_ms=" "1500" H4 eq_refl
               ltac:(discriminate) Hpost).
    reflexivity. }
  split; [exact Hextract|].
  unfold rateLimiter.calculateBackoff. rewrite Hextract. reflexivity.
Qed.

Lemma calculateBackoff_retry_after_ms_witness :
  extractRetryAfter (Some errRetryAfterMs) = 1500 * time.Millisecond
  /\ rateLimiter.calculateBackoff (1 * time.Second) errRetryAfterMs (float64.of_dyadic 1 (-2))
     = 1500 * time.Millisecond.
Proof.
  apply (calculateBackoff_retry_after_ms "429 too many requests: " "; slow down"
           errRetryAfterMs (1 * time.Second) (float64.of_dyadic 1 (-2)));
    reflexivity.
Defined.

(** C5 as stated fails: the text of this transient error contains
    [retry_after_ms=1500], but the earlier pattern [retry after ] is found
    first and the computed wait is 7 seconds. *)
Lemma calculateBackoff_earlier_hint_wins :
  isRateLimitError (Some errTwoHints) = true
  /\ strings.Contains (Error errTwoHints) "retry_after_ms=1500" = true
  /\ rateLimiter.calculateBackoff (1 * time.Second) errTwoHints (float64.of_dyadic 1 (-2))
     = 7 * time.Second.
Proof. repeat split. Qed.

(** C6. The number of a retry-after hint is parsed as a floating-point
    value, but its fraction is lost before the unit is applied: for the
    text [retry after 2.5 seconds] the parsed value is 2.5 and the
    extracted wait is 2 seconds, not 2.5 seconds. *)
Theorem extractRetryAfter_drops_fraction :
  strconv.ParseFloat "2.5" = Some (float64.of_dyadic 5 (-1))
  /\ extractRetryAfter (Some errFractional) = 2 * time.Second
  /\ extractRetryAfter (Some errFractional) <> 2500 * time.Millisecond.
Proof. repeat split. discriminate. Qed.

(* ===================================================================== *)
(** * Binary64 rounding facts used by the backoff *)
(* ===================================================================== *)

Section Binary64.

Lemma digits2_pos_bounds (p : positive) :
  2 ^ (Z.pos (digits2_pos p) - 1) <= Z.pos p < 2 ^ Z.pos (digits2_pos p).
Proof.
  induction p as [p IH|p IH|]; cbn [digits2_pos].
  - rewrite Pos2Z.inj_succ, (Pos2Z.inj_xI p).
    replace (Z.succ (Z.pos (digits2_pos p)) - 1) with (Z.succ (Z.pos (digits2_pos p) - 1)) by lia.
    pose proof (Pos2Z.is_pos (digits2_pos p)).
    rewrite (Z.pow_succ_r 2 (Z.pos (digits2_pos p) - 1)), (Z.pow_succ_r 2 (Z.pos (digits2_pos p))) by lia.
    lia.
  - rewrite Pos2Z.inj_succ, (Pos2Z.inj_xO p).
    replace (Z.succ (Z.pos (digits2_pos p)) - 1) with (Z.succ (Z.pos (digits2_pos p) - 1)) by lia.
    pose proof (Pos2Z.is_pos (digits2_pos p)).
    rewrite (Z.pow_succ_r 2 (Z.pos (digits2_pos p) - 1)), (Z.pow_succ_r 2 (Z.pos (digits2_pos p))) by lia.
    lia.
  - cbn. lia.
Qed.

(** The number of binary digits is determined by the binade. *)
Lemma digits2_pos_unique (p : positive) (k : Z) :
  2 ^ (k - 1) <= Z.pos p < 2 ^ k -> Z.pos (digits2_pos p) = k.
Proof.
  intros [Hlo Hhi]. destruct (digits2_pos_bounds p) as [Hlo' Hhi'].
  assert (0 < k) as Hk.
  { destruct (Z.lt_ge_cases 0 k) as [|Hneg]; [assumption|].
    destruct (Z.eq_dec k 0) as [->|]; [cbn in Hhi; lia|].
    rewrite Z.pow_neg_r in Hhi by lia. lia. }
  assert (k - 1 < Z.pos (digits2_pos p)) as H1.
  { apply (Z.pow_lt_mono_r_iff 2); lia. }
  assert (Z.pos (digits2_pos p) - 1 < k) as H2.
  { apply (Z.pow_lt_mono_r_iff 2); lia. }
  lia.
Qed.

Lemma iter_pos_nat {A : Type} (f : A -> A) (p : positive) (x : A) :
  SpecFloat.iter_pos f p x = Nat.iter (Pos.to_nat p) f x.
Proof.
  revert x. induction p as [p IH|p IH|]; intros x; cbn [SpecFloat.iter_pos].
  - rewrite !IH, Pos2Nat.inj_xI. cbn [Nat.iter Nat.mul].
    rewrite Nat.add_0_r, <- Nat.iter_succ_r, <- Nat.iter_add. f_equal. lia.
  - rewrite !IH, Pos2Nat.inj_xO. cbn [Nat.mul].
    rewrite Nat.add_0_r, <- Nat.iter_add. reflexivity.
  - reflexivity.
Qed.

Lemma shr_1_m (mrs : shr_record) :
  0 <= shr_m mrs -> shr_m (shr_1 mrs) = shr_m mrs / 2.
Proof.
  destruct mrs as [m r s]. cbn [shr_m]. intros Hm.
  destruct m as [|[p|p|]|p]; cbn [shr_1 shr_m]; try lia.
  - reflexivity.
  - rewrite (Pos2Z.inj_xI p). apply Z.div_unique with 1; lia.
  - rewrite (Pos2Z.inj_xO p). apply Z.div_unique with 0; lia.
  - reflexivity.
Qed.

(** Shifting right keeps the integer part of the quotient. *)
Lemma shr_iter_m (n : nat) (mrs : shr_record) :
  0 <= shr_m mrs ->
  shr_m (Nat.iter n shr_1 mrs) = shr_m mrs / 2 ^ Z.of_nat n.
Proof.
  intros Hm. induction n as [|n IH].
  - cbn. by rewrite Z.div_1_r.
  - rewrite Nat.iter_succ, shr_1_m.
    + rewrite IH, Nat2Z.inj_succ, Z.pow_succ_r by lia.
      rewrite Z.div_div by lia. f_equal. lia.
    + rewrite IH. apply Z.div_pos; lia.
Qed.

Lemma round_nearest_even_bounds (m : Z) (l : location) :
  m <= round_nearest_even m l <= m + 1.
Proof.
  destruct l as [|[ | | ]]; cbn [round_nearest_even]; try lia.
  destruct (Z.even m); lia.
Qed.


Lemma shr_record_of_loc_m (m : Z) (l : location) : shr_m (shr_record_of_loc m l) = m.
Proof. by destruct l as [|[ | | ]]. Qed.

Lemma fexp_normal (x : Z) : -1021 <= x -> fexp float64.prec float64.emax x = x - 53.
Proof. intros Hx. unfold fexp, SpecFloat.emin, float64.prec, float64.emax. lia. Qed.

Lemma shr_fexp_noshift (m e : Z) (l : location) :
  fexp float64.prec float64.emax (Zdigits2 m + e) - e = 0 ->
  shr_fexp float64.prec float64.emax m e l = (shr_record_of_loc m l, e).
Proof. intros H. unfold shr_fexp. rewrite H. reflexivity. Qed.

Lemma shr_fexp_shift (m e : Z) (l : location) (n : positive) :
  fexp float64.prec float64.emax (Zdigits2 m + e) - e = Z.pos n ->
  shr_fexp float64.prec float64.emax m e l
  = (Nat.iter (Pos.to_nat n) shr_1 (shr_record_of_loc m l), e + Z.pos n).
Proof. intros H. unfold shr_fexp. rewrite H. cbn [shr]. by rewrite iter_pos_nat. Qed.

(** Rounding a mantissa of exactly 53 digits changes nothing. *)
Lemma binary_round_aux_canonical (sx : bool) (m : positive) (e : Z) :
  Z.pos (digits2_pos m) = 53 -> -1074 <= e <= 971 ->
  binary_round_aux float64.prec float64.emax sx (Z.pos m) e loc_Exact = S754_finite sx m e.
Proof.
  intros Hd He. unfold binary_round_aux.
  assert (fexp float64.prec float64.emax (Zdigits2 (Z.pos m) + e) - e = 0) as Hshift.
  { cbn [Zdigits2]. rewrite Hd. unfold fexp, SpecFloat.emin, float64.prec, float64.emax. lia. }
  rewrite shr_fexp_noshift by exact Hshift. cbn [shr_record_of_loc shr_m loc_of_shr_record
    round_nearest_even].
  rewrite shr_fexp_noshift by exact Hshift. cbn [shr_record_of_loc shr_m].
  destruct (Z.leb_spec e (float64.emax - float64.prec)) as [_|Hgt]; [reflexivity|].
  unfold float64.prec, float64.emax in Hgt. lia.
Qed.

(** Rounding a mantissa of 105 or 106 digits, as a product of two
    53-digit mantissas has: the result keeps the 53 leading digits,
    possibly incremented. *)
Lemma binary_round_aux_product (P : positive) (E : Z) (n : positive) :
  Z.pos (digits2_pos P) = 53 + Z.pos n -> -1021 <= E ->
  exists m3 e3,
    binary_round_aux float64.prec float64.emax false (Z.pos P) E loc_Exact
    = (if e3 <=? float64.emax - float64.prec then S754_finite false m3 e3 else S754_infinity false)
    /\ 2 ^ 52 <= Z.pos m3
    /\ E + Z.pos n <= e3 <= E + Z.pos n + 1
    /\ Z.pos m3 * 2 ^ (e3 - (E + Z.pos n)) <= 2 ^ 53
    /\ (e3 = E + Z.pos n -> Z.pos P / 2 ^ Z.pos n <= Z.pos m3).
Proof.
  intros Hd HE. unfold binary_round_aux.
  assert (fexp float64.prec float64.emax (Zdigits2 (Z.pos P) + E) - E = Z.pos n) as Hshift.
  { cbn [Zdigits2]. rewrite Hd, fexp_normal by lia. lia. }
  rewrite (shr_fexp_shift _ _ _ n Hshift). cbv beta iota.
  set (mrs := Nat.iter (Pos.to_nat n) shr_1 (shr_record_of_loc (Z.pos P) loc_Exact)).
  assert (shr_m mrs = Z.pos P / 2 ^ Z.pos n) as Hm1.
  { unfold mrs. rewrite shr_iter_m by (rewrite shr_record_of_loc_m; lia).
    by rewrite shr_record_of_loc_m, positive_nat_Z. }
  destruct (digits2_pos_bounds P) as [Hlo Hhi]. rewrite Hd in Hlo, Hhi.
  assert (2 ^ 52 <= shr_m mrs < 2 ^ 53) as [Hm1lo Hm1hi].
  { rewrite Hm1.
    replace (53 + Z.pos n - 1) with (52 + Z.pos n) in Hlo by lia.
    rewrite Z.pow_add_r in Hlo, Hhi by lia. split.
    - apply Z.div_le_lower_bound; lia.
    - apply Z.div_lt_upper_bound; lia. }
  pose proof (round_nearest_even_bounds (shr_m mrs) (loc_of_shr_record mrs)) as Hrne.
  set (m2 := round_nearest_even (shr_m mrs) (loc_of_shr_record mrs)) in *.
  destruct m2 as [|q2|q2] eqn:Hm2; [lia| |lia].
  destruct (Z.eq_dec (Z.pos q2) (2 ^ 53)) as [Hcarry|Hnocarry].
  - (* the increment carried into a 54th digit *)
    assert (q2 = 9007199254740992%positive) as ->
      by (change (2 ^ 53) with (Z.pos 9007199254740992) in Hcarry; congruence).
    assert (fexp float64.prec float64.emax (Zdigits2 (Z.pos 9007199254740992) + (E + Z.pos n))
            - (E + Z.pos n) = 1) as Hshift2.
    { cbn [Zdigits2]. change (Z.pos (digits2_pos 9007199254740992)) with 54.
      rewrite fexp_normal by lia. lia. }
    rewrite (shr_fexp_shift _ _ _ 1%positive Hshift2). cbv beta iota.
    change (shr_m (Nat.iter (Pos.to_nat 1) shr_1
                     (shr_record_of_loc (Z.pos 9007199254740992) loc_Exact)))
      with (Z.pos 4503599627370496).
    cbv beta iota.
    eexists _, _. split; [reflexivity|]. split; [cbn; lia|]. split; [lia|].
    split; [|lia].
    replace (E + Z.pos n + 1 - (E + Z.pos n)) with 1 by lia. reflexivity.
  - assert (Z.pos (digits2_pos q2) = 53) as Hd2.
    { apply digits2_pos_unique. change (53 - 1) with 52. lia. }
    assert (fexp float64.prec float64.emax (Zdigits2 (Z.pos q2) + (E + Z.pos n)) - (E + Z.pos n) = 0)
      as Hshift2.
    { cbn [Zdigits2]. rewrite Hd2, fexp_normal by lia. lia. }
    rewrite (shr_fexp_noshift _ _ _ Hshift2). cbn [shr_record_of_loc shr_m].
    eexists _, _. split; [reflexivity|]. split; [lia|]. split; [lia|].
    split; [rewrite Z.sub_diag, Z.mul_1_r; lia|].
    intros _. rewrite <- Hm1. lia.
Qed.


Lemma iter_xO_value (p k : positive) :
  Z.pos (Pos.iter xO p k) = Z.pos p * 2 ^ Z.pos k.
Proof.
  induction k as [|k IH] using Pos.peano_ind.
  - cbn [Pos.iter]. rewrite (Pos2Z.inj_xO p). change (2 ^ 1) with 2. lia.
  - rewrite Pos.iter_succ, Pos2Z.inj_xO, IH, Pos2Z.inj_succ, Z.pow_succ_r by lia. lia.
Qed.

(** An integer of at most 53 bits is converted exactly, to a float with
    a full mantissa. *)
Lemma of_int64_exact (b : Z) :
  0 < b <= 2 ^ 53 ->
  exists mx ex,
    float64.of_int64 b = S754_finite false mx ex
    /\ Z.pos (digits2_pos mx) = 53
    /\ -52 <= ex <= 1
    /\ Z.pos mx * 2 ^ (ex + 52) = b * 2 ^ 52.
Proof.
  intros [Hpos Hle]. destruct b as [|p|p]; [lia| |lia].
  destruct (digits2_pos_bounds p) as [Hlo Hhi].
  pose proof (Pos2Z.is_pos (digits2_pos p)) as Hd.
  assert (Z.pos (digits2_pos p) <= 54) as Hd54.
  { assert (Z.pos (digits2_pos p) - 1 < 54); [|lia].
    apply (Z.pow_lt_mono_r_iff 2); [lia|lia|].
    eapply Z.le_lt_trans; [exact Hlo|]. eapply Z.le_lt_trans; [exact Hle|]. reflexivity. }
  destruct (Z.eq_dec (Z.pos (digits2_pos p)) 54) as [H54|Hn54].
  - rewrite H54 in Hlo. change (2 ^ (54 - 1)) with (2 ^ 53) in Hlo.
    assert (p = 9007199254740992%positive) as ->
      by (change (2 ^ 53) with (Z.pos 9007199254740992) in *; lia).
    exists 4503599627370496%positive, 1. repeat split; try reflexivity; lia.
  - unfold float64.of_int64, float64.of_dyadic, binary_normalize, binary_round.
    rewrite fexp_normal by lia. unfold shl_align.
    remember (Z.pos (digits2_pos p) + 0 - 53 - 0) as z eqn:Hz.
    destruct z as [|k|k]; [|lia|].
    + assert (Z.pos (digits2_pos p) = 53) as H53 by lia.
      rewrite binary_round_aux_canonical by (assumption || lia).
      exists p, 0. repeat split; try assumption; lia.
    + assert (Z.pos (digits2_pos p) + Z.pos k = 53) as Hk by lia.
      assert (2 ^ 52 <= Z.pos (Pos.iter xO p k) < 2 ^ 53) as Hb.
      { rewrite iter_xO_value.
        replace 52 with (Z.pos (digits2_pos p) - 1 + Z.pos k) by lia.
        replace 53 with (Z.pos (digits2_pos p) + Z.pos k) by lia.
        rewrite !Z.pow_add_r by lia.
        pose proof (Z.pow_pos_nonneg 2 (Z.pos k) ltac:(lia) ltac:(lia)). nia. }
      assert (Z.pos (digits2_pos (Pos.iter xO p k)) = 53) as Hdig
        by (apply digits2_pos_unique; exact Hb).
      rewrite binary_round_aux_canonical by (assumption || lia).
      eexists _, _. split; [reflexivity|]. split; [exact Hdig|]. split; [lia|].
      rewrite iter_xO_value.
      replace (Z.pos (digits2_pos p) + 0 - 53 + 52) with (Z.pos (digits2_pos p) - 1) by lia.
      rewrite <- Z.mul_assoc, <- Z.pow_add_r by lia. do 2 f_equal. lia.
Qed.

(** A float that is at least one has a full mantissa and an exponent of
    at least -52. *)
Lemma leb_one_shape (m : float64.t) :
  valid_binary float64.prec float64.emax m = true -> float64.leb float64.one m = true ->
  m = S754_infinity false
  \/ exists my ey,
       m = S754_finite false my ey
       /\ Z.pos (digits2_pos my) = 53 /\ -52 <= ey.
Proof.
  intros Hvalid Hleb. destruct m as [s|s|  |s my ey].
  - discriminate Hleb.
  - destruct s; [discriminate Hleb|]. by left.
  - discriminate Hleb.
  - right. destruct s; [discriminate Hleb|]. exists my, ey. split; [reflexivity|].
    assert (-52 <= ey) as Hey.
    { unfold float64.leb, SFleb, float64.one, SFcompare in Hleb.
      destruct (Z.compare_spec (-52) ey); [lia|lia|discriminate Hleb]. }
    split; [|exact Hey].
    cbn [valid_binary] in Hvalid. unfold bounded, canonical_mantissa in Hvalid.
    apply andb_true_iff in Hvalid as [Hcanon _]. apply Z.eqb_eq in Hcanon.
    unfold fexp, SpecFloat.emin, float64.prec, float64.emax in Hcanon. lia.
Qed.

(** The heart of the monotonicity of the backoff: scaling an integer of
    at most 53 bits by a float that is at least one, and dropping the
    fraction of the product, does not give less than the integer. *)
Lemma mul_of_int64_ge (b : Z) (m : float64.t) (z : Z) :
  0 < b <= 2 ^ 53 ->
  valid_binary float64.prec float64.emax m = true ->
  float64.leb float64.one m = true ->
  float64.trunc (float64.mul (float64.of_int64 b) m) = Some z ->
  b <= z.
Proof.
  intros Hb Hvalid Hleb Htrunc.
  destruct (of_int64_exact b Hb) as [mx [ex [Hx [Hdx [Hex Hval]]]]].
  destruct (leb_one_shape m Hvalid Hleb) as [->|[my [ey [-> [Hdy Hey]]]]];
    rewrite Hx in Htrunc; [discriminate Htrunc|].
  unfold float64.mul, SFmul in Htrunc. cbn [xorb] in Htrunc.
  destruct (digits2_pos_bounds mx) as [Hxlo Hxhi]. rewrite Hdx in Hxlo, Hxhi.
  destruct (digits2_pos_bounds my) as [Hylo Hyhi]. rewrite Hdy in Hylo, Hyhi.
  change (2 ^ (53 - 1)) with (2 ^ 52) in *.
  destruct (digits2_pos_bounds (mx * my)) as [Hplo Hphi].
  rewrite Pos2Z.inj_mul in Hplo, Hphi.
  assert (2 ^ 104 <= Z.pos mx * Z.pos my < 2 ^ 106) as [HPlo HPhi].
  { change (2 ^ 104) with (2 ^ 52 * 2 ^ 52). change (2 ^ 106) with (2 ^ 53 * 2 ^ 53).
    split; nia. }
  assert (104 < Z.pos (digits2_pos (mx * my))) as Hd1.
  { apply (Z.pow_lt_mono_r_iff 2); lia. }
  assert (Z.pos (digits2_pos (mx * my)) - 1 < 106) as Hd2.
  { apply (Z.pow_lt_mono_r_iff 2); lia. }
  assert (exists n, Z.pos (digits2_pos (mx * my)) = 53 + Z.pos n /\ 52 <= Z.pos n)
    as [n [Hn Hn52]].
  { exists (Z.to_pos (Z.pos (digits2_pos (mx * my)) - 53)). rewrite Z2Pos.id; lia. }
  destruct (binary_round_aux_product (mx * my) (ex + ey) n Hn ltac:(lia))
    as [m3 [e3 [Hr [Hm3 [[He3 _] [_ Hm3']]]]]]. rewrite Hr in Htrunc.
  destruct (e3 <=? float64.emax - float64.prec); [|discriminate Htrunc].
  cbn [float64.trunc] in Htrunc.
  (* the result, scaled to the exponent of the first factor, is not below it *)
  assert (Z.pos mx <= Z.pos m3 * 2 ^ (e3 - ex)) as Hscaled.
  { destruct (Z.eq_dec e3 ex) as [Heq|Hne].
    - rewrite Heq, Z.sub_diag, Z.mul_1_r.
      assert (Z.pos n = 52 /\ ey = -52) as [Hn' Hey'] by lia.
      specialize (Hm3' ltac:(lia)). rewrite Hn', Pos2Z.inj_mul in Hm3'.
      eapply Z.le_trans; [|exact Hm3']. apply Z.div_le_lower_bound; [lia|nia].
    - assert (2 ^ 1 <= 2 ^ (e3 - ex)) by (apply Z.pow_le_mono_r; lia).
      change (2 ^ 1) with 2 in *. change (2 ^ 53) with (2 * 2 ^ 52) in Hxhi. nia. }
  assert (0 <= e3 - ex) as Hdelta by lia.
  assert (b * 2 ^ 52 <= Z.pos m3 * 2 ^ (e3 + 52)) as Hmain.
  { rewrite <- Hval. replace (e3 + 52) with ((e3 - ex) + (ex + 52)) by lia.
    rewrite (Z.pow_add_r 2 (e3 - ex) (ex + 52)) by lia.
    pose proof (Z.pow_pos_nonneg 2 (ex + 52) ltac:(lia) ltac:(lia)). nia. }
  injection Htrunc as <-.
  destruct (Z.leb_spec 0 e3) as [Hnonneg|Hneg].
  - rewrite (Z.pow_add_r 2 e3 52) in Hmain by lia. lia.
  - apply Z.div_le_lower_bound; [apply Z.pow_pos_nonneg; lia|].
    assert (2 ^ 52 = 2 ^ (- e3) * 2 ^ (e3 + 52)) as Hsplit
      by (rewrite <- Z.pow_add_r by lia; f_equal; lia).
    rewrite Hsplit in Hmain.
    pose proof (Z.pow_pos_nonneg 2 (e3 + 52) ltac:(lia) ltac:(lia)).
    pose proof (Z.pow_pos_nonneg 2 (- e3) ltac:(lia) ltac:(lia)). nia.
Qed.


(** A sufficient condition for the product to fit: a multiplier below
    512 keeps the scaled value of a 53-bit integer below 2^62. *)
Lemma mul_of_int64_fits (b : Z) (m : float64.t) :
  0 < b <= 2 ^ 53 ->
  valid_binary float64.prec float64.emax m = true ->
  float64.leb float64.one m = true ->
  float64.ltb m (float64.of_dyadic 512 0) = true ->
  float64.fits_int64 (float64.mul (float64.of_int64 b) m) = true.
Proof.
  intros Hb Hvalid Hleb Hltb.
  destruct (of_int64_exact b Hb) as [mx [ex [Hx [Hdx [Hex Hval]]]]].
  destruct (leb_one_shape m Hvalid Hleb) as [->|[my [ey [-> [Hdy Hey]]]]];
    [discriminate Hltb|].
  destruct (digits2_pos_bounds mx) as [Hxlo Hxhi]. rewrite Hdx in Hxlo, Hxhi.
  destruct (digits2_pos_bounds my) as [Hylo Hyhi]. rewrite Hdy in Hylo, Hyhi.
  change (2 ^ (53 - 1)) with (2 ^ 52) in *.
  assert (ey <= -44) as Hey'.
  { change (float64.of_dyadic 512 0) with (S754_finite false 4503599627370496 (-43)) in Hltb.
    unfold float64.ltb, SFltb, SFcompare in Hltb.
    destruct (Z.compare_spec ey (-43)) as [Heq| |]; [|lia|discriminate Hltb].
    destruct (Pos.compare_cont Eq my 4503599627370496) eqn:Hcmp; try discriminate Hltb.
    apply (proj1 (Pos.compare_lt_iff my 4503599627370496)) in Hcmp.
    apply Pos2Z.pos_lt_pos in Hcmp.
    change (Z.pos 4503599627370496) with (2 ^ 52) in Hcmp. lia. }
  rewrite Hx. unfold float64.mul, SFmul. cbn [xorb].
  destruct (digits2_pos_bounds (mx * my)) as [Hplo Hphi].
  rewrite Pos2Z.inj_mul in Hplo, Hphi.
  assert (2 ^ 104 <= Z.pos mx * Z.pos my) as HPlo.
  { change (2 ^ 104) with (2 ^ 52 * 2 ^ 52). nia. }
  (* the first factor is at most 2^53, whatever its exponent *)
  assert (Z.pos mx <= 2 ^ (53 - ex)) as Hmx.
  { assert (Z.pos mx * 2 ^ (ex + 52) <= 2 ^ (53 - ex) * 2 ^ (ex + 52)) as Hm.
    { rewrite Hval, <- Z.pow_add_r by lia. replace (53 - ex + (ex + 52)) with 105 by lia.
      change (2 ^ 105) with (2 ^ 53 * 2 ^ 52). lia. }
    pose proof (Z.pow_pos_nonneg 2 (ex + 52) ltac:(lia) ltac:(lia)). nia. }
  assert (Z.pos mx * Z.pos my < 2 ^ (106 - ex)) as HPhi.
  { replace (106 - ex) with ((53 - ex) + 53) by lia. rewrite Z.pow_add_r by lia.
    pose proof (Z.pow_pos_nonneg 2 (53 - ex) ltac:(lia) ltac:(lia)). nia. }
  assert (104 < Z.pos (digits2_pos (mx * my))) as Hd1.
  { apply (Z.pow_lt_mono_r_iff 2); lia. }
  assert (Z.pos (digits2_pos (mx * my)) - 1 < 106 - ex) as Hd2.
  { apply (Z.pow_lt_mono_r_iff 2); lia. }
  assert (exists n, Z.pos (digits2_pos (mx * my)) = 53 + Z.pos n /\ 52 <= Z.pos n)
    as [n [Hn Hn52]].
  { exists (Z.to_pos (Z.pos (digits2_pos (mx * my)) - 53)). rewrite Z2Pos.id; lia. }
  destruct (binary_round_aux_product (mx * my) (ex + ey) n Hn ltac:(lia))
    as [m3 [e3 [-> [Hm3 [He3 [Hm3hi _]]]]]].
  destruct (Z.leb_spec e3 (float64.emax - float64.prec)) as [_|Hbig]; [|unfold float64.emax, float64.prec in Hbig; lia].
  unfold float64.fits_int64, float64.trunc, in_int64, min_int64, max_int64.
  set (t := ex + ey + Z.pos n) in *.
  assert (t <= 9) as Ht by (unfold t; lia).
  assert (0 <= e3 - t <= 1) as Hs by lia.
  assert (1 <= 2 ^ (e3 - t)) as Hpow
    by (pose proof (Z.pow_pos_nonneg 2 (e3 - t) ltac:(lia) ltac:(lia)); lia).
  assert (Z.pos m3 <= 2 ^ 53) as Hm3' by nia.
  apply andb_true_iff. split; apply Z.leb_le.
  - change (2 ^ 63) with 9223372036854775808.
    destruct (Z.leb_spec 0 e3) as [Hnonneg|Hneg].
    + pose proof (Z.pow_pos_nonneg 2 e3 ltac:(lia) Hnonneg). nia.
    + pose proof (Z.div_pos (Z.pos m3) (2 ^ (- e3)) ltac:(lia)
                    ltac:(apply Z.pow_pos_nonneg; lia)). lia.
  - destruct (Z.leb_spec 0 e3) as [Hnonneg|Hneg].
    + assert (Z.pos m3 * 2 ^ e3 <= 2 ^ 62); [|change (2 ^ 62) with 4611686018427387904 in *;
                                               change (2 ^ 63) with 9223372036854775808; lia].
      destruct (Z.eq_dec e3 t) as [->|Hne].
      * rewrite Z.sub_diag, Z.mul_1_r in Hm3hi.
        assert (2 ^ t <= 2 ^ 9) by (apply Z.pow_le_mono_r; lia).
        pose proof (Z.pow_pos_nonneg 2 t ltac:(lia) ltac:(lia)).
        change (2 ^ 62) with (2 ^ 53 * 2 ^ 9). nia.
      * assert (e3 = t + 1) as -> by lia.
        replace (t + 1 - t) with 1 in Hm3hi by lia. change (2 ^ 1) with 2 in Hm3hi.
        assert (2 ^ (t + 1) <= 2 ^ 10) by (apply Z.pow_le_mono_r; lia).
        pose proof (Z.pow_pos_nonneg 2 (t + 1) ltac:(lia) ltac:(lia)).
        change (2 ^ 62) with (2 ^ 52 * 2 ^ 10). change (2 ^ 53) with (2 * 2 ^ 52) in Hm3hi.
        nia.
    + assert (Z.pos m3 / 2 ^ (- e3) <= Z.pos m3).
      { apply Z.div_le_upper_bound; [apply Z.pow_pos_nonneg; lia|].
        pose proof (Z.pow_pos_nonneg 2 (- e3) ltac:(lia) ltac:(lia)). nia. }
      change (2 ^ 53) with 9007199254740992 in Hm3'.
      change (2 ^ 63) with 9223372036854775808. lia.
Qed.

End Binary64.

(* ===================================================================== *)
(** * The nominal backoff across retries *)
(* ===================================================================== *)

Section NominalBackoff.

Import rateLimiter.

Variable cfg : RateLimitConfig.

Hypothesis Hcap : MaxBackoff cfg <= 2 ^ 53.
Hypothesis Hvalid : valid_binary float64.prec float64.emax (BackoffMultiplier cfg) = true.
Hypothesis Hmult : float64.leb float64.one (BackoffMultiplier cfg) = true.

(** One step of growth is monotone and capped. *)
Lemma nextBackoff_bounds (b : time.Duration) :
  0 < b <= MaxBackoff cfg -> productFits cfg b = true ->
  b <= nextBackoff cfg b <= MaxBackoff cfg.
Proof.
  intros Hb Hfits. unfold nextBackoff, float64.to_int64.
  unfold productFits, float64.fits_int64 in Hfits.
  destruct (float64.trunc _) as [z|] eqn:Htrunc; [|discriminate].
  rewrite Hfits.
  assert (b <= z) by (eapply mul_of_int64_ge; [lia|exact Hvalid|exact Hmult|exact Htrunc]).
  destruct (Z.gtb_spec z (MaxBackoff cfg)); lia.
Qed.

Variables (ctx : context.t) (fn : RetryFunc) (rnd : Z -> float64.t).

Lemma nominal_emit_call (a : Z) (res : option error) (tr : list event) :
  nominalBackoffs (EvCall a res :: tr) = nominalBackoffs tr.
Proof. reflexivity. Qed.

Lemma nominal_emit_waiting (a m : Z) (w : time.Duration) (tr : list event) :
  nominalBackoffs (EvLogWaiting a m w :: tr) = nominalBackoffs tr.
Proof. reflexivity. Qed.

Lemma nominal_emit_wait (b w : time.Duration) (el : bool) (tr : list event) :
  nominalBackoffs (EvWait b w el :: tr) = b :: nominalBackoffs tr.
Proof. reflexivity. Qed.

(** From any iteration on, the nominal backoffs of the waits start at
    the current backoff, do not decrease and stay below the cap. *)
Lemma loop_nominal_backoffs (fuel : nat) :
  forall attempt backoff lastErr ret tr,
    0 < backoff <= MaxBackoff cfg ->
    loop fuel cfg ctx fn rnd attempt backoff lastErr = Some (ret, tr) ->
    Forall (fun b => 0 < b <= MaxBackoff cfg -> productFits cfg b = true)
      (nominalBackoffs tr) ->
    Sorted Z.le (nominalBackoffs tr)
    /\ Forall (fun b => backoff <= b <= MaxBackoff cfg) (nominalBackoffs tr).
Proof.
  induction fuel as [|fuel IH]; intros attempt backoff lastErr ret tr Hb Hrun Hfits;
    [discriminate|].
  rewrite loop_S in Hrun.
  destruct (attempt <=? MaxRetries cfg);
    [|injection Hrun as <- <-; split; constructor].
  destruct (context.Done ctx (2 * attempt));
    [injection Hrun as <- <-; split; constructor|].
  destruct (fn attempt) as [err|]; [|injection Hrun as <- <-; split; constructor].
  apply emit_Some in Hrun as [tr1 [Hrun ->]]. rewrite nominal_emit_call in *.
  destruct (isRateLimitError (Some err)); cbn [negb] in Hrun;
    [|injection Hrun as <- <-; split; constructor].
  destruct (attempt >=? MaxRetries cfg);
    [injection Hrun as <- <-; split; constructor|].
  apply emit_Some in Hrun as [tr2 [Hrun ->]]. rewrite nominal_emit_waiting in *.
  destruct (context.Done ctx (2 * attempt + 1)).
  - injection Hrun as <- <-. rewrite nominal_emit_wait. cbn.
    split; [repeat constructor|constructor; [lia|constructor]].
  - apply emit_Some in Hrun as [tr3 [Hrun ->]]. rewrite nominal_emit_wait in *.
    apply Forall_cons in Hfits as [Hfit Hfits].
    pose proof (nextBackoff_bounds backoff Hb (Hfit Hb)) as Hnext.
    destruct (IH _ (nextBackoff cfg backoff) _ _ _ ltac:(lia) Hrun Hfits) as [Hsorted Hall].
    split.
    + constructor; [exact Hsorted|].
      destruct (nominalBackoffs tr3) as [|b' bs]; constructor.
      apply Forall_cons in Hall as [Hb' _]. lia.
    + constructor; [lia|].
      eapply Forall_impl; [exact Hall|]. cbn. intros b' Hb'. lia.
Qed.

End NominalBackoff.

Section Schedule.

Import rateLimiter.

Variables (cfg : RateLimitConfig) (ctx : context.t) (fn : RetryFunc)
          (rnd : Z -> float64.t).

(** When every attempt fails with a transient error and the context
    stays open, there is one wait per retry and the nominal backoffs are
    the successive values of [nextBackoff]. *)
Lemma loop_schedule (fuel : nat) :
  (forall k, exists e, fn k = Some e /\ isRateLimitError (Some e) = true) ->
  (forall i, context.Done ctx i = false) ->
  forall attempt backoff lastErr ret tr,
    attempt <= MaxRetries cfg ->
    loop fuel cfg ctx fn rnd attempt backoff lastErr = Some (ret, tr) ->
    nominalBackoffs tr = backoffSchedule cfg backoff (Z.to_nat (MaxRetries cfg - attempt)).
Proof.
  intros Hfn Hctx.
  induction fuel as [|fuel IH]; intros attempt backoff lastErr ret tr Hle Hrun;
    [discriminate|].
  rewrite loop_S in Hrun. destruct (Z.leb_spec attempt (MaxRetries cfg)); [|lia].
  rewrite !Hctx in Hrun. destruct (Hfn attempt) as [err [Herr Htr]].
  rewrite Herr, Htr in Hrun. cbn [negb] in Hrun.
  apply emit_Some in Hrun as [tr1 [Hrun ->]]. rewrite nominal_emit_call.
  destruct (Z.geb_spec attempt (MaxRetries cfg)).
  - injection Hrun as <- <-.
    replace (MaxRetries cfg - attempt) with 0 by lia. reflexivity.
  - apply emit_Some in Hrun as [tr2 [Hrun ->]]. rewrite nominal_emit_waiting.
    apply emit_Some in Hrun as [tr3 [Hrun ->]]. rewrite nominal_emit_wait.
    rewrite (IH (attempt + 1) _ _ _ _ ltac:(lia) Hrun).
    replace (Z.to_nat (MaxRetries cfg - attempt))
      with (S (Z.to_nat (MaxRetries cfg - (attempt + 1)))) by lia.
    reflexivity.
Qed.

End Schedule.

(** The cap is a fixed point of the growth of [cfgTriple]. *)
Lemma backoffSchedule_at_cap (n : Z) (len : nat) :
  backoffSchedule (cfgTriple n) (10 * time.Second) len = replicate len (10 * time.Second).
Proof.
  induction len as [|len IH]; [reflexivity|].
  cbn [backoffSchedule replicate]. f_equal.
  change (rateLimiter.nextBackoff (cfgTriple n) (10 * time.Second)) with (10 * time.Second).
  exact IH.
Qed.

Lemma backoffSchedule_triple (n : Z) (len : nat) :
  backoffSchedule (cfgTriple n) (1 * time.Second) len
  = take len ([1 * time.Second; 3 * time.Second; 9 * time.Second]
              ++ replicate len (10 * time.Second)).
Proof.
  destruct len as [|[|[|len]]]; try reflexivity.
  cbn [backoffSchedule].
  change (rateLimiter.nextBackoff (cfgTriple n) (1 * time.Second)) with (3 * time.Second).
  change (rateLimiter.nextBackoff (cfgTriple n) (3 * time.Second)) with (9 * time.Second).
  change (rateLimiter.nextBackoff (cfgTriple n) (9 * time.Second)) with (10 * time.Second).
  rewrite backoffSchedule_at_cap. cbn [app take]. do 3 f_equal.
  rewrite take_replicate. f_equal. lia.
Qed.

(** C4 (as amended). Take a configuration whose initial backoff is
    positive and not above [MaxBackoff], whose [MaxBackoff] is at most
    2^53 ns (so that a backoff converts to [float64] exactly) and whose
    [BackoffMultiplier] is a float of at least 1. In every run of
    [Execute] in which each product [float64(backoff) * BackoffMultiplier]
    fits an [int64] (so that its conversion back to a duration is defined),
    the nominal backoffs the waits are computed from, before jitter and
    whatever retry-after hints the errors carry, do not decrease and never
    exceed [MaxBackoff]. In particular, with [InitialBackoff = 1s],
    [MaxBackoff = 10s] and a multiplier of 3.0, an operation that fails
    with a transient error at each of its [n + 1] attempts is retried
    after the nominal backoffs 1s, 3s, 9s, 10s, 10s, ... *)
Theorem nominal_backoff_monotone_capped :
  (forall (h : heap) (r : rateLimiter.t) (cfg : RateLimitConfig) (ctx : context.t)
          (fn : RetryFunc) (rnd : Z -> float64.t) (ret : option error) (tr : list event),
      h !! rateLimiter.config r = Some cfg ->
      0 < InitialBackoff cfg <= MaxBackoff cfg ->
      MaxBackoff cfg <= 2 ^ 53 ->
      valid_binary float64.prec float64.emax (BackoffMultiplier cfg) = true ->
      float64.leb float64.one (BackoffMultiplier cfg) = true ->
      rateLimiter.Execute h r ctx fn rnd = Some (ret, tr) ->
      Forall (fun b => productFits cfg b = true) (nominalBackoffs tr) ->
      Sorted Z.le (nominalBackoffs tr)
      /\ Forall (fun b => b <= MaxBackoff cfg) (nominalBackoffs tr))
  /\ (forall n : Z,
        0 <= n ->
        exists tr,
          rateLimiter.Execute (heapOf (cfgTriple n)) limiterAt1 context.Background
            (fun _ => Some err429) noJitter = Some (Some err429, tr)
          /\ nominalBackoffs tr
             = take (Z.to_nat n)
                 ([1 * time.Second; 3 * time.Second; 9 * time.Second]
                  ++ replicate (Z.to_nat n) (10 * time.Second))).
Proof.
  split.
  - intros h r cfg ctx fn rnd ret tr Hcfg Hinit Hcap Hvalid Hmult Hrun Hfits.
    unfold rateLimiter.Execute in Hrun. rewrite Hcfg in Hrun.
    destruct (loop_nominal_backoffs cfg Hcap Hvalid Hmult ctx fn rnd _ _ _ _ _ _
                Hinit Hrun) as [Hsorted Hall].
    { eapply Forall_impl; [exact Hfits|]. cbn. auto. }
    split; [exact Hsorted|].
    eapply Forall_impl; [exact Hall|]. cbn. intros b Hb. lia.
  - intros n Hn. unfold rateLimiter.Execute, rateLimiter.run.
    change (heapOf (cfgTriple n) !! rateLimiter.config limiterAt1)
      with (Some (cfgTriple n)).
    assert (forall k : Z, exists e,
               (fun _ : Z => Some err429) k = Some e /\ isRateLimitError (Some e) = true)
      as Hfn by (intros k; exists err429; split; reflexivity).
    destruct (loop_all_transient (cfgTriple n) context.Background (fun _ => Some err429)
                noJitter (S (Z.to_nat (MaxRetries (cfgTriple n) + 1))) Hfn
                ltac:(reflexivity) 0 (InitialBackoff (cfgTriple n)) None)
      as [tr [Hrun _]]; [exact Hn|lia|].
    exists tr. split; [exact Hrun|].
    rewrite (loop_schedule (cfgTriple n) context.Background (fun _ => Some err429) noJitter
               _ Hfn ltac:(reflexivity) 0 _ _ _ _ Hn Hrun).
    cbn [MaxRetries cfgTriple InitialBackoff]. rewrite Z.sub_0_r.
    apply backoffSchedule_triple.
Qed.

Lemma nominal_backoff_monotone_capped_witness :
  exists tr,
    rateLimiter.Execute (heapOf (cfgTriple 5)) limiterAt1 context.Background
      (fun _ => Some err429) noJitter = Some (Some err429, tr)
    /\ Sorted Z.le (nominalBackoffs tr)
    /\ Forall (fun b => b <= MaxBackoff (cfgTriple 5)) (nominalBackoffs tr).
Proof.
  eexists. split; [vm_compute; reflexivity|].
  apply (proj1 nominal_backoff_monotone_capped (heapOf (cfgTriple 5)) limiterAt1
           (cfgTriple 5) context.Background (fun _ => Some err429) noJitter
           (Some err429)).
  - reflexivity.
  - cbn. unfold time.Second. lia.
  - cbn. unfold time.Second. lia.
  - reflexivity.
  - reflexivity.
  - vm_compute. reflexivity.
  - match goal with
    | |- Forall ?P ?l => let l' := eval vm_compute in l in change (Forall P l')
    end.
    repeat (constructor; [vm_compute; reflexivity|]). constructor.
Defined.

(** C4 as stated fails: nothing keeps the initial backoff below the cap.
    With [InitialBackoff = 100s], [MaxBackoff = 10s] and a multiplier of
    2.0 (all left as they are by the defaulting) the first nominal backoff
    exceeds [MaxBackoff] and the second one is smaller than the first. *)
Lemma nominal_backoff_initial_above_cap :
  applyDefaults cfgInverted = cfgInverted
  /\ float64.leb float64.one (BackoffMultiplier cfgInverted) = true
  /\ exists tr,
       rateLimiter.Execute (heapOf cfgInverted) limiterAt1 context.Background
         (fun _ => Some err429) noJitter = Some (Some err429, tr)
       /\ nominalBackoffs tr = [100 * time.Second; 10 * time.Second]
       /\ MaxBackoff cfgInverted = 10 * time.Second.
Proof.
  split; [reflexivity|]. split; [reflexivity|].
  eexists. split; [vm_compute; reflexivity|]. split; reflexivity.
Qed.

(* ===================================================================== *)
(** * More on Execute: success, cancellation, bounds *)
(* ===================================================================== *)

Section ExecuteRuns.

Import rateLimiter.

Variables (cfg : RateLimitConfig) (ctx : context.t) (fn : RetryFunc)
          (rnd : Z -> float64.t).

Lemma waits_emit_call (a : Z) (res : option error) (tr : list event) :
  waits (EvCall a res :: tr) = waits tr.
Proof. reflexivity. Qed.

Lemma waits_emit_waiting (a m : Z) (w : time.Duration) (tr : list event) :
  waits (EvLogWaiting a m w :: tr) = waits tr.
Proof. reflexivity. Qed.

Lemma waits_emit_wait (b w : time.Duration) (el : bool) (tr : list event) :
  waits (EvWait b w el :: tr) = w :: waits tr.
Proof. reflexivity. Qed.

Lemma calls_app (tr1 tr2 : list event) : calls (tr1 ++ tr2) = (calls tr1 ++ calls tr2)%list.
Proof. unfold calls. apply omap_app. Qed.

Lemma waits_app (tr1 tr2 : list event) : waits (tr1 ++ tr2) = (waits tr1 ++ waits tr2)%list.
Proof. unfold waits. apply omap_app. Qed.

(** While the loop condition holds the value of [lastErr] is not used. *)
Lemma loop_lastErr (fuel : nat) (a : Z) (b : time.Duration) (l l' : option error) :
  a <= MaxRetries cfg ->
  loop fuel cfg ctx fn rnd a b l = loop fuel cfg ctx fn rnd a b l'.
Proof.
  intros Ha. destruct fuel as [|fuel]; [reflexivity|]. rewrite !loop_S.
  destruct (Z.leb_spec a (MaxRetries cfg)); [reflexivity|lia].
Qed.

(** [n] attempts that fail with transient errors while the context stays
    open are [n] iterations of the loop: each one invokes the operation
    and waits, and the loop goes on from attempt [a + n] with the backoff
    grown [n] times. *)
Lemma loop_prefix (n : nat) :
  forall (a : Z) (b : time.Duration) (l : option error),
    (forall j, a <= j < a + Z.of_nat n ->
               exists e, fn j = Some e /\ isRateLimitError (Some e) = true) ->
    (forall j, a <= j < a + Z.of_nat n ->
               context.Done ctx (2 * j) = false /\ context.Done ctx (2 * j + 1) = false) ->
    a + Z.of_nat n <= MaxRetries cfg ->
    exists tr0,
      calls tr0 = fn <$> seqZ a (Z.of_nat n)
      /\ length (waits tr0) = n
      /\ nominalBackoffs tr0 = backoffSchedule cfg b n
      /\ forall fuel l' ret tr,
           loop fuel cfg ctx fn rnd (a + Z.of_nat n) (Nat.iter n (nextBackoff cfg) b) l'
             = Some (ret, tr) ->
           loop (n + fuel) cfg ctx fn rnd a b l = Some (ret, (tr0 ++ tr)%list).
Proof.
  induction n as [|n IH]; intros a b l Hfn Hctx Hle.
  - exists []. rewrite Z.add_0_r. repeat split.
    intros fuel l' ret tr H. cbn [Nat.add Nat.iter app] in *.
    rewrite (loop_lastErr fuel a b l l') by lia. exact H.
  - destruct (Hfn a ltac:(lia)) as [e [He Htr]].
    destruct (Hctx a ltac:(lia)) as [Hd1 Hd2].
    destruct (IH (a + 1) (nextBackoff cfg b) (Some e)) as [tr0 [Hc [Hw [Hb Hrun]]]].
    { intros j Hj. apply Hfn. lia. }
    { intros j Hj. apply Hctx. lia. }
    { lia. }
    replace (a + 1 + Z.of_nat n) with (a + Z.of_nat (S n)) in * by lia.
    exists (EvCall a (Some e)
            :: EvLogWaiting (a + 1) (MaxRetries cfg) (calculateBackoff b e (rnd a))
            :: EvWait b (calculateBackoff b e (rnd a)) true :: tr0).
    split; [|split; [|split]].
    + rewrite calls_emit_call, calls_emit_waiting, calls_emit_wait, Hc.
      rewrite (seqZ_cons a) by lia. rewrite fmap_cons, He. do 3 f_equal; lia.
    + rewrite waits_emit_call, waits_emit_waiting, waits_emit_wait. cbn [length].
      by rewrite Hw.
    + rewrite nominal_emit_call, nominal_emit_waiting, nominal_emit_wait, Hb. reflexivity.
    + intros fuel l' ret tr Hk. cbn [Nat.add]. rewrite loop_S.
      destruct (Z.leb_spec a (MaxRetries cfg)); [|lia].
      rewrite Hd1, He, Htr. cbn [negb emit].
      destruct (Z.geb_spec a (MaxRetries cfg)); [lia|].
      rewrite Hd2. cbn [emit]. rewrite Nat.iter_succ_r in Hk.
      rewrite (Hrun fuel l' ret tr Hk). reflexivity.
Qed.


(** The loop never makes more attempts than remain, and never waits
    more often than it has invoked the operation. *)
Lemma loop_bounds (fuel : nat) :
  forall a b l ret tr,
    loop fuel cfg ctx fn rnd a b l = Some (ret, tr) ->
    Z.of_nat (length (calls tr)) <= Z.max 0 (MaxRetries cfg - a + 1)
    /\ (length (waits tr) <= length (calls tr))%nat.
Proof.
  induction fuel as [|fuel IH]; intros a b l ret tr Hrun; [discriminate|].
  rewrite loop_S in Hrun.
  destruct (Z.leb_spec a (MaxRetries cfg));
    [|injection Hrun as <- <-; cbn; lia].
  destruct (context.Done ctx (2 * a)); [injection Hrun as <- <-; cbn; lia|].
  destruct (fn a) as [err|]; [|injection Hrun as <- <-; cbn; lia].
  apply emit_Some in Hrun as [tr1 [Hrun ->]].
  rewrite calls_emit_call, waits_emit_call. cbn [length].
  destruct (isRateLimitError (Some err)); cbn [negb] in Hrun;
    [|injection Hrun as <- <-; cbn; lia].
  destruct (Z.geb_spec a (MaxRetries cfg)); [injection Hrun as <- <-; cbn; lia|].
  apply emit_Some in Hrun as [tr2 [Hrun ->]].
  rewrite calls_emit_waiting, waits_emit_waiting.
  destruct (context.Done ctx (2 * a + 1)); [injection Hrun as <- <-; cbn; lia|].
  apply emit_Some in Hrun as [tr3 [Hrun ->]].
  rewrite calls_emit_wait, waits_emit_wait. cbn [length].
  destruct (IH _ _ _ _ _ Hrun) as [Hc Hw]. lia.
Qed.

(** What the loop returns is the error of the context, or the result of
    the last invocation, or, without any invocation, [lastErr]. *)
Lemma loop_returned_error (fuel : nat) :
  forall a b l ret tr,
    loop fuel cfg ctx fn rnd a b l = Some (ret, tr) ->
    ret = Some (context.Err ctx)
    \/ (calls tr = [] /\ ret = l)
    \/ last (calls tr) = Some ret.
Proof.
  induction fuel as [|fuel IH]; intros a b l ret tr Hrun; [discriminate|].
  rewrite loop_S in Hrun.
  destruct (a <=? MaxRetries cfg); [|injection Hrun as <- <-; right; left; by split].
  destruct (context.Done ctx (2 * a)); [injection Hrun as <- <-; by left|].
  destruct (fn a) as [err|]; [|injection Hrun as <- <-; right; right; reflexivity].
  apply emit_Some in Hrun as [tr1 [Hrun ->]]. rewrite calls_emit_call.
  destruct (isRateLimitError (Some err)); cbn [negb] in Hrun;
    [|injection Hrun as <- <-; right; right; reflexivity].
  destruct (a >=? MaxRetries cfg); [injection Hrun as <- <-; right; right; reflexivity|].
  apply emit_Some in Hrun as [tr2 [Hrun ->]]. rewrite calls_emit_waiting.
  destruct (context.Done ctx (2 * a + 1)); [injection Hrun as <- <-; by left|].
  apply emit_Some in Hrun as [tr3 [Hrun ->]]. rewrite calls_emit_wait.
  destruct (IH _ _ _ _ _ Hrun) as [Hctx|[[Hnil Hret]|Hlast]].
  - by left.
  - right; right. rewrite Hnil, Hret. reflexivity.
  - right; right. rewrite last_cons, Hlast. reflexivity.
Qed.

(** Every invocation that is followed by another one had returned a
    transient error. *)
Lemma loop_retries_transient (fuel : nat) :
  forall a b l ret tr,
    loop fuel cfg ctx fn rnd a b l = Some (ret, tr) ->
    forall (i : nat) res,
      calls tr !! i = Some res -> (S i < length (calls tr))%nat ->
      isRateLimitError res = true.
Proof.
  induction fuel as [|fuel IH]; intros a b l ret tr Hrun i res Hi Hlen; [discriminate|].
  rewrite loop_S in Hrun.
  destruct (a <=? MaxRetries cfg); [|injection Hrun as <- <-; cbn in Hlen; lia].
  destruct (context.Done ctx (2 * a)); [injection Hrun as <- <-; cbn in Hlen; lia|].
  destruct (fn a) as [err|]; [|injection Hrun as <- <-; cbn in Hlen; lia].
  apply emit_Some in Hrun as [tr1 [Hrun ->]]. rewrite calls_emit_call in *.
  destruct (isRateLimitError (Some err)) eqn:Htr; cbn [negb] in Hrun;
    [|injection Hrun as <- <-; cbn in Hlen; lia].
  destruct (a >=? MaxRetries cfg); [injection Hrun as <- <-; cbn in Hlen; lia|].
  apply emit_Some in Hrun as [tr2 [Hrun ->]]. rewrite calls_emit_waiting in *.
  destruct (context.Done ctx (2 * a + 1)); [injection Hrun as <- <-; cbn in Hlen; lia|].
  apply emit_Some in Hrun as [tr3 [Hrun ->]]. rewrite calls_emit_wait in *.
  destruct i as [|i].
  - cbn in Hi. injection Hi as <-. exact Htr.
  - cbn in Hi. cbn [length] in Hlen. eapply IH; [exact Hrun|exact Hi|lia].
Qed.

(** From the second wait on the nominal backoff is capped, whatever the
    configuration holds. *)
Lemma loop_backoffs_capped (fuel : nat) :
  forall a b l ret tr,
    loop fuel cfg ctx fn rnd a b l = Some (ret, tr) ->
    Forall (fun b' => b' <= MaxBackoff cfg) (tail (nominalBackoffs tr)).
Proof.
  induction fuel as [|fuel IH]; intros a b l ret tr Hrun; [discriminate|].
  rewrite loop_S in Hrun.
  destruct (a <=? MaxRetries cfg); [|injection Hrun as <- <-; constructor].
  destruct (context.Done ctx (2 * a)); [injection Hrun as <- <-; constructor|].
  destruct (fn a) as [err|]; [|injection Hrun as <- <-; constructor].
  apply emit_Some in Hrun as [tr1 [Hrun ->]]. rewrite nominal_emit_call.
  destruct (isRateLimitError (Some err)); cbn [negb] in Hrun;
    [|injection Hrun as <- <-; constructor].
  destruct (a >=? MaxRetries cfg); [injection Hrun as <- <-; constructor|].
  apply emit_Some in Hrun as [tr2 [Hrun ->]]. rewrite nominal_emit_waiting.
  destruct (context.Done ctx (2 * a + 1)); [injection Hrun as <- <-; constructor|].
  apply emit_Some in Hrun as [tr3 [Hrun ->]]. rewrite nominal_emit_wait. cbn [tail].
  pose proof (IH _ _ _ _ _ Hrun) as Htail.
  (* the next nominal backoff, if any, is the grown one *)
  destruct fuel as [|fuel']; [discriminate|]. rewrite loop_S in Hrun.
  destruct (a + 1 <=? MaxRetries cfg); [|injection Hrun as <- <-; constructor].
  destruct (context.Done ctx (2 * (a + 1))); [injection Hrun as <- <-; constructor|].
  destruct (fn (a + 1)) as [err'|]; [|injection Hrun as <- <-; constructor].
  apply emit_Some in Hrun as [tr4 [Hrun ->]]. rewrite nominal_emit_call in *.
  destruct (isRateLimitError (Some err')); cbn [negb] in Hrun;
    [|injection Hrun as <- <-; constructor].
  destruct (a + 1 >=? MaxRetries cfg); [injection Hrun as <- <-; constructor|].
  apply emit_Some in Hrun as [tr5 [Hrun ->]]. rewrite nominal_emit_waiting in *.
  assert (nextBackoff cfg b <= MaxBackoff cfg) as Hcap.
  { unfold nextBackoff. destruct (Z.gtb_spec
      (float64.to_int64 (float64.mul (float64.of_int64 b) (BackoffMultiplier cfg)))
      (MaxBackoff cfg)); lia. }
  destruct (context.Done ctx (2 * (a + 1) + 1)).
  - injection Hrun as <- <-. rewrite nominal_emit_wait. repeat constructor. exact Hcap.
  - apply emit_Some in Hrun as [tr6 [Hrun ->]]. rewrite nominal_emit_wait in *.
    constructor; [exact Hcap|exact Htail].
Qed.

End ExecuteRuns.

(** X1. Success short-circuits: when the operation fails with transient
    errors at the attempts before [k], succeeds at attempt [k], and the
    context is open until then, [Execute] returns [nil] after exactly
    [k + 1] invocations and [k] waits, whose nominal backoffs are the
    first [k] values of the schedule; nothing is invoked or awaited after
    the success. *)
Theorem Execute_success_after_retries (h : heap) (r : rateLimiter.t)
    (cfg : RateLimitConfig) (ctx : context.t) (fn : RetryFunc) (rnd : Z -> float64.t)
    (k : Z) :
  h !! rateLimiter.config r = Some cfg ->
  0 <= k <= MaxRetries cfg ->
  (forall j, 0 <= j < k -> exists e, fn j = Some e /\ isRateLimitError (Some e) = true) ->
  fn k = None ->
  (forall i, 0 <= i <= 2 * k -> context.Done ctx i = false) ->
  exists tr,
    rateLimiter.Execute h r ctx fn rnd = Some (None, tr)
    /\ calls tr = fn <$> seqZ 0 (k + 1)
    /\ last (calls tr) = Some None
    /\ Z.of_nat (length (waits tr)) = k
    /\ nominalBackoffs tr = backoffSchedule cfg (InitialBackoff cfg) (Z.to_nat k).
Proof.
  intros Hcfg Hk Hfn Hok Hctx. unfold rateLimiter.Execute, rateLimiter.run. rewrite Hcfg.
  destruct (loop_prefix cfg ctx fn rnd (Z.to_nat k) 0 (InitialBackoff cfg) None)
    as [tr0 [Hc [Hw [Hb Hrun]]]].
  { intros j Hj. apply Hfn. lia. }
  { intros j Hj. split; apply Hctx; lia. }
  { lia. }
  rewrite Z2Nat.id, Z.add_0_l in * by lia.
  exists (tr0 ++ [EvCall k None])%list.
  replace (S (Z.to_nat (MaxRetries cfg + 1)))
    with (Z.to_nat k + S (Z.to_nat (MaxRetries cfg + 1) - Z.to_nat k))%nat by lia.
  split.
  - apply (Hrun _ None). rewrite loop_S.
    destruct (Z.leb_spec k (MaxRetries cfg)); [|lia].
    rewrite (Hctx (2 * k)), Hok by lia. reflexivity.
  - rewrite calls_app, waits_app, Hc. cbn [calls waits omap app]. split; [|split; [|split]].
    + rewrite seqZ_app by lia. rewrite (seqZ_cons _ 1), (seqZ_nil _ (Z.pred 1)) by lia.
      rewrite fmap_app, fmap_cons, fmap_nil, Z.add_0_l, Hok. reflexivity.
    + apply last_snoc.
    + rewrite app_nil_r, Hw. lia.
    + unfold nominalBackoffs in *. rewrite omap_app, Hb. cbn. apply app_nil_r.
Qed.

Lemma Execute_success_after_retries_witness :
  exists tr,
    rateLimiter.Execute (heapOf (cfgTriple 5)) limiterAt1 context.Background
      fnFailsTwice noJitter = Some (None, tr)
    /\ calls tr = fnFailsTwice <$> seqZ 0 (2 + 1)
    /\ last (calls tr) = Some None
    /\ Z.of_nat (length (waits tr)) = 2
    /\ nominalBackoffs tr
       = backoffSchedule (cfgTriple 5) (InitialBackoff (cfgTriple 5)) (Z.to_nat 2).
Proof.
  apply (Execute_success_after_retries (heapOf (cfgTriple 5)) limiterAt1 (cfgTriple 5)
           context.Background fnFailsTwice noJitter 2).
  - reflexivity.
  - cbn. lia.
  - intros j Hj. exists err429. split; [|reflexivity].
    unfold fnFailsTwice. destruct (Z.ltb_spec j 2); [reflexivity|lia].
  - reflexivity.
  - intros i _. reflexivity.
Defined.

(** X2. Cancellation is checked before every attempt: when the context
    is found cancelled at the check that precedes attempt [k], after [k]
    transient failures, [Execute] returns the error of the context and the
    operation has been invoked exactly [k] times; attempt [k] is not
    made. *)
Theorem Execute_cancelled_before_attempt (h : heap) (r : rateLimiter.t)
    (cfg : RateLimitConfig) (ctx : context.t) (fn : RetryFunc) (rnd : Z -> float64.t)
    (k : Z) :
  h !! rateLimiter.config r = Some cfg ->
  0 <= k <= MaxRetries cfg ->
  (forall j, 0 <= j < k -> exists e, fn j = Some e /\ isRateLimitError (Some e) = true) ->
  (forall i, 0 <= i < 2 * k -> context.Done ctx i = false) ->
  context.Done ctx (2 * k) = true ->
  exists tr,
    rateLimiter.Execute h r ctx fn rnd = Some (Some (context.Err ctx), tr)
    /\ calls tr = fn <$> seqZ 0 k
    /\ Z.of_nat (length (calls tr)) = k.
Proof.
  intros Hcfg Hk Hfn Hctx Hdone. unfold rateLimiter.Execute, rateLimiter.run. rewrite Hcfg.
  destruct (loop_prefix cfg ctx fn rnd (Z.to_nat k) 0 (InitialBackoff cfg) None)
    as [tr0 [Hc [_ [_ Hrun]]]].
  { intros j Hj. apply Hfn. lia. }
  { intros j Hj. split; apply Hctx; lia. }
  { lia. }
  rewrite Z2Nat.id, Z.add_0_l in * by lia.
  exists (tr0 ++ [])%list.
  replace (S (Z.to_nat (MaxRetries cfg + 1)))
    with (Z.to_nat k + S (Z.to_nat (MaxRetries cfg + 1) - Z.to_nat k))%nat by lia.
  split.
  - apply (Hrun _ None). rewrite loop_S.
    destruct (Z.leb_spec k (MaxRetries cfg)); [|lia]. rewrite Hdone. reflexivity.
  - rewrite app_nil_r, Hc. split; [reflexivity|].
    rewrite length_fmap, length_seqZ. lia.
Qed.

Lemma Execute_cancelled_before_attempt_witness :
  exists tr,
    rateLimiter.Execute (heapOf (cfgTriple 5)) limiterAt1 (ctxCancelledAt 4)
      (fun _ => Some err429) noJitter = Some (Some (context.Err (ctxCancelledAt 4)), tr)
    /\ calls tr = (fun _ : Z => Some err429) <$> seqZ 0 2
    /\ Z.of_nat (length (calls tr)) = 2.
Proof.
  apply (Execute_cancelled_before_attempt (heapOf (cfgTriple 5)) limiterAt1 (cfgTriple 5)
           (ctxCancelledAt 4) (fun _ => Some err429) noJitter 2).
  - reflexivity.
  - cbn. lia.
  - intros j _. exists err429. split; reflexivity.
  - intros i Hi. cbn. apply Z.leb_gt. lia.
  - reflexivity.
Defined.

(** X3. Cancellation is checked during every wait: when the context is
    cancelled during the wait that follows the failed attempt [k],
    [Execute] returns the error of the context, not the error of the
    operation; the operation has been invoked [k + 1] times, the last wait
    is recorded as interrupted, and no attempt follows it. *)
Theorem Execute_cancelled_during_wait (h : heap) (r : rateLimiter.t)
    (cfg : RateLimitConfig) (ctx : context.t) (fn : RetryFunc) (rnd : Z -> float64.t)
    (k : Z) :
  h !! rateLimiter.config r = Some cfg ->
  0 <= k < MaxRetries cfg ->
  (forall j, 0 <= j <= k -> exists e, fn j = Some e /\ isRateLimitError (Some e) = true) ->
  (forall i, 0 <= i <= 2 * k -> context.Done ctx i = false) ->
  context.Done ctx (2 * k + 1) = true ->
  exists tr b w,
    rateLimiter.Execute h r ctx fn rnd = Some (Some (context.Err ctx), tr)
    /\ calls tr = fn <$> seqZ 0 (k + 1)
    /\ last tr = Some (EvWait b w false).
Proof.
  intros Hcfg Hk Hfn Hctx Hdone. unfold rateLimiter.Execute, rateLimiter.run. rewrite Hcfg.
  destruct (loop_prefix cfg ctx fn rnd (Z.to_nat k) 0 (InitialBackoff cfg) None)
    as [tr0 [Hc [_ [_ Hrun]]]].
  { intros j Hj. apply Hfn. lia. }
  { intros j Hj. split; apply Hctx; lia. }
  { lia. }
  rewrite Z2Nat.id, Z.add_0_l in * by lia.
  destruct (Hfn k ltac:(lia)) as [e [He Htr]].
  set (b := Nat.iter (Z.to_nat k) (rateLimiter.nextBackoff cfg) (InitialBackoff cfg)) in *.
  set (w := rateLimiter.calculateBackoff b e (rnd k)).
  exists (tr0 ++ [EvCall k (Some e); EvLogWaiting (k + 1) (MaxRetries cfg) w;
                  EvWait b w false])%list, b, w.
  replace (S (Z.to_nat (MaxRetries cfg + 1)))
    with (Z.to_nat k + S (Z.to_nat (MaxRetries cfg + 1) - Z.to_nat k))%nat by lia.
  split; [|split].
  - apply (Hrun _ None). rewrite loop_S.
    destruct (Z.leb_spec k (MaxRetries cfg)); [|lia].
    rewrite (Hctx (2 * k)), He, Htr by lia. cbn [negb rateLimiter.emit].
    destruct (Z.geb_spec k (MaxRetries cfg)); [lia|].
    rewrite Hdone. reflexivity.
  - rewrite calls_app, Hc. cbn [calls omap].
    rewrite seqZ_app by lia. rewrite (seqZ_cons _ 1), (seqZ_nil _ (Z.pred 1)) by lia.
    rewrite fmap_app, fmap_cons, fmap_nil, Z.add_0_l, He. reflexivity.
  - rewrite last_app. reflexivity.
Qed.

Lemma Execute_cancelled_during_wait_witness :
  exists tr b w,
    rateLimiter.Execute (heapOf (cfgTriple 5)) limiterAt1 (ctxCancelledAt 3)
      (fun _ => Some err429) noJitter = Some (Some (context.Err (ctxCancelledAt 3)), tr)
    /\ calls tr = (fun _ : Z => Some err429) <$> seqZ 0 (1 + 1)
    /\ last tr = Some (EvWait b w false).
Proof.
  apply (Execute_cancelled_during_wait (heapOf (cfgTriple 5)) limiterAt1 (cfgTriple 5)
           (ctxCancelledAt 3) (fun _ => Some err429) noJitter 1).
  - reflexivity.
  - cbn. lia.
  - intros j _. exists err429. split; reflexivity.
  - intros i Hi. cbn. apply Z.leb_gt. lia.
  - reflexivity.
Defined.

(** X4. Whatever the operation and the context do, [Execute] returns,
    having invoked the operation at most [MaxRetries + 1] times (never, if
    [MaxRetries] is negative), and it has not waited more often than it
    has invoked the operation. *)
Theorem Execute_attempts_bounded (h : heap) (r : rateLimiter.t) (cfg : RateLimitConfig)
    (ctx : context.t) (fn : RetryFunc) (rnd : Z -> float64.t) :
  h !! rateLimiter.config r = Some cfg ->
  exists ret tr,
    rateLimiter.Execute h r ctx fn rnd = Some (ret, tr)
    /\ Z.of_nat (length (calls tr)) <= Z.max 0 (MaxRetries cfg + 1)
    /\ (length (waits tr) <= length (calls tr))%nat.
Proof.
  intros Hcfg. unfold rateLimiter.Execute. rewrite Hcfg.
  destruct (run_returns cfg ctx fn rnd) as [[ret tr] Hrun].
  exists ret, tr. split; [exact Hrun|].
  destruct (loop_bounds cfg ctx fn rnd _ _ _ _ _ _ Hrun) as [Hc Hw].
  split; [|exact Hw]. replace (MaxRetries cfg - 0 + 1) with (MaxRetries cfg + 1) in Hc by lia.
  exact Hc.
Qed.

Lemma Execute_attempts_bounded_witness :
  exists ret tr,
    rateLimiter.Execute (heapOf (cfgTriple 5)) limiterAt1 (ctxCancelledAt 3)
      fnFailsTwice noJitter = Some (ret, tr)
    /\ Z.of_nat (length (calls tr)) <= Z.max 0 (MaxRetries (cfgTriple 5) + 1)
    /\ (length (waits tr) <= length (calls tr))%nat.
Proof.
  apply (Execute_attempts_bounded (heapOf (cfgTriple 5)) limiterAt1 (cfgTriple 5)).
  reflexivity.
Defined.

(** X5. [Execute] never makes up or wraps an error: what it returns is
    the error of the context, or exactly what the last invocation of the
    operation returned ([nil] after a success), or [nil] when the
    operation was never invoked. *)
Theorem Execute_returned_error (h : heap) (r : rateLimiter.t) (cfg : RateLimitConfig)
    (ctx : context.t) (fn : RetryFunc) (rnd : Z -> float64.t) :
  h !! rateLimiter.config r = Some cfg ->
  exists ret tr,
    rateLimiter.Execute h r ctx fn rnd = Some (ret, tr)
    /\ (ret = Some (context.Err ctx)
        \/ (calls tr = [] /\ ret = None)
        \/ last (calls tr) = Some ret).
Proof.
  intros Hcfg. unfold rateLimiter.Execute. rewrite Hcfg.
  destruct (run_returns cfg ctx fn rnd) as [[ret tr] Hrun].
  exists ret, tr. split; [exact Hrun|].
  exact (loop_returned_error cfg ctx fn rnd _ _ _ _ _ _ Hrun).
Qed.

Lemma Execute_returned_error_witness :
  exists ret tr,
    rateLimiter.Execute (heapOf (cfgTriple 5)) limiterAt1 context.Background
      fnFailsTwice noJitter = Some (ret, tr)
    /\ (ret = Some (context.Err context.Background)
        \/ (calls tr = [] /\ ret = None)
        \/ last (calls tr) = Some ret).
Proof.
  apply (Execute_returned_error (heapOf (cfgTriple 5)) limiterAt1 (cfgTriple 5)).
  reflexivity.
Defined.

(** X6. Only transient errors are retried: in every run of [Execute],
    every invocation of the operation that is followed by another one had
    returned an error classified as transient. *)
Theorem Execute_retries_only_transient (h : heap) (r : rateLimiter.t)
    (cfg : RateLimitConfig) (ctx : context.t) (fn : RetryFunc) (rnd : Z -> float64.t) :
  h !! rateLimiter.config r = Some cfg ->
  exists ret tr,
    rateLimiter.Execute h r ctx fn rnd = Some (ret, tr)
    /\ forall (i : nat) res,
         calls tr !! i = Some res -> (S i < length (calls tr))%nat ->
         isRateLimitError res = true.
Proof.
  intros Hcfg. unfold rateLimiter.Execute. rewrite Hcfg.
  destruct (run_returns cfg ctx fn rnd) as [[ret tr] Hrun].
  exists ret, tr. split; [exact Hrun|].
  exact (loop_retries_transient cfg ctx fn rnd _ _ _ _ _ _ Hrun).
Qed.

Lemma Execute_retries_only_transient_witness :
  exists ret tr,
    rateLimiter.Execute (heapOf (cfgTriple 5)) limiterAt1 context.Background
      fnFailsTwice noJitter = Some (ret, tr)
    /\ forall (i : nat) res,
         calls tr !! i = Some res -> (S i < length (calls tr))%nat ->
         isRateLimitError res = true.
Proof.
  apply (Execute_retries_only_transient (heapOf (cfgTriple 5)) limiterAt1 (cfgTriple 5)).
  reflexivity.
Defined.

(** X7. The cap is applied after every growth: in every run of
    [Execute], for every configuration, each nominal backoff after the
    first one is at most [MaxBackoff]. *)
Theorem Execute_backoffs_capped_after_first (h : heap) (r : rateLimiter.t)
    (cfg : RateLimitConfig) (ctx : context.t) (fn : RetryFunc) (rnd : Z -> float64.t) :
  h !! rateLimiter.config r = Some cfg ->
  exists ret tr,
    rateLimiter.Execute h r ctx fn rnd = Some (ret, tr)
    /\ Forall (fun b => b <= MaxBackoff cfg) (tail (nominalBackoffs tr)).
Proof.
  intros Hcfg. unfold rateLimiter.Execute. rewrite Hcfg.
  destruct (run_returns cfg ctx fn rnd) as [[ret tr] Hrun].
  exists ret, tr. split; [exact Hrun|].
  exact (loop_backoffs_capped cfg ctx fn rnd _ _ _ _ _ _ Hrun).
Qed.

Lemma Execute_backoffs_capped_after_first_witness :
  exists ret tr,
    rateLimiter.Execute (heapOf cfgInverted) limiterAt1 context.Background
      (fun _ => Some err429) noJitter = Some (ret, tr)
    /\ Forall (fun b => b <= MaxBackoff cfgInverted) (tail (nominalBackoffs tr)).
Proof.
  apply (Execute_backoffs_capped_after_first (heapOf cfgInverted) limiterAt1 cfgInverted).
  reflexivity.
Defined.

(* ===================================================================== *)
(** * Classification of errors by their text *)
(* ===================================================================== *)

Section Substrings.

Lemma HasPrefix_append (p s : string) : strings.HasPrefix (p ++ s) p = true.
Proof.
  unfold strings.HasPrefix. induction p as [|c p IH]; [by destruct s|].
  rewrite append_cons. cbn [String.prefix].
  destruct (ascii_dec c c) as [_|Hne]; [exact IH|contradiction].
Qed.

Lemma HasPrefix_inv (s p : string) :
  strings.HasPrefix s p = true -> exists rest, s = p ++ rest.
Proof.
  unfold strings.HasPrefix. revert s. induction p as [|c p IH]; intros s H.
  - exists s. reflexivity.
  - destruct s as [|d s]; [discriminate H|]. cbn [String.prefix] in H.
    destruct (ascii_dec c d) as [->|_]; [|discriminate H].
    destruct (IH s H) as [rest ->]. exists rest. reflexivity.
Qed.

Lemma index_from_cons (i : Z) (c : ascii) (s sub : string) :
  strings.index_from i (String c s) sub
  = if strings.HasPrefix (String c s) sub then i else strings.index_from (i + 1) s sub.
Proof. reflexivity. Qed.

Lemma index_from_nil (i : Z) (sub : string) :
  strings.index_from i EmptyString sub
  = if strings.HasPrefix EmptyString sub then i else -1.
Proof. reflexivity. Qed.

(** An occurrence is found, at or before the one exhibited. *)
Lemma index_from_occurs (a b c : string) :
  forall i, 0 <= i ->
    i <= strings.index_from i (a ++ b ++ c) b <= i + strings.len a.
Proof.
  induction a as [|x a IH]; intros i Hi.
  - rewrite append_nil. change (strings.len EmptyString) with 0.
    destruct (b ++ c) as [|y s] eqn:Hbc.
    + rewrite index_from_nil, <- Hbc, HasPrefix_append. lia.
    + rewrite index_from_cons, <- Hbc, HasPrefix_append. lia.
  - rewrite append_cons, index_from_cons, len_cons.
    pose proof (len_nonneg a).
    destruct (strings.HasPrefix _ _); [lia|].
    specialize (IH (i + 1) ltac:(lia)). lia.
Qed.

(** What is found is an occurrence. *)
Lemma index_from_found (s sub : string) :
  forall i, 0 <= i -> 0 <= strings.index_from i s sub ->
    exists a c, s = a ++ sub ++ c.
Proof.
  induction s as [|x s IH]; intros i Hi Hfound.
  - rewrite index_from_nil in Hfound.
    destruct (strings.HasPrefix EmptyString sub) eqn:Hp; [|lia].
    apply HasPrefix_inv in Hp as [rest Hrest]. exists EmptyString, rest. exact Hrest.
  - rewrite index_from_cons in Hfound.
    destruct (strings.HasPrefix (String x s) sub) eqn:Hp.
    + apply HasPrefix_inv in Hp as [rest Hrest]. exists EmptyString, rest. exact Hrest.
    + destruct (IH (i + 1) ltac:(lia) Hfound) as [a [c ->]].
      exists (String x a), c. reflexivity.
Qed.

Lemma Contains_iff (s sub : string) :
  strings.Contains s sub = true <-> exists a c, s = a ++ sub ++ c.
Proof.
  unfold strings.Contains, strings.Index. rewrite Z.leb_le. split.
  - apply index_from_found. lia.
  - intros [a [c ->]]. pose proof (index_from_occurs a sub c 0 ltac:(lia)). lia.
Qed.

Lemma ToLower_append (a b : string) :
  strings.ToLower (a ++ b) = strings.ToLower a ++ strings.ToLower b.
Proof.
  induction a as [|c a IH]; [reflexivity|].
  rewrite append_cons. cbn [strings.ToLower]. rewrite append_cons. by rewrite IH.
Qed.

End Substrings.

(** The classification, in terms of the texts that hold an indicator. *)
Lemma isRateLimitError_occurs (e : error) :
  isRateLimitError (Some e) = true
  <-> exists ind a c,
        In ind rateLimitIndicators /\ strings.ToLower (Error e) = a ++ ind ++ c.
Proof.
  unfold isRateLimitError. rewrite existsb_exists. split.
  - intros [ind [Hin Hc]]. apply Contains_iff in Hc as [a [c Hc]]. eauto.
  - intros [ind [a [c [Hin Hc]]]]. exists ind. split; [exact Hin|].
    apply Contains_iff. eauto.
Qed.

(** X9. Wrapping keeps the classification: an error whose text embeds
    the text of a transient error, as the errors built with [%w] by [New],
    by [Close] and by the adapters do, is classified as transient too. *)
Theorem isRateLimitError_embedded (e e' : error) (pre post : string) :
  isRateLimitError (Some e) = true ->
  Error e' = pre ++ Error e ++ post ->
  isRateLimitError (Some e') = true.
Proof.
  intros Htr Htext. apply isRateLimitError_occurs in Htr as [ind [a [c [Hin Hc]]]].
  apply isRateLimitError_occurs.
  exists ind, (strings.ToLower pre ++ a), (c ++ strings.ToLower post). split; [exact Hin|].
  rewrite Htext, !ToLower_append, Hc, !append_assoc. reflexivity.
Qed.

Lemma isRateLimitError_embedded_witness :
  isRateLimitError
    (Some (wrapError ("failed to initialize stub: " ++ Error err429 ++ "") err429)) = true.
Proof.
  apply (isRateLimitError_embedded err429
           (wrapError ("failed to initialize stub: " ++ Error err429 ++ "") err429)
           "failed to initialize stub: " "").
  - reflexivity.
  - reflexivity.
Defined.

(** X10. The status code plays no part in the retry decision: an
    [HTTPStatusError] with status 429, for which [IsRateLimited] answers
    [true], whose message carries no indicator is not retried; [Execute]
    invokes the operation once and returns the error. *)
Theorem Execute_ignores_status_code (h : heap) (r : rateLimiter.t) (cfg : RateLimitConfig)
    (ctx : context.t) (fn : RetryFunc) (rnd : Z -> float64.t) (msg : string) :
  h !! rateLimiter.config r = Some cfg ->
  0 <= MaxRetries cfg ->
  context.Done ctx 0 = false ->
  fn 0 = Some (HTTPStatusError StatusTooManyRequests msg) ->
  isRateLimitError (Some (errorString msg)) = false ->
  IsRateLimited StatusTooManyRequests = true
  /\ rateLimiter.Execute h r ctx fn rnd
     = Some (Some (HTTPStatusError StatusTooManyRequests msg),
             [EvCall 0 (Some (HTTPStatusError StatusTooManyRequests msg))]).
Proof.
  intros Hcfg Hmax Hctx Hfn Hmsg. split; [reflexivity|].
  unfold rateLimiter.Execute, rateLimiter.run. rewrite Hcfg, loop_S.
  destruct (Z.leb_spec 0 (MaxRetries cfg)); [|lia].
  change (2 * 0) with 0. rewrite Hctx, Hfn.
  change (isRateLimitError (Some (HTTPStatusError StatusTooManyRequests msg)))
    with (isRateLimitError (Some (errorString msg))).
  rewrite Hmsg. reflexivity.
Qed.

Lemma Execute_ignores_status_code_witness :
  IsRateLimited StatusTooManyRequests = true
  /\ rateLimiter.Execute (heapOf (cfgTriple 5)) limiterAt1 context.Background
       (fun _ => Some (HTTPStatusError StatusTooManyRequests "slow down")) noJitter
     = Some (Some (HTTPStatusError StatusTooManyRequests "slow down"),
             [EvCall 0 (Some (HTTPStatusError StatusTooManyRequests "slow down"))]).
Proof.
  apply (Execute_ignores_status_code (heapOf (cfgTriple 5)) limiterAt1 (cfgTriple 5)
           context.Background
           (fun _ => Some (HTTPStatusError StatusTooManyRequests "slow down"))
           noJitter "slow down").
  - reflexivity.
  - cbn. lia.
  - reflexivity.
  - reflexivity.
  - reflexivity.
Defined.

(* ===================================================================== *)
(** * More on newRateLimiter *)
(* ===================================================================== *)

(** X11. Without a configuration [newRateLimiter] allocates a fresh one
    holding the defaults (3 retries, 1s, 60s, 2.0) and leaves every
    existing configuration as it is; limiters built this way never share
    a configuration: a second one gets another location and the first
    one's configuration stays as it was. *)
Theorem newRateLimiter_nil_config (h : heap) (logger logger' : Logger) :
  exists r h',
    newRateLimiter None logger h = Some (r, h')
    /\ h !! rateLimiter.config r = None
    /\ h' !! rateLimiter.config r = Some DefaultRateLimitConfig
    /\ (forall l, l <> rateLimiter.config r -> h' !! l = h !! l)
    /\ exists r2 h2,
         newRateLimiter None logger' h' = Some (r2, h2)
         /\ rateLimiter.config r2 <> rateLimiter.config r
         /\ h2 !! rateLimiter.config r = Some DefaultRateLimitConfig.
Proof.
  assert (forall (lg : Logger) (h0 : heap),
             newRateLimiter None lg h0
             = Some ({| rateLimiter.config := fresh (dom h0); rateLimiter.logger := lg |},
                     <[fresh (dom h0) := DefaultRateLimitConfig]> h0)) as Hnew.
  { intros lg h0. unfold newRateLimiter. rewrite lookup_insert_eq, insert_insert_eq.
    reflexivity. }
  assert (forall h0 : heap, h0 !! fresh (dom h0) = None) as Hfresh.
  { intros h0. apply not_elem_of_dom. apply is_fresh. }
  eexists _, _. split; [apply Hnew|]. cbn [rateLimiter.config].
  split; [apply Hfresh|]. split; [apply lookup_insert_eq|].
  split; [intros l Hl; by rewrite lookup_insert_ne|].
  eexists _, _. split; [apply Hnew|]. cbn [rateLimiter.config].
  assert (fresh (dom (<[fresh (dom h) := DefaultRateLimitConfig]> h)) <> fresh (dom h)) as Hne.
  { intros Heq.
    pose proof (Hfresh (<[fresh (dom h) := DefaultRateLimitConfig]> h)) as Hnone.
    rewrite Heq, lookup_insert_eq in Hnone. discriminate Hnone. }
  split; [exact Hne|]. rewrite lookup_insert_ne by exact Hne. apply lookup_insert_eq.
Qed.

(** X12. Retries cannot be switched off with [MaxRetries = 0]: the zero
    is replaced by the default, so a limiter built from such a
    configuration invokes an operation that keeps failing with transient
    errors four times. *)
Theorem newRateLimiter_zero_MaxRetries (h : heap) (l : loc) (c : RateLimitConfig)
    (logger : Logger) (fn : RetryFunc) (rnd : Z -> float64.t) :
  h !! l = Some c ->
  MaxRetries c = 0 ->
  (forall k, exists e, fn k = Some e /\ isRateLimitError (Some e) = true) ->
  exists r h' tr,
    newRateLimiter (Some l) logger h = Some (r, h')
    /\ rateLimiter.Execute h' r context.Background fn rnd = Some (fn 3, tr)
    /\ length (calls tr) = 4%nat.
Proof.
  intros Hl Hzero Hfn. unfold newRateLimiter. rewrite Hl.
  assert (MaxRetries (applyDefaults c) = 3) as Hmax
    by (rewrite applyDefaults_MaxRetries, Hzero; reflexivity).
  destruct (loop_all_transient (applyDefaults c) context.Background fn rnd
              (S (Z.to_nat (MaxRetries (applyDefaults c) + 1))) Hfn ltac:(reflexivity)
              0 (InitialBackoff (applyDefaults c)) None) as [tr [Hrun Hcalls]];
    [lia|lia|].
  eexists _, _, tr. split; [reflexivity|].
  unfold rateLimiter.Execute, rateLimiter.run. cbn [rateLimiter.config].
  rewrite lookup_insert_eq, Hrun, Hcalls, Hmax. split; [reflexivity|].
  rewrite length_fmap, length_seqZ. reflexivity.
Qed.

Lemma newRateLimiter_zero_MaxRetries_witness :
  exists r h' tr,
    newRateLimiter (Some 1%positive) NopLogger (heapOf cfgPartial) = Some (r, h')
    /\ rateLimiter.Execute h' r context.Background (fun _ => Some err429) noJitter
       = Some ((fun _ : Z => Some err429) 3, tr)
    /\ length (calls tr) = 4%nat.
Proof.
  apply (newRateLimiter_zero_MaxRetries (heapOf cfgPartial) 1%positive cfgPartial NopLogger
           (fun _ => Some err429) noJitter).
  - reflexivity.
  - reflexivity.
  - intros k. exists err429. split; reflexivity.
Defined.

(* ===================================================================== *)
(** * More on the gateway: construction *)
(* ===================================================================== *)

Section Construction.

Variable providerFactories : registry.

Lemma configuredProviders_nil_config (configs : list (option ProviderConfig)) :
  configuredProviders (None :: configs) = configuredProviders configs.
Proof. reflexivity. Qed.

Lemma configuredProviders_config (c : ProviderConfig) (configs : list (option ProviderConfig)) :
  configuredProviders (Some c :: configs) = providerType c :: configuredProviders configs.
Proof. reflexivity. Qed.

(** Configurations whose constructors succeed are registered one after
    the other: each constructor is called once, in the order of the list,
    and the loop goes on with the rest. *)
Lemma registerConfigs_prefix (pre : list (option ProviderConfig)) :
  Forall (constructs providerFactories) pre ->
  forall (g : LLMGateway.t) (rest : list (option ProviderConfig)),
    exists g' tr0,
      LLMGateway.logger g' = LLMGateway.logger g
      /\ (forall p, is_Some (LLMGateway.providers g' !! p)
                    <-> is_Some (LLMGateway.providers g !! p)
                        \/ p ∈ configuredProviders pre)
      /\ factoryCalls tr0 = configuredProviders pre
      /\ closed tr0 = []
      /\ forall res tr,
           registerConfigs providerFactories rest g' = (res, tr) ->
           registerConfigs providerFactories (pre ++ rest) g = (res, (tr0 ++ tr)%list).
Proof.
  induction 1 as [|[c|] pre Hc _ IH]; intros g rest.
  - exists g, []. split; [reflexivity|]. split; [|split; [reflexivity|split; [reflexivity|]]].
    + intros p. rewrite elem_of_nil. tauto.
    + intros res tr H. exact H.
  - destruct Hc as [factory [Hreg Hok]].
    destruct (factory c (LLMGateway.logger g)) as [client oerr] eqn:Hf.
    assert (oerr = None) as -> by (specialize (Hok (LLMGateway.logger g)); by rewrite Hf in Hok).
    destruct (IH {| LLMGateway.providers :=
                      <[providerType c := client]> (LLMGateway.providers g);
                    LLMGateway.logger := LLMGateway.logger g |} rest)
      as [g' [tr0 [Hlog [Hmem [Hfac [Hcl Hrun]]]]]].
    exists g', (EvFactory (providerType c) :: EvLogRegistered (providerType c) :: tr0).
    split; [exact Hlog|]. split; [|split; [|split; [exact Hcl|]]].
    + intros p. rewrite Hmem, configuredProviders_config, elem_of_cons.
      cbn [LLMGateway.providers]. rewrite lookup_insert.
      destruct (decide (providerType c = p)) as [->|Hne].
      * split; intros _; [right; left; reflexivity|left; eauto].
      * split; [intros [H|H]; auto|intros [H|[H|H]]; auto]. congruence.
    + rewrite configuredProviders_config, <- Hfac. reflexivity.
    + intros res tr Hrest. cbn [app]. rewrite registerConfigs_config.
      unfold ProviderFactory in *. rewrite Hreg, Hf, (Hrun res tr Hrest). reflexivity.
  - destruct (IH g rest) as [g' [tr0 [Hlog [Hmem [Hfac [Hcl Hrun]]]]]].
    exists g', tr0. rewrite configuredProviders_nil_config.
    repeat split; try assumption; apply Hmem.
Qed.

End Construction.

(** Logger options leave the provider map alone; the last one wins. *)
Lemma foldl_WithLogger (loggers : list Logger) :
  forall g : LLMGateway.t,
    LLMGateway.providers (foldl (fun g opt => opt g) g (WithLogger <$> loggers))
    = LLMGateway.providers g
    /\ LLMGateway.logger (foldl (fun g opt => opt g) g (WithLogger <$> loggers))
       = default (LLMGateway.logger g) (last loggers).
Proof.
  induction loggers as [|lg loggers IH]; intros g; [by split|].
  cbn [fmap list_fmap foldl]. destruct (IH (WithLogger lg g)) as [Hp Hl].
  rewrite Hp, Hl. split; [reflexivity|].
  rewrite last_cons. destruct (last loggers); reflexivity.
Qed.

(** X13. When the constructor of every configuration is registered and
    succeeds and at least one configuration is not null, [New] returns a
    gateway and no error; exactly the configured providers are registered
    in it, every constructor has been called once, in the order of the
    list, no adapter has been closed, and the gateway carries the logger
    of the last logger option (the no-op logger without one). *)
Theorem New_registers_configured (providerFactories : registry)
    (configs : list (option ProviderConfig)) (loggers : list Logger) :
  Forall (constructs providerFactories) configs ->
  configuredProviders configs <> [] ->
  exists g tr,
    New providerFactories configs (WithLogger <$> loggers) = ((Some g, None), tr)
    /\ (forall p, LLMGateway.IsRegistered g p = true <-> p ∈ configuredProviders configs)
    /\ factoryCalls tr = configuredProviders configs
    /\ closed tr = []
    /\ LLMGateway.logger g = default NopLogger (last loggers).
Proof.
  intros Hall Hne. unfold New.
  set (g0 := foldl (fun g opt => opt g)
               {| LLMGateway.providers := ∅; LLMGateway.logger := NopLogger |}
               (WithLogger <$> loggers)).
  destruct (foldl_WithLogger loggers
              {| LLMGateway.providers := ∅; LLMGateway.logger := NopLogger |}) as [Hp0 Hl0].
  fold g0 in Hp0, Hl0. cbn [LLMGateway.providers LLMGateway.logger] in Hp0, Hl0.
  destruct (registerConfigs_prefix providerFactories configs Hall g0 [])
    as [g [tr0 [Hlog [Hmem [Hfac [Hcl Hrun]]]]]].
  specialize (Hrun (inl g) [] eq_refl). rewrite !app_nil_r in Hrun. rewrite Hrun.
  assert (forall p, LLMGateway.IsRegistered g p = true <-> p ∈ configuredProviders configs)
    as Hreg.
  { intros p. unfold LLMGateway.IsRegistered.
    specialize (Hmem p). rewrite Hp0, lookup_empty in Hmem.
    destruct (LLMGateway.providers g !! p) as [a|].
    - split; [intros _|reflexivity].
      destruct (proj1 Hmem ltac:(eauto)) as [[x Hx]|Hin]; [discriminate Hx|exact Hin].
    - split; [discriminate|]. intros Hin.
      destruct (proj2 Hmem (or_intror Hin)) as [x Hx]. discriminate Hx. }
  assert (size (LLMGateway.providers g) <> O) as Hsize.
  { intros Hz. apply map_size_empty_iff in Hz.
    destruct (configuredProviders configs) as [|p ps] eqn:Hcp; [contradiction|].
    pose proof (proj2 (Hreg p) ltac:(left)) as Hin.
    unfold LLMGateway.IsRegistered in Hin. rewrite Hz, lookup_empty in Hin.
    discriminate Hin. }
  destruct (Z.eqb_spec (Z.of_nat (size (LLMGateway.providers g))) 0) as [Hz|_]; [lia|].
  exists g, tr0. rewrite Hlog, Hl0. auto.
Qed.

Lemma New_registers_configured_witness :
  exists g tr,
    New {[ "stub" := stubFactory ]} [None; Some (stubConfig "stub")]
      (WithLogger <$> [ZerologAdapter "app"]) = ((Some g, None), tr)
    /\ (forall p, LLMGateway.IsRegistered g p = true
                  <-> p ∈ configuredProviders [None; Some (stubConfig "stub")])
    /\ factoryCalls tr = configuredProviders [None; Some (stubConfig "stub")]
    /\ closed tr = []
    /\ LLMGateway.logger g = default NopLogger (last [ZerologAdapter "app"]).
Proof.
  apply (New_registers_configured {[ "stub" := stubFactory ]}
           [None; Some (stubConfig "stub")] [ZerologAdapter "app"]).
  - constructor; [exact I|]. constructor; [|constructor].
    exists stubFactory. split; [reflexivity|]. intros logger. reflexivity.
  - discriminate.
Defined.

(** X14. Registry round trip: after [RegisterProvider p ctor], whatever
    the table held before, a gateway built from one configuration for [p]
    calls [ctor] exactly once and holds the adapter it returned under
    [p]. *)
Theorem RegisterProvider_New_round_trip (providerFactories : registry)
    (ctor : ProviderFactory) (config : ProviderConfig) (client : Provider.t) :
  ctor config NopLogger = (Some client, None) ->
  New (RegisterProvider (providerType config) ctor providerFactories) [Some config] []
  = ((Some {| LLMGateway.providers := {[ providerType config := Some client ]};
              LLMGateway.logger := NopLogger |}, None),
     [EvFactory (providerType config); EvLogRegistered (providerType config)]).
Proof.
  intros Hctor. unfold New, RegisterProvider. cbn [foldl].
  rewrite registerConfigs_config. unfold ProviderFactory in *.
  rewrite lookup_insert_eq. cbn [LLMGateway.logger]. rewrite Hctor.
  cbn [registerConfigs LLMGateway.providers].
  rewrite insert_empty, map_size_singleton. reflexivity.
Qed.

Lemma RegisterProvider_New_round_trip_witness :
  New (RegisterProvider (providerType (stubConfig "stub")) stubFactory
         {[ "stub" := failingFactory ]}) [Some (stubConfig "stub")] []
  = ((Some {| LLMGateway.providers := {[ providerType (stubConfig "stub") := Some stubAdapter ]};
              LLMGateway.logger := NopLogger |}, None),
     [EvFactory (providerType (stubConfig "stub"));
      EvLogRegistered (providerType (stubConfig "stub"))]).
Proof.
  apply (RegisterProvider_New_round_trip {[ "stub" := failingFactory ]} stubFactory
           (stubConfig "stub") stubAdapter).
  reflexivity.
Defined.

(** X15. Without a usable configuration there is no gateway: when the
    list of configurations is empty or holds only null entries, [New]
    returns a [nil] gateway and the error "at least one provider must be
    configured", whatever the registry and the logger options are, and no
    constructor is called. *)
Theorem New_without_configuration (providerFactories : registry)
    (configs : list (option ProviderConfig)) (loggers : list Logger) :
  configuredProviders configs = [] ->
  New providerFactories configs (WithLogger <$> loggers)
  = ((None, Some (errorString "at least one provider must be configured")), []).
Proof.
  intros Hnone. unfold New.
  set (g0 := foldl (fun g opt => opt g)
               {| LLMGateway.providers := ∅; LLMGateway.logger := NopLogger |}
               (WithLogger <$> loggers)).
  destruct (foldl_WithLogger loggers
              {| LLMGateway.providers := ∅; LLMGateway.logger := NopLogger |}) as [Hp0 _].
  fold g0 in Hp0. cbn [LLMGateway.providers] in Hp0.
  assert (registerConfigs providerFactories configs g0 = (inl g0, [])) as ->.
  { clear Hp0. induction configs as [|[c|] configs IH]; [reflexivity|discriminate Hnone|].
    rewrite registerConfigs_nil_config. apply IH. exact Hnone. }
  rewrite Hp0, map_size_empty. reflexivity.
Qed.

Lemma New_without_configuration_witness :
  New {[ "stub" := stubFactory ]} [None; None] (WithLogger <$> [ZerologAdapter "app"])
  = ((None, Some (errorString "at least one provider must be configured")), []).
Proof.
  apply (New_without_configuration {[ "stub" := stubFactory ]} [None; None]
           [ZerologAdapter "app"]).
  reflexivity.
Defined.

(** X16. A failing constructor aborts the construction: when the
    constructors of the configurations before it succeed, [New] returns a
    [nil] gateway and an error that wraps the constructor's error and
    names the provider; the constructors of the later configurations are
    not called, and the adapters built so far are not closed. *)
Theorem New_constructor_failure (providerFactories : registry)
    (pre rest : list (option ProviderConfig)) (config : ProviderConfig)
    (factory : ProviderFactory) (err : error) (loggers : list Logger) :
  Forall (constructs providerFactories) pre ->
  providerFactories !! providerType config = Some factory ->
  (forall logger, (factory config logger).2 = Some err) ->
  exists tr,
    New providerFactories (pre ++ Some config :: rest) (WithLogger <$> loggers)
    = ((None, Some (wrapError ("failed to initialize " ++ providerType config ++ ": "
                                 ++ Error err) err)), tr)
    /\ factoryCalls tr = (configuredProviders pre ++ [providerType config])%list
    /\ closed tr = [].
Proof.
  intros Hpre Hreg Hfail. unfold New.
  set (g0 := foldl (fun g opt => opt g)
               {| LLMGateway.providers := ∅; LLMGateway.logger := NopLogger |}
               (WithLogger <$> loggers)).
  destruct (registerConfigs_prefix providerFactories pre Hpre g0 (Some config :: rest))
    as [g [tr0 [_ [_ [Hfac [Hcl Hrun]]]]]].
  assert (registerConfigs providerFactories (Some config :: rest) g
          = (inr (wrapError ("failed to initialize " ++ providerType config ++ ": "
                               ++ Error err) err), [EvFactory (providerType config)]))
    as Hstep.
  { rewrite registerConfigs_config. unfold ProviderFactory in *. rewrite Hreg.
    specialize (Hfail (LLMGateway.logger g)).
    destruct (factory config (LLMGateway.logger g)) as [client oerr].
    cbn in Hfail. rewrite Hfail. reflexivity. }
  rewrite (Hrun _ _ Hstep). eexists. split; [reflexivity|].
  unfold factoryCalls, closed in *. rewrite !omap_app, Hfac, Hcl. split; reflexivity.
Qed.

Lemma New_constructor_failure_witness :
  exists tr,
    New {[ "stub" := stubFactory; "other" := failingFactory ]}
      ([Some (stubConfig "stub")] ++ Some (stubConfig "other") :: [Some (stubConfig "stub")])
      (WithLogger <$> [])
    = ((None, Some (wrapError ("failed to initialize " ++ providerType (stubConfig "other")
                                 ++ ": " ++ Error (errorString "API key is required"))
                      (errorString "API key is required"))), tr)
    /\ factoryCalls tr
       = (configuredProviders [Some (stubConfig "stub")]
          ++ [providerType (stubConfig "other")])%list
    /\ closed tr = [].
Proof.
  apply (New_constructor_failure {[ "stub" := stubFactory; "other" := failingFactory ]}
           [Some (stubConfig "stub")] [Some (stubConfig "stub")] (stubConfig "other")
           failingFactory (errorString "API key is required") []).
  - constructor; [|constructor]. exists stubFactory. split; [reflexivity|].
    intros logger. reflexivity.
  - reflexivity.
  - intros logger. reflexivity.
Defined.

(* ===================================================================== *)
(** * More on the gateway: dispatch, shutdown, introspection *)
(* ===================================================================== *)

(** X17. [Generate] returns either a response or an error, never both
    and never neither: a response comes with a [nil] error and carries the
    provider of the model; an error comes with a [nil] response and is
    either the "not registered" error of the gateway or, unchanged, the
    error the adapter returned, even when the adapter returned a response
    next to it. *)
Theorem Generate_response_xor_error (g : LLMGateway.t) (ctx : context.t) (model : Model.t)
    (prompt : string) (resp : option GenerationResponse.t) (err : option error) :
  LLMGateway.Generate g ctx model prompt = Returns (resp, err) ->
  (exists r, resp = Some r /\ err = None
             /\ GenerationResponse.Provider r = Model.Provider model)
  \/ (resp = None
      /\ exists e, err = Some e
         /\ ((LLMGateway.providers g !! Model.Provider model = None
              /\ e = errorString ("provider " ++ Model.Provider model ++ " is not registered"))
             \/ exists client o,
                  LLMGateway.providers g !! Model.Provider model = Some (Some client)
                  /\ Provider.Generate client ctx model prompt = (o, Some e))).
Proof.
  unfold LLMGateway.Generate.
  destruct (LLMGateway.providers g !! Model.Provider model) as [[client|]|] eqn:Hreg.
  - destruct (Provider.Generate client ctx model prompt) as [[r|] [e|]] eqn:Hgen;
      intros [= <- <-].
    + right. split; [reflexivity|]. exists e. split; [reflexivity|]. right. eauto.
    + left. eexists. repeat split.
    + right. split; [reflexivity|]. exists e. split; [reflexivity|]. right. eauto.
  - discriminate.
  - intros [= <- <-]. right. split; [reflexivity|]. eexists. split; [reflexivity|].
    left. split; reflexivity.
Qed.

Lemma Generate_response_xor_error_witness :
  (exists r, (None : option GenerationResponse.t) = Some r
             /\ Some (errorString "connection lost") = None
             /\ GenerationResponse.Provider r = Model.Provider stubModel)
  \/ ((None : option GenerationResponse.t) = None
      /\ exists e, Some (errorString "connection lost") = Some e
         /\ ((LLMGateway.providers (gatewayOf stuckAdapter) !! Model.Provider stubModel = None
              /\ e = errorString ("provider " ++ Model.Provider stubModel
                                    ++ " is not registered"))
             \/ exists client o,
                  LLMGateway.providers (gatewayOf stuckAdapter) !! Model.Provider stubModel
                  = Some (Some client)
                  /\ Provider.Generate client context.Background stubModel "hi"
                     = (o, Some e))).
Proof.
  apply (Generate_response_xor_error (gatewayOf stuckAdapter) context.Background stubModel
           "hi" None (Some (errorString "connection lost"))).
  reflexivity.
Defined.

(** Dispatch miss: for a provider that [IsRegistered] reports as
    absent, [Health] and [Generate] (with any model of that provider)
    return the error "provider <id> is not registered", and [Generate]
    returns no response. *)
Theorem dispatch_miss (g : LLMGateway.t) (ctx : context.t) (p : ProviderType) :
  LLMGateway.IsRegistered g p = false ->
  LLMGateway.Health g ctx p
  = Returns (Some (errorString ("provider " ++ p ++ " is not registered")))
  /\ forall model prompt,
       Model.Provider model = p ->
       LLMGateway.Generate g ctx model prompt
       = Returns (None, Some (errorString ("provider " ++ p ++ " is not registered"))).
Proof.
  unfold LLMGateway.IsRegistered, LLMGateway.Health, LLMGateway.Generate.
  destruct (LLMGateway.providers g !! p) as [a|] eqn:Hp; [discriminate|]. intros _.
  split; [reflexivity|]. intros model prompt <-. rewrite Hp. reflexivity.
Qed.

Lemma dispatch_miss_witness :
  LLMGateway.Health (gatewayOf stubAdapter) context.Background "openai"
  = Returns (Some (errorString ("provider " ++ "openai" ++ " is not registered")))
  /\ forall model prompt,
       Model.Provider model = "openai" ->
       LLMGateway.Generate (gatewayOf stubAdapter) context.Background model prompt
       = Returns (None, Some (errorString ("provider " ++ "openai" ++ " is not registered"))).
Proof.
  apply (dispatch_miss (gatewayOf stubAdapter) context.Background "openai").
  reflexivity.
Defined.

Section Shutdown.

Import LLMGateway.

Lemma append_empty_r (s : string) : s ++ EmptyString = s.
Proof.
  induction s as [|c s IH]; [reflexivity|]. rewrite append_cons. by rewrite IH.
Qed.

Lemma closeFailures_cons (name : ProviderType) (provider : Provider.t)
    (entries : list (ProviderType * option Provider.t)) :
  closeFailures ((name, Some provider) :: entries)
  = match Provider.Close provider with
    | Some err =>
        wrapError ("provider " ++ name ++ ": " ++ Error err) err :: closeFailures entries
    | None => closeFailures entries
    end.
Proof.
  unfold closeFailures. cbn [omap list_omap].
  destruct (Provider.Close provider); reflexivity.
Qed.

(** The loop of [Close] collects the failure of every entry. *)
Lemma closeAll_collects (entries : list (ProviderType * option Provider.t)) :
  Forall (fun e => is_Some e.2) entries ->
  forall errors,
    exists tr,
      closeAll entries errors = (Returns (errors ++ closeFailures entries)%list, tr).
Proof.
  induction 1 as [|[name client] entries [provider Hsome] _ IH]; intros errors.
  - exists []. cbn [closeAll]. unfold closeFailures. cbn [omap list_omap].
    by rewrite app_nil_r.
  - simpl in Hsome. subst client. cbn [closeAll]. rewrite closeFailures_cons.
    destruct (Provider.Close provider) as [err|].
    + destruct (IH (errors ++ [wrapError ("provider " ++ name ++ ": " ++ Error err) err])%list)
        as [tr ->].
      eexists. rewrite <- app_assoc. reflexivity.
    + destruct (IH errors) as [tr ->]. eexists. reflexivity.
Qed.

(** Each text of a list occurs in the list joined with a separator. *)
Lemma concat_occurs (sep x : string) (ls : list string) :
  In x ls -> exists a c, String.concat sep ls = a ++ x ++ c.
Proof.
  induction ls as [|y ls IH]; [contradiction|]. intros [->|Hin].
  - destruct ls as [|z ls].
    + exists EmptyString, EmptyString. cbn [String.concat].
      by rewrite append_nil, append_empty_r.
    + exists EmptyString, (sep ++ String.concat sep (z :: ls)). reflexivity.
  - destruct (IH Hin) as [a [c Hc]]. destruct ls as [|z ls]; [contradiction|].
    exists (y ++ sep ++ a), c.
    change (String.concat sep (y :: z :: ls)) with (y ++ sep ++ String.concat sep (z :: ls)).
    rewrite Hc, !append_assoc. reflexivity.
Qed.

End Shutdown.

(** X19. [Close] succeeds exactly when every adapter does: when no entry
    of the map holds a [nil] adapter, [Close] returns, and the error it
    returns is [nil] if and only if the [Close] of every registered
    adapter returned [nil]. *)
Theorem Close_nil_iff_clean (g : LLMGateway.t) :
  (forall p client, LLMGateway.providers g !! p = Some client -> is_Some client) ->
  exists err tr,
    LLMGateway.Close g = (Returns (g, err), tr)
    /\ (err = None
        <-> forall p a, LLMGateway.providers g !! p = Some (Some a) ->
                        Provider.Close a = None).
Proof.
  intros Hnonnil. unfold LLMGateway.Close.
  destruct (closeAll_collects (map_to_list (LLMGateway.providers g))) with (errors := @nil error)
    as [tr ->].
  { apply Forall_forall. intros [p client] Hin.
    apply elem_of_map_to_list in Hin. exact (Hnonnil p client Hin). }
  cbn [app].
  assert (closeFailures (map_to_list (LLMGateway.providers g)) = []
          <-> forall p a, LLMGateway.providers g !! p = Some (Some a) ->
                          Provider.Close a = None) as Hiff.
  { split.
    - intros Hnil p a Hp. apply elem_of_map_to_list in Hp.
      destruct (Provider.Close a) as [cerr|] eqn:Hc; [|reflexivity].
      assert (wrapError ("provider " ++ p ++ ": " ++ Error cerr) cerr
                ∈ closeFailures (map_to_list (LLMGateway.providers g))) as Hin.
      { unfold closeFailures. apply list_elem_of_omap. exists (p, Some a).
        split; [exact Hp|]. by rewrite Hc. }
      rewrite Hnil in Hin. by apply elem_of_nil in Hin.
    - intros Hclean. unfold closeFailures.
      destruct (omap _ _) as [|e es] eqn:Hom; [reflexivity|].
      assert (e ∈ e :: es) as Hin by left. rewrite <- Hom in Hin.
      apply list_elem_of_omap in Hin as [[p [a|]] [Hp He]]; [|discriminate He].
      apply elem_of_map_to_list in Hp. rewrite (Hclean p a Hp) in He. discriminate He. }
  destruct (closeFailures (map_to_list (LLMGateway.providers g))) as [|e es] eqn:Hf.
  - eexists _, tr. split; [reflexivity|]. split; [intros _; by apply Hiff|reflexivity].
  - eexists _, tr. split; [reflexivity|]. split; [discriminate|].
    intros Hclean. apply Hiff in Hclean. discriminate Hclean.
Qed.

Lemma Close_nil_iff_clean_witness :
  exists err tr,
    LLMGateway.Close (gatewayOf stuckAdapter) = (Returns (gatewayOf stuckAdapter, err), tr)
    /\ (err = None
        <-> forall p a, LLMGateway.providers (gatewayOf stuckAdapter) !! p = Some (Some a) ->
                        Provider.Close a = None).
Proof.
  apply (Close_nil_iff_clean (gatewayOf stuckAdapter)).
  intros p client H. unfold gatewayOf in H. simpl in H.
  apply lookup_singleton_Some in H as [_ <-]. eexists. reflexivity.
Defined.

(** X20. [Close] does not stop at the first failure and names every
    failing provider: when no entry holds a [nil] adapter, then for every
    registered adapter whose [Close] fails, the error [Close] returns
    contains "provider <id>: <text of the adapter's error>". *)
Theorem Close_names_failures (g : LLMGateway.t) (p : ProviderType) (a : Provider.t)
    (cerr : error) :
  (forall q client, LLMGateway.providers g !! q = Some client -> is_Some client) ->
  LLMGateway.providers g !! p = Some (Some a) ->
  Provider.Close a = Some cerr ->
  exists e tr,
    LLMGateway.Close g = (Returns (g, Some e), tr)
    /\ strings.Contains (Error e) ("provider " ++ p ++ ": " ++ Error cerr) = true.
Proof.
  intros Hnonnil Hp Hc. unfold LLMGateway.Close.
  destruct (closeAll_collects (map_to_list (LLMGateway.providers g))) with (errors := @nil error)
    as [tr ->].
  { apply Forall_forall. intros [q client] Hin.
    apply elem_of_map_to_list in Hin. exact (Hnonnil q client Hin). }
  cbn [app].
  assert (wrapError ("provider " ++ p ++ ": " ++ Error cerr) cerr
            ∈ closeFailures (map_to_list (LLMGateway.providers g))) as Hin.
  { unfold closeFailures. apply list_elem_of_omap. exists (p, Some a).
    split; [by apply elem_of_map_to_list|]. by rewrite Hc. }
  destruct (closeFailures (map_to_list (LLMGateway.providers g))) as [|e es] eqn:Hf;
    [by apply elem_of_nil in Hin|].
  eexists _, tr. split; [reflexivity|].
  cbn [Error]. unfold LLMGateway.formatErrors.
  apply list_elem_of_In in Hin.
  apply (in_map Error) in Hin. cbn [Error] in Hin.
  destruct (concat_occurs " " _ _ Hin) as [x [y Hxy]].
  apply Contains_iff. rewrite Hxy.
  exists ("failed to close providers: " ++ "[" ++ x), (y ++ "]").
  rewrite !append_assoc. reflexivity.
Qed.

Lemma Close_names_failures_witness :
  exists e tr,
    LLMGateway.Close (gatewayOf stuckAdapter) = (Returns (gatewayOf stuckAdapter, Some e), tr)
    /\ strings.Contains (Error e)
         ("provider " ++ "stub" ++ ": " ++ Error (errorString "socket busy")) = true.
Proof.
  apply (Close_names_failures (gatewayOf stuckAdapter) "stub" stuckAdapter
           (errorString "socket busy")).
  - intros q client H. unfold gatewayOf in H. simpl in H.
    apply lookup_singleton_Some in H as [_ <-]. eexists. reflexivity.
  - reflexivity.
  - reflexivity.
Defined.

(** X21. The two ways of asking agree: [ListRegisteredProviders] lists
    every provider for which [IsRegistered] answers [true], and no other,
    each one once. *)
Theorem ListRegisteredProviders_spec (g : LLMGateway.t) :
  NoDup (LLMGateway.ListRegisteredProviders g)
  /\ forall p, p ∈ LLMGateway.ListRegisteredProviders g
               <-> LLMGateway.IsRegistered g p = true.
Proof.
  unfold LLMGateway.ListRegisteredProviders, LLMGateway.IsRegistered.
  split; [apply NoDup_fst_map_to_list|]. intros p. rewrite list_elem_of_fmap. split.
  - intros [[q a] [-> Hin]]. apply elem_of_map_to_list in Hin. cbn. by rewrite Hin.
  - destruct (LLMGateway.providers g !! p) as [a|] eqn:Hp; [intros _|discriminate].
    exists (p, a). split; [reflexivity|]. by apply elem_of_map_to_list.
Qed.

Section TruncateString.

Lemma substring_prefix (n : nat) :
  forall s : string,
    (n <= String.length s)%nat ->
    exists rest,
      s = String.substring 0 n s ++ rest
      /\ String.length (String.substring 0 n s) = n.
Proof.
  induction n as [|n IH]; intros s Hn.
  - exists s. destruct s; split; reflexivity.
  - destruct s as [|c s]; [cbn in Hn; lia|]. cbn [String.length] in Hn.
    destruct (IH s ltac:(lia)) as [rest [Hs Hlen]].
    exists rest. cbn [String.substring]. rewrite append_cons. cbn [String.length].
    split; [by rewrite <- Hs|by rewrite Hlen].
Qed.

End TruncateString.

(** X22. [truncateString] with a limit that is not negative returns a
    text of at most [maxLen + 3] bytes: the text itself when it is short
    enough, otherwise its first [maxLen] bytes followed by three points.
    With a negative limit it panics, whatever the text. *)
Theorem truncateString_spec (s : string) (maxLen : Z) :
  (0 <= maxLen ->
   exists t,
     truncateString s maxLen = Returns t
     /\ strings.len t <= maxLen + 3
     /\ (strings.len s <= maxLen -> t = s)
     /\ (maxLen < strings.len s ->
         exists pre rest, s = pre ++ rest /\ strings.len pre = maxLen /\ t = pre ++ "..."))
  /\ (maxLen < 0 ->
      truncateString s maxLen = Panics "runtime error: slice bounds out of range").
Proof.
  unfold truncateString. pose proof (len_nonneg s) as Hlen. split.
  - intros Hmax. destruct (Z.leb_spec (strings.len s) maxLen) as [Hshort|Hlong].
    + exists s. split; [reflexivity|]. split; [lia|]. split; [reflexivity|lia].
    + destruct (Z.ltb_spec maxLen 0) as [Hneg|_]; [lia|].
      destruct (substring_prefix (Z.to_nat maxLen) s) as [rest [Hs Hpre]];
        [unfold strings.len in Hlong; lia|].
      unfold strings.slice. rewrite Z.sub_0_r. change (Z.to_nat 0) with O.
      eexists. split; [reflexivity|].
      assert (strings.len (String.substring 0 (Z.to_nat maxLen) s) = maxLen) as Hl
        by (unfold strings.len; rewrite Hpre; lia).
      split; [rewrite len_append, Hl; reflexivity|]. split; [lia|].
      intros _. eexists _, rest. split; [exact Hs|]. split; [exact Hl|reflexivity].
  - intros Hneg. destruct (Z.leb_spec (strings.len s) maxLen) as [Hshort|_]; [lia|].
    destruct (Z.ltb_spec maxLen 0) as [_|Hnn]; [reflexivity|lia].
Qed.

Lemma truncateString_spec_witness :
  (0 <= 5 ->
   exists t,
     truncateString "tell me a story" 5 = Returns t
     /\ strings.len t <= 5 + 3
     /\ (strings.len "tell me a story" <= 5 -> t = "tell me a story")
     /\ (5 < strings.len "tell me a story" ->
         exists pre rest,
           "tell me a story" = pre ++ rest /\ strings.len pre = 5 /\ t = pre ++ "..."))
  /\ (5 < 0 ->
      truncateString "tell me a story" 5 = Panics "runtime error: slice bounds out of range").
Proof. apply (truncateString_spec "tell me a story" 5). Defined.

(* ===================================================================== *)
(** * Backoff schedule from the configuration *)
(* ===================================================================== *)

(** X23. Monotone, capped backoff from the configuration alone: when
    [0 < InitialBackoff <= MaxBackoff <= 2^53] nanoseconds and the
    multiplier is a finite number in [1, 512), the nominal backoffs of
    every run of [Execute] do not decrease and never exceed [MaxBackoff],
    whatever the operation, the context and the jitter. *)
Corollary nominal_backoff_monotone_below_512 (h : heap) (r : rateLimiter.t)
    (cfg : RateLimitConfig) (ctx : context.t) (fn : RetryFunc) (rnd : Z -> float64.t)
    (ret : option error) (tr : list event) :
  h !! rateLimiter.config r = Some cfg ->
  0 < InitialBackoff cfg <= MaxBackoff cfg ->
  MaxBackoff cfg <= 2 ^ 53 ->
  valid_binary float64.prec float64.emax (BackoffMultiplier cfg) = true ->
  float64.leb float64.one (BackoffMultiplier cfg) = true ->
  float64.ltb (BackoffMultiplier cfg) (float64.of_dyadic 512 0) = true ->
  rateLimiter.Execute h r ctx fn rnd = Some (ret, tr) ->
  Sorted Z.le (nominalBackoffs tr)
  /\ Forall (fun b => b <= MaxBackoff cfg) (nominalBackoffs tr).
Proof.
  intros Hcfg Hinit Hcap Hvalid Hmult Hbelow Hrun.
  unfold rateLimiter.Execute in Hrun. rewrite Hcfg in Hrun.
  destruct (loop_nominal_backoffs cfg Hcap Hvalid Hmult ctx fn rnd _ _ _ _ _ _
              Hinit Hrun) as [Hsorted Hall].
  { apply Forall_forall. intros b _ Hb. apply mul_of_int64_fits; [lia|assumption..]. }
  split; [exact Hsorted|].
  eapply Forall_impl; [exact Hall|]. cbn. intros b Hb. lia.
Qed.

Lemma nominal_backoff_monotone_below_512_witness :
  exists tr,
    rateLimiter.Execute (heapOf (cfgTriple 3)) limiterAt1 context.Background
      (fun _ => Some err429) noJitter = Some (Some err429, tr)
    /\ Sorted Z.le (nominalBackoffs tr)
    /\ Forall (fun b => b <= MaxBackoff (cfgTriple 3)) (nominalBackoffs tr).
Proof.
  eexists. split; [vm_compute; reflexivity|].
  apply (nominal_backoff_monotone_below_512 (heapOf (cfgTriple 3)) limiterAt1
           (cfgTriple 3) context.Background (fun _ => Some err429) noJitter
           (Some err429)).
  - reflexivity.
  - cbn. unfold time.Second. lia.
  - cbn. unfold time.Second. lia.
  - reflexivity.
  - reflexivity.
  - reflexivity.
  - vm_compute. reflexivity.
Defined.

(* ===================================================================== *)
(** * Retry-after hints with an integral number *)
(* ===================================================================== *)

Section IntegralHint.

Lemma is_digit_not_dot (c : ascii) : strconv.is_digit c = true -> strconv.is_dot c = false.
Proof. destruct c as [[] [] [] [] [] [] [] []]; vm_compute; congruence. Qed.

Lemma readDecimal_digits (s : string) :
  allDigits s = true ->
  forall n, strconv.readDecimal s false true n 0
            = Some (fold_left (fun acc c => 10 * acc + strconv.digit_val c)
                      (list_ascii_of_string s) n, 0).
Proof.
  induction s as [|c s IH]; intros Hd n; [reflexivity|].
  cbn [allDigits] in Hd. apply andb_true_iff in Hd as [Hc Hs].
  cbn [strconv.readDecimal list_ascii_of_string fold_left].
  rewrite (is_digit_not_dot c Hc), Hc. exact (IH Hs _).
Qed.

Lemma readDecimal_decimalValue (s : string) :
  allDigits s = true -> s <> EmptyString ->
  strconv.readDecimal s false false 0 0 = Some (decimalValue s, 0).
Proof.
  destruct s as [|c s]; [congruence|]. intros Hd _.
  cbn [allDigits] in Hd. apply andb_true_iff in Hd as [Hc Hs].
  unfold decimalValue. cbn [strconv.readDecimal list_ascii_of_string fold_left].
  rewrite (is_digit_not_dot c Hc), Hc. exact (readDecimal_digits s Hs _).
Qed.

Lemma binary_round_aux_even (q : positive) (e : Z) :
  Z.pos (digits2_pos q) = 53 -> -1075 <= e <= 970 ->
  binary_round_aux float64.prec float64.emax false (Z.pos q~0) e loc_Exact
  = S754_finite false q (e + 1).
Proof.
  intros Hd He. unfold binary_round_aux.
  rewrite (shr_fexp_shift _ _ _ 1).
  2:{ cbn [Zdigits2 digits2_pos]. rewrite Pos2Z.inj_succ, Hd.
      unfold fexp, SpecFloat.emin, float64.prec, float64.emax. lia. }
  change (Nat.iter (Pos.to_nat 1) shr_1 (shr_record_of_loc (Z.pos q~0) loc_Exact))
    with {| shr_m := Z.pos q; shr_r := false; shr_s := false |}.
  cbn [shr_m loc_of_shr_record round_nearest_even].
  rewrite shr_fexp_noshift.
  2:{ cbn [Zdigits2]. rewrite Hd.
      unfold fexp, SpecFloat.emin, float64.prec, float64.emax. lia. }
  cbn [shr_record_of_loc shr_m].
  destruct (Z.leb_spec (e + 1) (float64.emax - float64.prec)) as [_|Hgt]; [reflexivity|].
  unfold float64.prec, float64.emax in Hgt. lia.
Qed.

Lemma div_eucl_1 (a : Z) : Z.div_eucl a 1 = (a, 0).
Proof.
  pose proof (Z.div_1_r a) as Hq. pose proof (Z.mod_1_r a) as Hr.
  unfold Z.div, Z.modulo in Hq, Hr. destruct (Z.div_eucl a 1) as [q r].
  cbn in Hq, Hr. by subst.
Qed.

Lemma nearest_ratio_integer (p : positive) :
  Z.pos p < 2 ^ 53 ->
  exists q e,
    strconv.nearest_ratio (Z.pos p) 1 = S754_finite false q e
    /\ -52 <= e <= 0
    /\ Z.pos q = Z.pos p * 2 ^ (- e).
Proof.
  intros Hp. destruct (digits2_pos_bounds p) as [Hlo Hhi].
  pose proof (Pos2Z.is_pos (digits2_pos p)) as Hd.
  assert (Z.pos (digits2_pos p) <= 53) as Hd53.
  { assert (Z.pos (digits2_pos p) - 1 < 53); [|lia].
    apply (Z.pow_lt_mono_r_iff 2); lia. }
  unfold strconv.nearest_ratio, SFdiv_core_binary.
  cbn [Zdigits2 digits2_pos].
  set (d := Z.pos (digits2_pos p)) in *.
  set (e' := Z.min _ _).
  assert (e' = d - 54) as He'
    by (subst e'; unfold fexp, SpecFloat.emin, float64.prec, float64.emax; lia).
  clearbody e'. subst e'.
  assert (2 ^ 52 <= Z.pos p * 2 ^ (53 - d) < 2 ^ 53) as Hq.
  { assert (2 ^ 52 = 2 ^ (d - 1) * 2 ^ (53 - d)) as H52
      by (rewrite <- Z.pow_add_r by lia; f_equal; lia).
    assert (2 ^ 53 = 2 ^ d * 2 ^ (53 - d)) as H53
      by (rewrite <- Z.pow_add_r by lia; f_equal; lia).
    rewrite H52, H53.
    pose proof (Z.pow_pos_nonneg 2 (53 - d) ltac:(lia) ltac:(lia)). nia. }
  assert (0 < Z.pos p * 2 ^ (53 - d)) as Hqpos.
  { eapply Z.lt_le_trans; [|exact (proj1 Hq)]. reflexivity. }
  destruct (Z.pos p * 2 ^ (53 - d)) as [|q|q] eqn:Hqeq; [lia| |lia].
  assert (0 - 0 - (d - 54) = Z.pos (Z.to_pos (54 - d))) as -> by lia.
  assert (Z.shiftl (Z.pos p) (Z.pos (Z.to_pos (54 - d))) = Z.pos q~0) as ->.
  { rewrite Z.shiftl_mul_pow2 by lia. rewrite Z2Pos.id by lia.
    replace (54 - d) with (Z.succ (53 - d)) by lia.
    rewrite Z.pow_succ_r by lia. rewrite (Pos2Z.inj_xO q), <- Hqeq. lia. }
  rewrite div_eucl_1. change (new_location 1 0) with loc_Exact.
  rewrite binary_round_aux_even; [|apply digits2_pos_unique; exact Hq|lia].
  exists q, (d - 54 + 1). split; [reflexivity|]. split; [lia|].
  replace (- (d - 54 + 1)) with (53 - d) by lia. exact (eq_sym Hqeq).
Qed.

Lemma trunc_integer (q : positive) (e n : Z) :
  -52 <= e <= 0 -> Z.pos q = n * 2 ^ (- e) ->
  float64.trunc (S754_finite false q e) = Some n.
Proof.
  intros He Hq. cbn [float64.trunc]. rewrite Hq.
  destruct (Z.leb_spec 0 e) as [H0|Hneg].
  - assert (e = 0) as -> by lia. cbn. f_equal. lia.
  - f_equal. apply Z.div_mul. pose proof (Z.pow_pos_nonneg 2 (- e) ltac:(lia) ltac:(lia)). lia.
Qed.

(** A text of digits is parsed to the float of its value, exactly. *)
Lemma ParseFloat_digits (num : string) :
  allDigits num = true -> num <> EmptyString ->
  0 < decimalValue num < 2 ^ 53 ->
  exists f,
    strconv.ParseFloat num = Some f
    /\ float64.to_int64 f = decimalValue num.
Proof.
  intros Hd Hne [Hpos Hlt]. unfold strconv.ParseFloat.
  rewrite (readDecimal_decimalValue num Hd Hne).
  destruct (decimalValue num) as [|p|p] eqn:Hv; [lia| |lia].
  cbn [Z.eqb]. change (10 ^ 0) with 1.
  destruct (nearest_ratio_integer p Hlt) as [q [e [-> [He Hq]]]].
  eexists. split; [reflexivity|].
  unfold float64.to_int64. rewrite (trunc_integer q e (Z.pos p) He Hq).
  assert (in_int64 (Z.pos p) = true) as ->; [|reflexivity].
  unfold in_int64, min_int64, max_int64.
  assert (2 ^ 53 < 2 ^ 63) by reflexivity. lia.
Qed.

Lemma allDigits_allNumeric (s : string) : allDigits s = true -> allNumeric s = true.
Proof.
  induction s as [|c s IH]; [reflexivity|]. cbn [allDigits allNumeric].
  intros [Hc Hs]%andb_true_iff. by rewrite Hc, (IH Hs).
Qed.

Lemma extractLoop_skip (errStr : string) (qs ps : list string) :
  Forall (fun q => strings.Index (strings.ToLower errStr) q = -1) qs ->
  extractLoop errStr (qs ++ ps) = extractLoop errStr ps.
Proof.
  induction 1 as [|q qs Hq _ IH]; [reflexivity|].
  cbn [app extractLoop]. unfold tryPattern at 1. rewrite Hq. exact IH.
Qed.

Lemma wrap64_in_range (z : Z) : min_int64 <= z <= max_int64 -> wrap64 z = z.
Proof.
  unfold wrap64, min_int64, max_int64. intros Hz.
  rewrite Z.mod_small; [lia|].
  assert (2 ^ 64 = 2 * 2 ^ 63) as -> by reflexivity. lia.
Qed.

Lemma hintUnit_bounds (pattern : string) : 1000000 <= hintUnit pattern <= 1000000000.
Proof.
  unfold hintUnit, time.Millisecond, time.Second.
  destruct (strings.Contains pattern "ms"); lia.
Qed.

(** One iteration of the loop of [extractRetryAfter], on a text in
    which the first occurrence of the pattern, in any letter case, is
    followed by a number. *)
Lemma tryPattern_number_written (pre written num post pattern : string) :
  strings.Index (strings.ToLower (pre ++ written ++ num ++ post)) pattern = strings.len pre ->
  strings.len written = strings.len pattern ->
  allNumeric num = true -> num <> EmptyString -> endsNumber post = true ->
  tryPattern (pre ++ written ++ num ++ post) pattern
  = match strconv.ParseFloat num with
    | Some val => Some (wrap64 (float64.to_int64 val * hintUnit pattern))
    | None => None
    end.
Proof.
  intros Hidx Hwritten Hnum Hne Hpost. unfold tryPattern. rewrite Hidx.
  pose proof (len_nonneg pre) as Hpre.
  destruct (Z.eqb_spec (strings.len pre) (-1)) as [Heq|_]; [lia|].
  assert (strings.len pre + strings.len pattern = strings.len (pre ++ written)) as Hstart
    by (by rewrite len_append, Hwritten).
  rewrite Hstart.
  assert (pre ++ written ++ num ++ post = (pre ++ written) ++ num ++ post) as Herr
    by (by rewrite append_assoc).
  rewrite Herr, scanNumber_run; [|assumption|assumption|].
  2:{ rewrite !length_append. lia. }
  assert (0 < strings.len num) as Hlen.
  { pose proof (len_nonneg num). destruct num; [contradiction|]. rewrite len_cons.
    unfold strings.len. lia. }
  destruct (Z.gtb_spec (strings.len (pre ++ written) + strings.len num)
              (strings.len (pre ++ written))) as [_|Hle]; [|lia].
  rewrite slice_append_r by lia.
  assert (String.substring 0 (Z.to_nat (strings.len num)) (num ++ post) = num) as ->
    by (unfold strings.len; rewrite Nat2Z.id; apply substring_append_l).
  unfold hintUnit. destruct (strconv.ParseFloat num); [|reflexivity].
  destruct (strings.Contains pattern "ms"); reflexivity.
Qed.

End IntegralHint.

(** X24. An integral retry-after hint is honoured exactly. When the
    text of the error is ASCII and holds none of the patterns that come
    before [pattern] in the list, the first occurrence of [pattern] (in
    any letter case) is followed by a run of decimal digits of value
    [n > 0] and then by the end of the text or a byte that is neither a
    digit nor a point, and [n] units fit a [Duration], then
    [extractRetryAfter] returns [n] milliseconds for [retry_after_ms=] and
    [n] seconds for the other patterns, and [calculateBackoff] returns
    that wait whatever the backoff and the jitter. *)
Theorem calculateBackoff_integral_hint (i : nat) (pattern pre written num post : string)
    (e : error) (baseBackoff : time.Duration) (u : float64.t) :
  strings.isASCII (Error e) = true ->
  patterns !! i = Some pattern ->
  Forall (fun q => strings.Index (strings.ToLower (Error e)) q = -1) (take i patterns) ->
  Error e = pre ++ written ++ num ++ post ->
  strings.len written = strings.len pattern ->
  strings.Index (strings.ToLower (Error e)) pattern = strings.len pre ->
  allDigits num = true -> num <> EmptyString -> endsNumber post = true ->
  0 < decimalValue num ->
  decimalValue num * hintUnit pattern <= max_int64 ->
  extractRetryAfter (Some e) = decimalValue num * hintUnit pattern
  /\ rateLimiter.calculateBackoff baseBackoff e u = decimalValue num * hintUnit pattern.
Proof.
  intros _ Hi Hearlier Htext Hwritten Hidx Hd Hne Hpost Hpos Hfit.
  pose proof (hintUnit_bounds pattern) as Hunit.
  assert (decimalValue num < 2 ^ 53) as Hlt.
  { assert (max_int64 < 2 ^ 53 * 1000000) by reflexivity. nia. }
  assert (extractRetryAfter (Some e) = decimalValue num * hintUnit pattern) as Hextract.
  { unfold extractRetryAfter. rewrite <- (take_drop_middle patterns i pattern Hi).
    rewrite (extractLoop_skip _ _ _ Hearlier). cbn [extractLoop].
    rewrite Htext in *.
    rewrite (tryPattern_number_written pre written num post pattern Hidx Hwritten
               (allDigits_allNumeric num Hd) Hne Hpost).
    destruct (ParseFloat_digits num Hd Hne (conj Hpos Hlt)) as [f [-> ->]].
    rewrite wrap64_in_range; [reflexivity|].
    unfold min_int64. change (2 ^ 63) with 9223372036854775808. lia. }
  split; [exact Hextract|].
  unfold rateLimiter.calculateBackoff. rewrite Hextract.
  destruct (Z.gtb_spec (decimalValue num * hintUnit pattern) 0) as [_|Hle]; [reflexivity|nia].
Qed.

Lemma calculateBackoff_integral_hint_witness :
  extractRetryAfter (Some (errorString "429 Too Many Requests (Retry-After: 30)"))
  = decimalValue "30" * hintUnit "retry-after: "
  /\ rateLimiter.calculateBackoff (1 * time.Second)
       (errorString "429 Too Many Requests (Retry-After: 30)") (float64.of_dyadic 1 (-2))
     = decimalValue "30" * hintUnit "retry-after: ".
Proof.
  apply (calculateBackoff_integral_hint 1 "retry-after: " "429 Too Many Requests ("
           "Retry-After: " "30" ")"
           (errorString "429 Too Many Requests (Retry-After: 30)")
           (1 * time.Second) (float64.of_dyadic 1 (-2))).
  - reflexivity.
  - reflexivity.
  - repeat constructor.
  - reflexivity.
  - reflexivity.
  - reflexivity.
  - reflexivity.
  - discriminate.
  - reflexivity.
  - reflexivity.
  - vm_compute. discriminate.
Defined.

(* ===================================================================== *)
(** * The OpenAI adapter *)
(* ===================================================================== *)

Lemma applyDefaults_no_zero (c : RateLimitConfig) :
  MaxRetries (applyDefaults c) <> 0
  /\ InitialBackoff (applyDefaults c) <> 0
  /\ MaxBackoff (applyDefaults c) <> 0
  /\ float64.eqb (BackoffMultiplier (applyDefaults c)) float64.zero = false.
Proof.
  rewrite applyDefaults_MaxRetries, applyDefaults_InitialBackoff, applyDefaults_MaxBackoff,
    applyDefaults_BackoffMultiplier.
  destruct (Z.eqb_spec (MaxRetries c) 0), (Z.eqb_spec (InitialBackoff c) 0),
    (Z.eqb_spec (MaxBackoff c) 0),
    (float64.eqb (BackoffMultiplier c) float64.zero) eqn:Hm;
    repeat split; try assumption; try reflexivity; try (unfold time.Second; lia).
Qed.

(** Whatever configuration a limiter is built from, the one it ends up
    with has no zero field. *)
Lemma newRateLimiter_no_zero_field (config : option loc) (logger : Logger) (h h' : heap)
    (r : rateLimiter.t) :
  newRateLimiter config logger h = Some (r, h') ->
  exists c,
    h' !! rateLimiter.config r = Some c
    /\ MaxRetries c <> 0 /\ InitialBackoff c <> 0 /\ MaxBackoff c <> 0
    /\ float64.eqb (BackoffMultiplier c) float64.zero = false.
Proof.
  unfold newRateLimiter.
  destruct config as [l|].
  - destruct (h !! l) as [c|] eqn:Hl; [|discriminate]. intros [= <- <-].
    exists (applyDefaults c). cbn [rateLimiter.config]. rewrite lookup_insert_eq.
    split; [reflexivity|]. apply applyDefaults_no_zero.
  - rewrite lookup_insert_eq. intros [= <- <-].
    exists (applyDefaults DefaultRateLimitConfig). cbn [rateLimiter.config].
    rewrite lookup_insert_eq. split; [reflexivity|]. apply applyDefaults_no_zero.
Qed.

Lemma newRateLimiter_returns (config : option loc) (logger : Logger) (h : heap) :
  (forall l, config = Some l -> is_Some (h !! l)) ->
  exists r h',
    newRateLimiter config logger h = Some (r, h')
    /\ (forall l, config = Some l -> rateLimiter.config r = l).
Proof.
  intros Hvalid. unfold newRateLimiter. destruct config as [l|].
  - destruct (Hvalid l eq_refl) as [c ->]. eexists _, _. split; [reflexivity|].
    by intros l' [= <-].
  - rewrite lookup_insert_eq. eexists _, _. split; [reflexivity|]. discriminate.
Qed.

(** X25. [newOpenAIClient] needs an API key and nothing else. With an
    empty key it returns the error "OpenAI API key is required" and leaves
    the heap, and so the caller's rate-limit configuration, untouched.
    With a key it succeeds: the client's timeout is the configured one, or
    60 seconds when that is zero, and so never zero; its limiter uses the
    caller's configuration when one is given; and the configuration in
    effect has no zero field. *)
Theorem newOpenAIClient_spec (config : OpenAIConfig.t) (logger : Logger) (h : heap) :
  (forall l, OpenAIConfig.RateLimiter config = Some l -> is_Some (h !! l)) ->
  (OpenAIConfig.APIKey config = ""
   -> newOpenAIClient config logger h
      = Some (None, Some (errorString "OpenAI API key is required"), h))
  /\ (OpenAIConfig.APIKey config <> ""
      -> exists c h' cfg,
           newOpenAIClient config logger h = Some (Some c, None, h')
           /\ openAIClient.timeout c <> 0
           /\ openAIClient.timeout c
              = (if OpenAIConfig.Timeout config =? 0 then 60 * time.Second
                 else OpenAIConfig.Timeout config)
           /\ (forall l, OpenAIConfig.RateLimiter config = Some l
                         -> rateLimiter.config (openAIClient.rateLimiter c) = l)
           /\ h' !! rateLimiter.config (openAIClient.rateLimiter c) = Some cfg
           /\ MaxRetries cfg <> 0 /\ InitialBackoff cfg <> 0 /\ MaxBackoff cfg <> 0
           /\ float64.eqb (BackoffMultiplier cfg) float64.zero = false).
Proof.
  intros Hvalid. unfold newOpenAIClient. split.
  - intros ->. reflexivity.
  - intros Hkey. apply String.eqb_neq in Hkey. rewrite Hkey.
    destruct (newRateLimiter_returns (OpenAIConfig.RateLimiter config) logger h Hvalid)
      as [r [h' [Hnew Halias]]].
    destruct (newRateLimiter_no_zero_field _ _ _ _ _ Hnew) as [cfg [Hcfg Hnz]].
    rewrite Hnew. eexists _, h', cfg. split; [reflexivity|].
    cbn [openAIClient.timeout openAIClient.rateLimiter].
    split; [|split; [reflexivity|split; [exact Halias|split; [exact Hcfg|exact Hnz]]]].
    unfold defaultTimeout, time.Second.
    destruct (Z.eqb_spec (OpenAIConfig.Timeout config) 0); lia.
Qed.

Lemma newOpenAIClient_spec_witness :
  (OpenAIConfig.APIKey openAIKeyed = ""
   -> newOpenAIClient openAIKeyed NopLogger (heapOf cfgPartial)
      = Some (None, Some (errorString "OpenAI API key is required"), heapOf cfgPartial))
  /\ (OpenAIConfig.APIKey openAIKeyed <> ""
      -> exists c h' cfg,
           newOpenAIClient openAIKeyed NopLogger (heapOf cfgPartial) = Some (Some c, None, h')
           /\ openAIClient.timeout c <> 0
           /\ openAIClient.timeout c
              = (if OpenAIConfig.Timeout openAIKeyed =? 0 then 60 * time.Second
                 else OpenAIConfig.Timeout openAIKeyed)
           /\ (forall l, OpenAIConfig.RateLimiter openAIKeyed = Some l
                         -> rateLimiter.config (openAIClient.rateLimiter c) = l)
           /\ h' !! rateLimiter.config (openAIClient.rateLimiter c) = Some cfg
           /\ MaxRetries cfg <> 0 /\ InitialBackoff cfg <> 0 /\ MaxBackoff cfg <> 0
           /\ float64.eqb (BackoffMultiplier cfg) float64.zero = false).
Proof.
  apply (newOpenAIClient_spec openAIKeyed NopLogger (heapOf cfgPartial)).
  intros l [= <-]. eexists. reflexivity.
Defined.

(** X26. The request [Generate] builds: the model name is the one the
    model reports; the messages are the user prompt, preceded by the
    system prompt when it is not empty, in the role [developer] for a
    reasoning model and [system] otherwise; a reasoning model never sets
    [MaxTokens], [Temperature] or [TopP], any other model never sets
    [MaxCompletionTokens] or [ReasoningEffort]; a token limit that is set
    is positive and a reasoning effort that is set is not empty. *)
Theorem openAIClient_requestParams_shape (model : openAIModelValue) (prompt : string) :
  openai.Model (openAIClient.requestParams model prompt) = OpenAIModel.ModelName model
  /\ openai.Messages (openAIClient.requestParams model prompt)
     = ((if String.eqb (OpenAIModel.SystemPrompt model) "" then []
         else [{| openai.Role := if OpenAIModel.isReasoning model
                                 then openai.developer else openai.system;
                  openai.Content := OpenAIModel.SystemPrompt model |}])
        ++ [openai.UserMessage prompt])%list
  /\ (OpenAIModel.isReasoning model = true
      -> openai.MaxTokens (openAIClient.requestParams model prompt) = None
         /\ openai.Temperature (openAIClient.requestParams model prompt) = None
         /\ openai.TopP (openAIClient.requestParams model prompt) = None)
  /\ (OpenAIModel.isReasoning model = false
      -> openai.MaxCompletionTokens (openAIClient.requestParams model prompt) = None
         /\ openai.ReasoningEffort (openAIClient.requestParams model prompt) = None)
  /\ (forall n, openai.MaxTokens (openAIClient.requestParams model prompt) = Some n -> 0 < n)
  /\ (forall n, openai.MaxCompletionTokens (openAIClient.requestParams model prompt) = Some n
                -> 0 < n)
  /\ openai.ReasoningEffort (openAIClient.requestParams model prompt) <> Some "".
Proof.
  assert (openai.Messages (openAIClient.requestParams model prompt)
          = openAIClient.messages model prompt) as Hm.
  { destruct model as [ty m|ty m|m]; cbn [openAIClient.requestParams];
      repeat match goal with |- context [if ?b then _ else _] => destruct b end;
      reflexivity. }
  split; [|split; [|split; [|split; [|split; [|split]]]]].
  - destruct model as [ty m|ty m|m]; cbn [openAIClient.requestParams];
      repeat match goal with |- context [if ?b then _ else _] => destruct b end;
      reflexivity.
  - rewrite Hm. unfold openAIClient.messages.
    destruct (String.eqb (OpenAIModel.SystemPrompt model) ""); cbn [negb]; [reflexivity|].
    destruct (OpenAIModel.isReasoning model); reflexivity.
  - destruct model as [ty m|ty m|m]; cbn [OpenAIModel.isReasoning]; try discriminate.
    intros _. cbn [openAIClient.requestParams].
    repeat match goal with |- context [if ?b then _ else _] => destruct b end;
      repeat split.
  - destruct model as [ty m|ty m|m]; cbn [OpenAIModel.isReasoning]; try discriminate;
      intros _; cbn [openAIClient.requestParams];
      repeat match goal with |- context [if ?b then _ else _] => destruct b end;
      repeat split.
  - intros n. destruct model as [ty m|ty m|m]; cbn [openAIClient.requestParams].
    + destruct (Z.gtb_spec (openAIStandardOptions.maxTokens m) 0);
        repeat match goal with |- context [if ?b then _ else _] => destruct b end;
        cbn; intros [= <-] || discriminate; assumption.
    + repeat match goal with |- context [if ?b then _ else _] => destruct b end;
        cbn; discriminate.
    + cbn. discriminate.
  - intros n. destruct model as [ty m|ty m|m]; cbn [openAIClient.requestParams].
    + repeat match goal with |- context [if ?b then _ else _] => destruct b end;
        cbn; discriminate.
    + destruct (Z.gtb_spec (openAIReasoningOptions.maxCompletionTokens m) 0);
        repeat match goal with |- context [if ?b then _ else _] => destruct b end;
        cbn; intros [= <-] || discriminate; assumption.
    + cbn. discriminate.
  - destruct model as [ty m|ty m|m]; cbn [openAIClient.requestParams].
    + repeat match goal with |- context [if ?b then _ else _] => destruct b end;
        cbn; discriminate.
    + destruct (String.eqb_spec (openAIReasoningOptions.reasoningEffort m) "") as [He|He];
        cbn [negb];
        repeat match goal with |- context [if ?b then _ else _] => destruct b end;
        cbn; try discriminate; intros [= H]; contradiction.
    + cbn. discriminate.
Qed.

Section AdapterGenerate.

Variables (h : heap) (c : openAIClient.t) (w : openAIWorld) (ctx : context.t).
Variables (model : openAIModelValue) (prompt : string).

Lemma openAIClient_Generate_other_provider :
  OpenAIModel.Provider model <> ProviderOpenAI ->
  openAIClient.Generate h c w ctx model prompt
  = Some (Returns (None, Some (errorString ("model " ++ OpenAIModel.ModelName model
                                              ++ " is not an OpenAI model"))), []).
Proof.
  intros Hp. unfold openAIClient.Generate. apply String.eqb_neq in Hp. by rewrite Hp.
Qed.

(** [Generate] for a model of the adapter's provider, in terms of the
    run of [Execute] it makes. *)
Lemma openAIClient_Generate_openai (ret : option error) (tr : list event) :
  OpenAIModel.Provider model = ProviderOpenAI ->
  rateLimiter.Execute h (openAIClient.rateLimiter c)
    (WithTimeout w ctx (openAIClient.timeout c))
    (fun attempt =>
       snd (CompletionsNew w attempt (WithTimeout w ctx (openAIClient.timeout c))
              (openAIClient.requestParams model prompt)))
    (Float64 w) = Some (ret, tr) ->
  openAIClient.Generate h c w ctx model prompt
  = match ret with
    | Some err =>
        Some (Returns (None, Some (wrapError ("OpenAI generation failed: " ++ Error err) err)),
              tr)
    | None =>
        match
          match openAIClient.lastCall tr with
          | Some attempt =>
              fst (CompletionsNew w attempt (WithTimeout w ctx (openAIClient.timeout c))
                     (openAIClient.requestParams model prompt))
          | None => None
          end
        with
        | None => Some (Panics nilDereference, tr)
        | Some resp =>
            match openai.Choices resp with
            | [] =>
                Some (Returns (None, Some (errorString
                                             "no response choices returned from OpenAI")), tr)
            | choice :: _ =>
                Some (Returns (Some (openAIClient.response model resp choice), None), tr)
            end
        end
    end.
Proof.
  intros Hp Hrun. unfold openAIClient.Generate.
  rewrite Hp, String.eqb_refl. cbn [negb]. rewrite Hrun. destruct ret; reflexivity.
Qed.

End AdapterGenerate.

(** X27. [Generate] of the adapter always comes to an end, after at
    most [MaxRetries + 1] calls of the API (none when [MaxRetries] is
    negative), and none at all for a model of another provider; when it
    returns, it returns a response or an error, never both and never
    neither. *)
Theorem openAIClient_Generate_calls_bounded (h : heap) (c : openAIClient.t) (w : openAIWorld)
    (ctx : context.t) (model : openAIModelValue) (prompt : string) (cfg : RateLimitConfig) :
  h !! rateLimiter.config (openAIClient.rateLimiter c) = Some cfg ->
  exists res tr,
    openAIClient.Generate h c w ctx model prompt = Some (res, tr)
    /\ Z.of_nat (length (calls tr)) <= Z.max 0 (MaxRetries cfg + 1)
    /\ (OpenAIModel.Provider model <> ProviderOpenAI -> tr = [])
    /\ (forall resp err, res = Returns (resp, err) -> (is_Some resp <-> err = None)).
Proof.
  intros Hcfg.
  destruct (String.eqb_spec (OpenAIModel.Provider model) ProviderOpenAI) as [Hp|Hp].
  - destruct (run_returns cfg (WithTimeout w ctx (openAIClient.timeout c))
                (fun attempt =>
                   snd (CompletionsNew w attempt (WithTimeout w ctx (openAIClient.timeout c))
                          (openAIClient.requestParams model prompt)))
                (Float64 w)) as [[ret tr] Hrun].
    pose proof (loop_bounds _ _ _ _ _ _ _ _ _ _ Hrun) as [Hc _].
    replace (MaxRetries cfg - 0 + 1) with (MaxRetries cfg + 1) in Hc by lia.
    assert (rateLimiter.Execute h (openAIClient.rateLimiter c)
              (WithTimeout w ctx (openAIClient.timeout c))
              (fun attempt =>
                 snd (CompletionsNew w attempt (WithTimeout w ctx (openAIClient.timeout c))
                        (openAIClient.requestParams model prompt)))
              (Float64 w) = Some (ret, tr)) as Hexec
      by (unfold rateLimiter.Execute; rewrite Hcfg; exact Hrun).
    rewrite (openAIClient_Generate_openai h c w ctx model prompt ret tr Hp Hexec).
    destruct ret as [err|].
    + eexists _, tr. split; [reflexivity|]. split; [exact Hc|]. split; [contradiction|].
      intros resp e [= <- <-]. split; [intros [x Hx]; discriminate Hx|discriminate].
    + destruct (match openAIClient.lastCall tr with Some _ => _ | None => _ end) as [resp|].
      * destruct (openai.Choices resp) as [|choice rest].
        -- eexists _, tr. split; [reflexivity|]. split; [exact Hc|]. split; [contradiction|].
           intros r e [= <- <-]. split; [intros [x Hx]; discriminate Hx|discriminate].
        -- eexists _, tr. split; [reflexivity|]. split; [exact Hc|]. split; [contradiction|].
           intros r e [= <- <-]. split; [reflexivity|eauto].
      * eexists _, tr. split; [reflexivity|]. split; [exact Hc|]. split; [contradiction|].
        intros r e. discriminate.
  - rewrite (openAIClient_Generate_other_provider h c w ctx model prompt Hp).
    eexists _, []. split; [reflexivity|]. split; [cbn; lia|]. split; [reflexivity|].
    intros r e [= <- <-]. split; [intros [x Hx]; discriminate Hx|discriminate].
Qed.

Lemma openAIClient_Generate_calls_bounded_witness :
  exists res tr,
    openAIClient.Generate (heapOf (cfgTriple 5)) stubClient worldBusyTwice context.Background
      (OpenAIModel.NewStandard GPT4o) "hi" = Some (res, tr)
    /\ Z.of_nat (length (calls tr)) <= Z.max 0 (MaxRetries (cfgTriple 5) + 1)
    /\ (OpenAIModel.Provider (OpenAIModel.NewStandard GPT4o) <> ProviderOpenAI -> tr = [])
    /\ (forall resp err, res = Returns (resp, err) -> (is_Some resp <-> err = None)).
Proof.
  apply (openAIClient_Generate_calls_bounded (heapOf (cfgTriple 5)) stubClient worldBusyTwice
           context.Background (OpenAIModel.NewStandard GPT4o) "hi" (cfgTriple 5)).
  reflexivity.
Defined.

(** X28. An error of the API that is not a rate limit ends [Generate]
    at once: when the first call returns such an error [e], the API is
    called once, nothing is awaited, and [Generate] returns no response,
    even if the call returned one next to the error, and an error that
    wraps [e] with the text "OpenAI generation failed: " before its
    text. *)
Theorem openAIClient_Generate_permanent_failure (h : heap) (c : openAIClient.t) (w : openAIWorld)
    (ctx : context.t) (model : openAIModelValue) (prompt : string) (cfg : RateLimitConfig)
    (o : option openai.ChatCompletion) (e : error) :
  OpenAIModel.Provider model = ProviderOpenAI ->
  h !! rateLimiter.config (openAIClient.rateLimiter c) = Some cfg ->
  0 <= MaxRetries cfg ->
  context.Done (WithTimeout w ctx (openAIClient.timeout c)) 0 = false ->
  CompletionsNew w 0 (WithTimeout w ctx (openAIClient.timeout c))
    (openAIClient.requestParams model prompt) = (o, Some e) ->
  isRateLimitError (Some e) = false ->
  openAIClient.Generate h c w ctx model prompt
  = Some (Returns (None, Some (wrapError ("OpenAI generation failed: " ++ Error e) e)),
          [EvCall 0 (Some e)]).
Proof.
  intros Hp Hcfg Hmax Hopen Hcall Hperm.
  rewrite (openAIClient_Generate_openai h c w ctx model prompt (Some e) [EvCall 0 (Some e)] Hp);
    [reflexivity|].
  unfold rateLimiter.Execute, rateLimiter.run. rewrite Hcfg, loop_S.
  destruct (Z.leb_spec 0 (MaxRetries cfg)); [|lia].
  change (2 * 0) with 0. rewrite Hopen, Hcall. cbn [snd]. rewrite Hperm. reflexivity.
Qed.

Lemma openAIClient_Generate_permanent_failure_witness :
  openAIClient.Generate (heapOf (cfgTriple 5)) stubClient worldUnauthorized
    context.Background (OpenAIModel.NewReasoning O3) "hi"
  = Some (Returns (None, Some (wrapError ("OpenAI generation failed: " ++ Error err401)
                                 err401)),
          [EvCall 0 (Some err401)]).
Proof.
  apply (openAIClient_Generate_permanent_failure (heapOf (cfgTriple 5)) stubClient worldUnauthorized
           context.Background (OpenAIModel.NewReasoning O3) "hi" (cfgTriple 5) None err401).
  - reflexivity.
  - reflexivity.
  - cbn. lia.
  - reflexivity.
  - reflexivity.
  - reflexivity.
Defined.

Lemma lastCall_snoc (tr : list event) (attempt : Z) (res : option error) :
  openAIClient.lastCall (tr ++ [EvCall attempt res]) = Some attempt.
Proof. unfold openAIClient.lastCall. rewrite omap_app. cbn. apply last_snoc. Qed.

(** X29. Rate limits are retried inside [Generate]: when the API is
    rate limited at the attempts before [k <= MaxRetries], answers at
    attempt [k] with at least one choice, and the context is open until
    then, [Generate] returns a response built from that answer (text and
    finish reason of the first choice, model of the answer, metadata
    entry [provider = openai]) after exactly [k + 1] calls and [k] waits.
    The field [Provider] of the response is left empty. *)
Theorem openAIClient_Generate_success_after_retries (h : heap) (c : openAIClient.t) (w : openAIWorld)
    (ctx : context.t) (model : openAIModelValue) (prompt : string) (cfg : RateLimitConfig)
    (k : Z) (resp : openai.ChatCompletion) (choice : openai.ChatCompletionChoice)
    (rest : list openai.ChatCompletionChoice) :
  OpenAIModel.Provider model = ProviderOpenAI ->
  h !! rateLimiter.config (openAIClient.rateLimiter c) = Some cfg ->
  0 <= k <= MaxRetries cfg ->
  (forall j, 0 <= j < k ->
             exists o e,
               CompletionsNew w j (WithTimeout w ctx (openAIClient.timeout c))
                 (openAIClient.requestParams model prompt) = (o, Some e)
               /\ isRateLimitError (Some e) = true) ->
  CompletionsNew w k (WithTimeout w ctx (openAIClient.timeout c))
    (openAIClient.requestParams model prompt) = (Some resp, None) ->
  openai.Choices resp = choice :: rest ->
  (forall i, 0 <= i <= 2 * k ->
             context.Done (WithTimeout w ctx (openAIClient.timeout c)) i = false) ->
  exists r tr,
    openAIClient.Generate h c w ctx model prompt = Some (Returns (Some r, None), tr)
    /\ GenerationResponse.Text r = openai.MessageContent choice
    /\ GenerationResponse.Model r = openai.ResponseModel resp
    /\ GenerationResponse.FinishReason r = openai.FinishReason choice
    /\ GenerationResponse.Provider r = ""
    /\ GenerationResponse.Metadata r !! "provider" = Some "openai"
    /\ Z.of_nat (length (calls tr)) = k + 1
    /\ last (calls tr) = Some None
    /\ Z.of_nat (length (waits tr)) = k.
Proof.
  intros Hp Hcfg Hk Hfail Hok Hchoices Hctx.
  set (ctx' := WithTimeout w ctx (openAIClient.timeout c)) in *.
  set (fn := fun attempt : Z =>
               snd (CompletionsNew w attempt ctx' (openAIClient.requestParams model prompt))).
  destruct (loop_prefix cfg ctx' fn (Float64 w) (Z.to_nat k) 0 (InitialBackoff cfg) None)
    as [tr0 [Hc [Hw [_ Hrun]]]].
  { intros j Hj. destruct (Hfail j ltac:(lia)) as [o [e [He Htr]]].
    exists e. subst fn. cbn beta. rewrite He. split; [reflexivity|exact Htr]. }
  { intros j Hj. split; apply Hctx; lia. }
  { lia. }
  rewrite Z2Nat.id, Z.add_0_l in * by lia.
  assert (rateLimiter.Execute h (openAIClient.rateLimiter c) ctx' fn (Float64 w)
          = Some (None, (tr0 ++ [EvCall k None])%list)) as Hexec.
  { unfold rateLimiter.Execute, rateLimiter.run. rewrite Hcfg.
    replace (S (Z.to_nat (MaxRetries cfg + 1)))
      with (Z.to_nat k + S (Z.to_nat (MaxRetries cfg + 1) - Z.to_nat k))%nat by lia.
    apply (Hrun _ None). rewrite loop_S.
    destruct (Z.leb_spec k (MaxRetries cfg)); [|lia].
    rewrite (Hctx (2 * k)) by lia. subst fn. cbn beta. rewrite Hok. reflexivity. }
  rewrite (openAIClient_Generate_openai h c w ctx model prompt None _ Hp Hexec).
  rewrite lastCall_snoc. fold ctx'. rewrite Hok. cbn [fst]. rewrite Hchoices.
  eexists _, _. split; [reflexivity|].
  cbn [openAIClient.response GenerationResponse.Text GenerationResponse.Model
       GenerationResponse.FinishReason GenerationResponse.Provider
       GenerationResponse.Metadata].
  do 4 (split; [reflexivity|]). split.
  { destruct (openai.ReasoningTokens (openai.Usage resp) >? 0);
      repeat (rewrite lookup_insert_ne by discriminate); apply lookup_insert_eq. }
  rewrite calls_app, waits_app, Hc, !length_app, length_fmap, length_seqZ, Hw.
  change (calls [EvCall k None]) with [@None error].
  change (waits [EvCall k None]) with (@nil time.Duration).
  cbn [length]. split; [lia|]. split; [apply last_snoc|]. lia.
Qed.

Lemma openAIClient_Generate_success_after_retries_witness :
  exists r tr,
    openAIClient.Generate (heapOf (cfgTriple 5)) stubClient worldBusyTwice context.Background
      (OpenAIModel.NewStandard GPT4o) "hi" = Some (Returns (Some r, None), tr)
    /\ GenerationResponse.Text r = openai.MessageContent
                                     {| openai.MessageContent := "hello";
                                        openai.FinishReason := "stop" |}
    /\ GenerationResponse.Model r = openai.ResponseModel stubCompletion
    /\ GenerationResponse.FinishReason r = openai.FinishReason
                                             {| openai.MessageContent := "hello";
                                                openai.FinishReason := "stop" |}
    /\ GenerationResponse.Provider r = ""
    /\ GenerationResponse.Metadata r !! "provider" = Some "openai"
    /\ Z.of_nat (length (calls tr)) = 2 + 1
    /\ last (calls tr) = Some None
    /\ Z.of_nat (length (waits tr)) = 2.
Proof.
  apply (openAIClient_Generate_success_after_retries (heapOf (cfgTriple 5)) stubClient worldBusyTwice
           context.Background (OpenAIModel.NewStandard GPT4o) "hi" (cfgTriple 5) 2
           stubCompletion {| openai.MessageContent := "hello"; openai.FinishReason := "stop" |}
           []).
  - reflexivity.
  - reflexivity.
  - cbn. lia.
  - intros j Hj. exists None, err429. cbn.
    destruct (Z.ltb_spec j 2); [|lia]. split; reflexivity.
  - reflexivity.
  - reflexivity.
  - intros i _. reflexivity.
Defined.

(** X30. A negative [MaxRetries] breaks the adapter: a client made by
    [newOpenAIClient] from a rate-limit configuration with
    [MaxRetries < 0] never calls the API, [Execute] returns [nil], and
    [Generate] dereferences the response that was never assigned and
    panics, for every model of the provider, prompt and context. *)
Theorem openAIClient_Generate_negative_MaxRetries_panics (config : OpenAIConfig.t) (logger : Logger)
    (h : heap) (l : loc) (cfg : RateLimitConfig) (w : openAIWorld) (ctx : context.t)
    (model : openAIModelValue) (prompt : string) :
  OpenAIConfig.APIKey config <> "" ->
  OpenAIConfig.RateLimiter config = Some l ->
  h !! l = Some cfg ->
  MaxRetries cfg < 0 ->
  OpenAIModel.Provider model = ProviderOpenAI ->
  exists c h',
    newOpenAIClient config logger h = Some (Some c, None, h')
    /\ openAIClient.Generate h' c w ctx model prompt = Some (Panics nilDereference, []).
Proof.
  intros Hkey Hl Hcfg Hneg Hp. unfold newOpenAIClient, newRateLimiter.
  apply String.eqb_neq in Hkey. rewrite Hkey, Hl, Hcfg.
  eexists _, _. split; [reflexivity|].
  rewrite (openAIClient_Generate_openai _ _ w ctx model prompt None [] Hp); [reflexivity|].
  unfold rateLimiter.Execute, rateLimiter.run.
  cbn [openAIClient.rateLimiter rateLimiter.config]. rewrite lookup_insert_eq, loop_S.
  rewrite applyDefaults_MaxRetries.
  destruct (Z.eqb_spec (MaxRetries cfg) 0); [lia|].
  destruct (Z.leb_spec 0 (MaxRetries cfg)); [lia|reflexivity].
Qed.

Lemma openAIClient_Generate_negative_MaxRetries_panics_witness :
  exists c h',
    newOpenAIClient openAIKeyed NopLogger (heapOf cfgNoRetry) = Some (Some c, None, h')
    /\ openAIClient.Generate h' c worldBusyTwice context.Background
         (OpenAIModel.NewStandard GPT4oMini) "hi" = Some (Panics nilDereference, []).
Proof.
  apply (openAIClient_Generate_negative_MaxRetries_panics openAIKeyed NopLogger (heapOf cfgNoRetry)
           1%positive cfgNoRetry worldBusyTwice context.Background
           (OpenAIModel.NewStandard GPT4oMini) "hi").
  - discriminate.
  - reflexivity.
  - reflexivity.
  - cbn. lia.
  - reflexivity.
Defined.

(* ===================================================================== *)
(** * The jitter of calculateBackoff *)
(* ===================================================================== *)

Section Jitter.

(** A shift that drops a set bit makes the mantissa smaller than the
    quotient. *)
Lemma shr_1_inexact (mrs : shr_record) :
  0 <= shr_m mrs ->
  shr_r (shr_1 mrs) || shr_s (shr_1 mrs) = true ->
  shr_m (shr_1 mrs) * 2 < shr_m mrs \/ shr_r mrs || shr_s mrs = true.
Proof.
  destruct mrs as [m r s]. cbn [shr_m shr_r shr_s]. intros Hm.
  destruct m as [|[p|p|]|p]; cbn [shr_1 shr_m shr_r shr_s];
    first [lia | cbn [orb]; intros H; right; exact H].
Qed.

Lemma shr_iter_inexact (n : nat) (mrs : shr_record) :
  0 <= shr_m mrs ->
  shr_r mrs || shr_s mrs = false ->
  shr_r (Nat.iter n shr_1 mrs) || shr_s (Nat.iter n shr_1 mrs) = true ->
  shr_m (Nat.iter n shr_1 mrs) * 2 ^ Z.of_nat n < shr_m mrs.
Proof.
  intros Hm Hexact. induction n as [|n IH].
  - cbn [Nat.iter nat_rect]. rewrite Hexact. discriminate.
  - rewrite Nat.iter_succ. intros Hin.
    assert (0 <= shr_m (Nat.iter n shr_1 mrs)) as Hk
      by (rewrite shr_iter_m by exact Hm; apply Z.div_pos; lia).
    pose proof (shr_1_m _ Hk) as Hhalf.
    assert (shr_m (Nat.iter n shr_1 mrs) * 2 ^ Z.of_nat n <= shr_m mrs) as Hle.
    { rewrite shr_iter_m by exact Hm. rewrite Z.mul_comm.
      apply Z.mul_div_le. lia. }
    rewrite Nat2Z.inj_succ, Z.pow_succ_r by lia.
    pose proof (Z.pow_pos_nonneg 2 (Z.of_nat n) ltac:(lia) ltac:(lia)) as Hpow.
    assert (shr_m (shr_1 (Nat.iter n shr_1 mrs)) * 2 <= shr_m (Nat.iter n shr_1 mrs)) as H2.
    { rewrite Hhalf, Z.mul_comm. apply Z.mul_div_le. lia. }
    destruct (shr_1_inexact _ Hk Hin) as [Hlt|Hprev].
    + nia.
    + specialize (IH Hprev). nia.
Qed.

Lemma round_nearest_even_exact (mrs : shr_record) :
  shr_r mrs || shr_s mrs = false ->
  round_nearest_even (shr_m mrs) (loc_of_shr_record mrs) = shr_m mrs.
Proof. destruct mrs as [m [|] [|]]; cbn; try discriminate. reflexivity. Qed.

(** Rounding a mantissa of more than 53 digits never passes a bound the
    mantissa itself respects: the result is at most every multiple [W] of
    the unit that the exact value does not exceed. *)
Lemma binary_round_aux_upper (sx : bool) (P : positive) (E : Z) (n : positive) :
  Z.pos (digits2_pos P) = 53 + Z.pos n -> -1021 <= E -> E + Z.pos n + 1 <= 971 ->
  exists m3 e3,
    binary_round_aux float64.prec float64.emax sx (Z.pos P) E loc_Exact
    = S754_finite sx m3 e3
    /\ Z.pos (digits2_pos m3) = 53
    /\ E + Z.pos n <= e3 <= E + Z.pos n + 1
    /\ forall W, Z.pos P <= W * 2 ^ Z.pos n -> Z.pos m3 * 2 ^ (e3 - (E + Z.pos n)) <= W.
Proof.
  intros Hd HE Hmax. unfold binary_round_aux.
  assert (fexp float64.prec float64.emax (Zdigits2 (Z.pos P) + E) - E = Z.pos n) as Hshift.
  { cbn [Zdigits2]. rewrite Hd, fexp_normal by lia. lia. }
  rewrite (shr_fexp_shift _ _ _ n Hshift). cbv beta iota.
  set (mrs := Nat.iter (Pos.to_nat n) shr_1 (shr_record_of_loc (Z.pos P) loc_Exact)).
  assert (shr_m mrs = Z.pos P / 2 ^ Z.pos n) as Hm1.
  { unfold mrs. rewrite shr_iter_m by (rewrite shr_record_of_loc_m; lia).
    by rewrite shr_record_of_loc_m, positive_nat_Z. }
  destruct (digits2_pos_bounds P) as [Hlo Hhi]. rewrite Hd in Hlo, Hhi.
  pose proof (Z.pow_pos_nonneg 2 (Z.pos n) ltac:(lia) ltac:(lia)) as Hpow.
  assert (2 ^ 52 <= shr_m mrs < 2 ^ 53) as [Hm1lo Hm1hi].
  { rewrite Hm1.
    replace (53 + Z.pos n - 1) with (52 + Z.pos n) in Hlo by lia.
    rewrite Z.pow_add_r in Hlo, Hhi by lia. split.
    - apply Z.div_le_lower_bound; lia.
    - apply Z.div_lt_upper_bound; lia. }
  pose proof (round_nearest_even_bounds (shr_m mrs) (loc_of_shr_record mrs)) as Hrne.
  assert (forall W, Z.pos P <= W * 2 ^ Z.pos n ->
                    round_nearest_even (shr_m mrs) (loc_of_shr_record mrs) <= W) as Hupper.
  { intros W HW.
    assert (shr_m mrs * 2 ^ Z.pos n <= Z.pos P) as Hfloor
      by (rewrite Hm1, Z.mul_comm; apply Z.mul_div_le; lia).
    destruct (shr_r mrs || shr_s mrs) eqn:Hin.
    - assert (shr_m mrs * 2 ^ Z.pos n < Z.pos P) as Hlt.
      { pose proof (shr_iter_inexact (Pos.to_nat n) (shr_record_of_loc (Z.pos P) loc_Exact))
          as Hi.
        rewrite shr_record_of_loc_m, positive_nat_Z in Hi. fold mrs in Hi.
        apply Hi; [lia|reflexivity|exact Hin]. }
      assert (shr_m mrs < W) by nia. lia.
    - rewrite round_nearest_even_exact by exact Hin. nia. }
  set (m2 := round_nearest_even (shr_m mrs) (loc_of_shr_record mrs)) in *.
  destruct m2 as [|q2|q2] eqn:Hm2; [lia| |lia].
  destruct (Z.eq_dec (Z.pos q2) (2 ^ 53)) as [Hcarry|Hnocarry].
  - assert (q2 = 9007199254740992%positive) as Hq2
      by (change (2 ^ 53) with (Z.pos 9007199254740992) in Hcarry; congruence).
    subst q2.
    assert (fexp float64.prec float64.emax (Zdigits2 (Z.pos 9007199254740992) + (E + Z.pos n))
            - (E + Z.pos n) = 1) as Hshift2.
    { cbn [Zdigits2]. change (Z.pos (digits2_pos 9007199254740992)) with 54.
      rewrite fexp_normal by lia. lia. }
    rewrite (shr_fexp_shift _ _ _ 1%positive Hshift2). cbv beta iota.
    change (shr_m (Nat.iter (Pos.to_nat 1) shr_1
                     (shr_record_of_loc (Z.pos 9007199254740992) loc_Exact)))
      with (Z.pos 4503599627370496).
    cbv beta iota.
    destruct (Z.leb_spec (E + Z.pos n + 1) (float64.emax - float64.prec)) as [_|Hgt];
      [|unfold float64.prec, float64.emax in Hgt; lia].
    eexists _, _. split; [reflexivity|]. split; [reflexivity|]. split; [lia|].
    intros W HW. specialize (Hupper W HW).
    replace (E + Z.pos n + 1 - (E + Z.pos n)) with 1 by lia.
    change (Z.pos 4503599627370496 * 2 ^ 1) with (Z.pos 9007199254740992). exact Hupper.
  - assert (Z.pos (digits2_pos q2) = 53) as Hd2.
    { apply digits2_pos_unique. change (53 - 1) with 52. lia. }
    assert (fexp float64.prec float64.emax (Zdigits2 (Z.pos q2) + (E + Z.pos n)) - (E + Z.pos n) = 0)
      as Hshift2.
    { cbn [Zdigits2]. rewrite Hd2, fexp_normal by lia. lia. }
    rewrite (shr_fexp_noshift _ _ _ Hshift2). cbn [shr_record_of_loc shr_m].
    destruct (Z.leb_spec (E + Z.pos n) (float64.emax - float64.prec)) as [_|Hgt];
      [|unfold float64.prec, float64.emax in Hgt; lia].
    eexists _, _. split; [reflexivity|]. split; [exact Hd2|]. split; [lia|].
    intros W HW. rewrite Z.sub_diag, Z.mul_1_r. exact (Hupper W HW).
Qed.

(** Normalising a value of magnitude at most one gives a float of
    magnitude at most one. *)
Lemma binary_round_le_one (sx : bool) (p : positive) (e : Z) :
  -200 <= e <= -52 -> Z.pos p <= 2 ^ (- e) ->
  exists mX eX,
    binary_round float64.prec float64.emax sx p e = S754_finite sx mX eX
    /\ Z.pos (digits2_pos mX) = 53
    /\ e - 53 <= eX <= -52
    /\ Z.pos mX <= 2 ^ (- eX).
Proof.
  intros He Hp. destruct (digits2_pos_bounds p) as [Hlo Hhi].
  pose proof (Pos2Z.is_pos (digits2_pos p)) as Hd.
  set (d := Z.pos (digits2_pos p)) in *.
  assert (d - 1 <= - e) as Hde.
  { apply (Z.pow_le_mono_r_iff 2); [lia|lia|]. lia. }
  unfold binary_round. fold d. rewrite fexp_normal by lia. unfold shl_align.
  remember (d + e - 53 - e) as z eqn:Hz.
  destruct z as [|k|k].
  - assert (d = 53) as H53 by lia.
    rewrite binary_round_aux_canonical by (assumption || lia).
    exists p, e. repeat split; try assumption; lia.
  - assert (d = 53 + Z.pos k) as Hk by lia.
    destruct (binary_round_aux_upper sx p e k Hk ltac:(lia) ltac:(lia))
      as [m3 [e3 [-> [Hd3 [He3 Hupper]]]]].
    exists m3, e3. split; [reflexivity|]. split; [exact Hd3|].
    destruct (digits2_pos_bounds m3) as [Hlo3 _]. rewrite Hd3 in Hlo3.
    change (2 ^ (53 - 1)) with (2 ^ 52) in Hlo3.
    assert (Z.pos m3 * 2 ^ (e3 - (e + Z.pos k)) <= 2 ^ (- e - Z.pos k)) as Hb.
    { apply Hupper. rewrite <- Z.pow_add_r by lia.
      replace (- e - Z.pos k + Z.pos k) with (- e) by lia. exact Hp. }
    assert (2 ^ 52 * 2 ^ (e3 - (e + Z.pos k)) <= 2 ^ (- e - Z.pos k)) as Hb2.
    { eapply Z.le_trans; [|exact Hb].
      apply Z.mul_le_mono_nonneg_r; [apply Z.pow_nonneg; lia|exact Hlo3]. }
    rewrite <- Z.pow_add_r in Hb2 by lia.
    apply (Z.pow_le_mono_r_iff 2) in Hb2; [|lia|lia].
    split; [lia|].
    replace (- e - Z.pos k) with ((- e3) + (e3 - (e + Z.pos k))) in Hb by lia.
    rewrite Z.pow_add_r in Hb by lia.
    pose proof (Z.pow_pos_nonneg 2 (e3 - (e + Z.pos k)) ltac:(lia) ltac:(lia)) as Hpow.
    nia.
  - assert (d + Z.pos k = 53) as Hk by lia.
    assert (2 ^ 52 <= Z.pos (Pos.iter xO p k) < 2 ^ 53) as Hb.
    { rewrite iter_xO_value.
      assert (2 ^ 52 = 2 ^ (d - 1) * 2 ^ Z.pos k) as ->
        by (rewrite <- Z.pow_add_r by lia; f_equal; lia).
      assert (2 ^ 53 = 2 ^ d * 2 ^ Z.pos k) as ->
        by (rewrite <- Z.pow_add_r by lia; f_equal; lia).
      pose proof (Z.pow_pos_nonneg 2 (Z.pos k) ltac:(lia) ltac:(lia)). nia. }
    assert (Z.pos (digits2_pos (Pos.iter xO p k)) = 53) as Hdig
      by (apply digits2_pos_unique; exact Hb).
    rewrite binary_round_aux_canonical by (assumption || lia).
    eexists _, _. split; [reflexivity|]. split; [exact Hdig|]. split; [lia|].
    rewrite iter_xO_value.
    replace (- (d + e - 53)) with (- e + Z.pos k) by lia.
    rewrite Z.pow_add_r by lia.
    apply Z.mul_le_mono_nonneg_r; [apply Z.pow_nonneg; lia|exact Hp].
Qed.

Lemma shl_align_value (m : positive) (e e' : Z) :
  e' <= e ->
  Z.pos (fst (shl_align m e e')) = Z.pos m * 2 ^ (e - e').
Proof.
  intros Hle. unfold shl_align.
  remember (e' - e) as z eqn:Hz. destruct z as [|k|k]; cbn [fst].
  - replace (e - e') with 0 by lia. lia.
  - lia.
  - unfold shift_pos. rewrite iter_xO_value. f_equal. f_equal. lia.
Qed.

Lemma factor_atMostOne (u : float64.t) :
  unitDraw u = true ->
  atMostOne (float64.sub (float64.mul u float64.two) float64.one).
Proof.
  destruct u as [s| | |[|] m e]; try discriminate.
  - intros _. cbn. repeat split; lia.
  - cbn [unitDraw]. intros H. apply andb_true_iff in H as [H He2].
    apply andb_true_iff in H as [Hd He1].
    apply Z.eqb_eq in Hd. apply Z.leb_le in He1, He2.
    destruct (digits2_pos_bounds m) as [Hlo Hhi]. rewrite Hd in Hlo, Hhi.
    change (2 ^ (53 - 1)) with (2 ^ 52) in Hlo.
    unfold float64.mul, float64.two. cbn [SFmul xorb].
    assert (Z.pos (m * 4503599627370496) = Z.pos m * 2 ^ 52) as HP by reflexivity.
    assert (Z.pos (digits2_pos (m * 4503599627370496)) = 53 + 52) as HdP.
    { apply digits2_pos_unique. rewrite HP. change (53 + 52 - 1) with (52 + 52).
      change (53 + 52) with (53 + 52). rewrite !Z.pow_add_r by lia. nia. }
    destruct (binary_round_aux_upper false (m * 4503599627370496) (e + -51) 52 HdP
                ltac:(lia) ltac:(lia)) as [ma [ea [-> [Hda [Hea Hupper]]]]].
    destruct (digits2_pos_bounds ma) as [Hloa Hhia]. rewrite Hda in Hloa, Hhia.
    change (2 ^ (53 - 1)) with (2 ^ 52) in Hloa.
    specialize (Hupper (Z.pos m) ltac:(rewrite HP; lia)).
    assert (ea = e + 1) as ->.
    { destruct (Z.eq_dec ea (e + 1)) as [|Hne]; [assumption|].
      replace (ea - (e + -51 + 52)) with 1 in Hupper by lia.
      change (2 ^ 1) with 2 in Hupper. lia. }
    replace (e + 1 - (e + -51 + 52)) with 0 in Hupper by lia.
    rewrite Z.mul_1_r in Hupper.
    unfold float64.sub, float64.one. cbn [SFsub cond_Zopp].
    rewrite Z.min_l by lia.
    rewrite (shl_align_value ma (e + 1) (e + 1)) by lia.
    rewrite (shl_align_value 4503599627370496 (-52) (e + 1)) by lia.
    rewrite Z.sub_diag, Z.mul_1_r.
    change (Z.pos 4503599627370496) with (2 ^ 52).
    rewrite <- Z.pow_add_r by lia.
    replace (52 + (-52 - (e + 1))) with (- (e + 1)) by lia.
    assert (2 ^ 52 <= 2 ^ (- (e + 1))) as Hpw by (apply Z.pow_le_mono_r; lia).
    assert (e + 1 < -52 -> 2 ^ 53 <= 2 ^ (- (e + 1))) as Hpw2
      by (intros; apply Z.pow_le_mono_r; lia).
    unfold binary_normalize.
    destruct (Z.pos ma - 2 ^ (- (e + 1))) as [|pD|pD] eqn:HD.
    + exact I.
    + assert (e + 1 = -52) as He by lia.
      rewrite He in HD |- *. change (2 ^ (- -52)) with (2 ^ 52) in HD.
      destruct (binary_round_le_one false pD (-52) ltac:(lia)
                  ltac:(change (2 ^ (- -52)) with (2 ^ 52); lia))
        as [mX [eX [-> [HdX [HeX HmX]]]]].
      cbn [atMostOne]. split; [exact HdX|]. split; [lia|exact HmX].
    + destruct (binary_round_le_one true pD (e + 1) ltac:(lia) ltac:(lia))
        as [mX [eX [-> [HdX [HeX HmX]]]]].
      cbn [atMostOne]. split; [exact HdX|]. split; [lia|exact HmX].
Qed.

(** A quarter of the backoff, as a float, does not exceed the quarter. *)
Lemma quarter_of_int64 (b : Z) :
  0 < b <= 2 ^ 53 ->
  exists mB eB,
    float64.mul (float64.of_int64 b) float64.quarter = S754_finite false mB eB
    /\ Z.pos (digits2_pos mB) = 53
    /\ -54 <= eB <= 0
    /\ Z.pos mB * 2 ^ (eB + 400) <= b * 2 ^ 398.
Proof.
  intros Hb. destruct (of_int64_exact b Hb) as [mA [eA [-> [HdA [HeA HvA]]]]].
  destruct (digits2_pos_bounds mA) as [Hlo Hhi]. rewrite HdA in Hlo, Hhi.
  change (2 ^ (53 - 1)) with (2 ^ 52) in Hlo.
  unfold float64.mul, float64.quarter. cbn [SFmul xorb].
  assert (Z.pos (mA * 4503599627370496) = Z.pos mA * 2 ^ 52) as HP by reflexivity.
  assert (Z.pos (digits2_pos (mA * 4503599627370496)) = 53 + 52) as HdP.
  { apply digits2_pos_unique. rewrite HP. change (53 + 52 - 1) with (52 + 52).
    rewrite !Z.pow_add_r by lia. nia. }
  destruct (binary_round_aux_upper false (mA * 4503599627370496) (eA + -54) 52 HdP
              ltac:(lia) ltac:(lia)) as [mB [eB [-> [HdB [HeB Hupper]]]]].
  specialize (Hupper (Z.pos mA) ltac:(rewrite HP; lia)).
  exists mB, eB. split; [reflexivity|]. split; [exact HdB|]. split; [lia|].
  replace (eB + 400) with ((eB - (eA + -54 + 52)) + (eA + 398)) by lia.
  rewrite Z.pow_add_r by lia. rewrite Z.mul_assoc.
  assert (b * 2 ^ 398 = Z.pos mA * 2 ^ (eA + 398)) as ->.
  { replace (eA + 398) with ((eA + 52) + 346) by lia.
    rewrite Z.pow_add_r, Z.mul_assoc, HvA by lia.
    rewrite <- Z.mul_assoc, <- Z.pow_add_r by lia. reflexivity. }
  apply Z.mul_le_mono_nonneg_r; [apply Z.pow_nonneg; lia|exact Hupper].
Qed.

(** The integer part of a finite float, against its value. *)
Lemma trunc_finite_bound (s : bool) (m : positive) (e : Z) :
  -400 <= e ->
  exists j,
    float64.trunc (S754_finite s m e) = Some j
    /\ Z.abs j * 2 ^ 400 <= Z.pos m * 2 ^ (e + 400).
Proof.
  intros He. cbn [float64.trunc].
  set (a := if 0 <=? e then Z.pos m * 2 ^ e else Z.pos m / 2 ^ (- e)).
  assert (0 <= a /\ a * 2 ^ 400 <= Z.pos m * 2 ^ (e + 400)) as [Ha0 Ha].
  { subst a. destruct (Z.leb_spec 0 e) as [H0|Hneg].
    - split; [apply Z.mul_nonneg_nonneg; [lia|apply Z.pow_nonneg; lia]|].
      rewrite Z.pow_add_r by lia. lia.
    - pose proof (Z.pow_pos_nonneg 2 (- e) ltac:(lia) ltac:(lia)) as Hpow.
      split; [apply Z.div_pos; lia|].
      replace 400 with ((- e) + (e + 400)) at 1 by lia.
      rewrite Z.pow_add_r, Z.mul_assoc by lia.
      apply Z.mul_le_mono_nonneg_r; [apply Z.pow_nonneg; lia|].
      rewrite Z.mul_comm. apply Z.mul_div_le. lia. }
  exists (if s then - a else a). split; [reflexivity|].
  destruct s; [rewrite Z.abs_opp|]; rewrite Z.abs_eq by lia; exact Ha.
Qed.

(** The product of a float with a factor of magnitude at most one has an
    integer part that is not larger than the float. *)
Lemma mul_atMostOne (mB : positive) (eB : Z) (x : float64.t) :
  Z.pos (digits2_pos mB) = 53 -> -54 <= eB <= 0 ->
  atMostOne x ->
  exists j,
    float64.trunc (float64.mul (S754_finite false mB eB) x) = Some j
    /\ Z.abs j * 2 ^ 400 <= Z.pos mB * 2 ^ (eB + 400).
Proof.
  intros HdB HeB Hx.
  destruct (digits2_pos_bounds mB) as [HloB HhiB]. rewrite HdB in HloB, HhiB.
  change (2 ^ (53 - 1)) with (2 ^ 52) in HloB.
  destruct x as [s| | |sX mX eX]; try contradiction.
  - exists 0. split; [reflexivity|]. cbn [Z.abs]. rewrite Z.mul_0_l.
    apply Z.mul_nonneg_nonneg; [lia|apply Z.pow_nonneg; lia].
  - destruct Hx as [HdX [HeX HmX]].
    destruct (digits2_pos_bounds mX) as [HloX HhiX]. rewrite HdX in HloX, HhiX.
    change (2 ^ (53 - 1)) with (2 ^ 52) in HloX.
    unfold float64.mul. cbn [SFmul xorb].
    assert (Z.pos (mB * mX) = Z.pos mB * Z.pos mX) as HP by reflexivity.
    assert (2 ^ 104 <= Z.pos (mB * mX) < 2 ^ 106) as HPb.
    { rewrite HP. change (2 ^ 104) with (2 ^ 52 * 2 ^ 52).
      change (2 ^ 106) with (2 ^ 53 * 2 ^ 53). nia. }
    assert (Z.pos (mB * mX) <= Z.pos mB * 2 ^ (- eX)) as HPX
      by (rewrite HP; apply Z.mul_le_mono_nonneg_l; lia).
    assert (exists n : positive,
               Z.pos (digits2_pos (mB * mX)) = 53 + Z.pos n /\ Z.pos n <= - eX
               /\ 52 <= Z.pos n <= 53) as [n [Hdn [Hn Hn2]]].
    { destruct (Z.lt_ge_cases (Z.pos (mB * mX)) (2 ^ 105)) as [Hlt|Hge].
      - exists 52%positive. split; [|lia]. apply digits2_pos_unique.
        change (53 + 52 - 1) with 104. change (53 + 52) with 105. lia.
      - exists 53%positive. split.
        + apply digits2_pos_unique.
          change (53 + 53 - 1) with 105. change (53 + 53) with 106. lia.
        + split; [|lia]. destruct (Z.eq_dec eX (-52)) as [->|]; [|lia].
          change (2 ^ (- -52)) with (2 ^ 52) in *.
          change (2 ^ 105) with (2 ^ 53 * 2 ^ 52) in Hge. nia. }
    destruct (binary_round_aux_upper sX (mB * mX) (eB + eX) n Hdn ltac:(lia) ltac:(lia))
      as [mJ [eJ [-> [HdJ [HeJ Hupper]]]]].
    specialize (Hupper (Z.pos mB * 2 ^ (- eX - Z.pos n))).
    assert (Z.pos mJ * 2 ^ (eJ - (eB + eX + Z.pos n)) <= Z.pos mB * 2 ^ (- eX - Z.pos n))
      as Hb.
    { apply Hupper. rewrite <- Z.mul_assoc, <- Z.pow_add_r by lia.
      replace (- eX - Z.pos n + Z.pos n) with (- eX) by lia. exact HPX. }
    destruct (trunc_finite_bound sX mJ eJ ltac:(lia)) as [j [Hj Hjb]].
    exists j. split; [exact Hj|].
    eapply Z.le_trans; [exact Hjb|].
    replace (eJ + 400) with ((eJ - (eB + eX + Z.pos n)) + (eB + eX + Z.pos n + 400)) by lia.
    rewrite Z.pow_add_r, Z.mul_assoc by lia.
    replace (eB + 400) with ((- eX - Z.pos n) + (eB + eX + Z.pos n + 400)) by lia.
    rewrite (Z.pow_add_r 2 (- eX - Z.pos n)), (Z.mul_assoc (Z.pos mB)) by lia.
    apply Z.mul_le_mono_nonneg_r; [apply Z.pow_nonneg; lia|exact Hb].
Qed.

End Jitter.

(** X18. The jitter stays within a quarter of the backoff: for an
    error without a usable retry-after hint, a backoff of at most [2^53]
    nanoseconds and every value [rand.Float64] can return, the wait
    [calculateBackoff] computes lies between [baseBackoff - baseBackoff/4]
    and [baseBackoff + baseBackoff/4]. *)
Theorem calculateBackoff_jitter_bound (baseBackoff : time.Duration) (e : error)
    (u : float64.t) :
  extractRetryAfter (Some e) <= 0 ->
  0 < baseBackoff <= 2 ^ 53 ->
  unitDraw u = true ->
  baseBackoff - baseBackoff / 4
  <= rateLimiter.calculateBackoff baseBackoff e u
  <= baseBackoff + baseBackoff / 4.
Proof.
  intros Hhint Hbase Hu. unfold rateLimiter.calculateBackoff.
  destruct (Z.gtb_spec (extractRetryAfter (Some e)) 0) as [Hgt|_]; [lia|].
  destruct (quarter_of_int64 baseBackoff Hbase) as [mB [eB [-> [HdB [HeB HvB]]]]].
  destruct (mul_atMostOne mB eB _ HdB HeB (factor_atMostOne u Hu)) as [j [Hj Hjb]].
  assert (Z.abs j <= baseBackoff / 4) as Hquarter.
  { apply Z.div_le_lower_bound; [lia|].
    assert (Z.abs j * 2 ^ 400 <= baseBackoff * 2 ^ 398) as H by lia.
    change (2 ^ 400) with (4 * 2 ^ 398) in H.
    pose proof (Z.pow_pos_nonneg 2 398 ltac:(lia) ltac:(lia)). nia. }
  assert (baseBackoff / 4 <= 2 ^ 51) as Hq51.
  { apply Z.div_le_upper_bound; [lia|]. change (4 * 2 ^ 51) with (2 ^ 53). lia. }
  unfold float64.to_int64. rewrite Hj.
  assert (in_int64 j = true) as ->.
  { unfold in_int64, min_int64, max_int64. apply andb_true_iff.
    change (2 ^ 51) with 2251799813685248 in Hq51.
    change (2 ^ 63) with 9223372036854775808.
    split; [apply Z.leb_le|apply Z.leb_le]; lia. }
  unfold wrap64.
  change (2 ^ 53) with 9007199254740992 in Hbase.
  change (2 ^ 51) with 2251799813685248 in Hq51.
  change (2 ^ 63) with 9223372036854775808.
  change (2 ^ 64) with 18446744073709551616.
  rewrite Z.mod_small by lia. lia.
Qed.

Lemma calculateBackoff_jitter_bound_witness :
  1 * time.Second - 1 * time.Second / 4
  <= rateLimiter.calculateBackoff (1 * time.Second) err429 (float64.of_dyadic 1 (-2))
  <= 1 * time.Second + 1 * time.Second / 4.
Proof.
  apply (calculateBackoff_jitter_bound (1 * time.Second) err429 (float64.of_dyadic 1 (-2))).
  - vm_compute. discriminate.
  - unfold time.Second. change (2 ^ 53) with 9007199254740992. lia.
  - reflexivity.
Defined.
